(** * Spatial aggregation of weather observations

    A shallow embedding of [WeatherDataProcessor] (src/data_processor.py):
    [aggregate_by_grid], [create_weather_zones] and
    [calculate_weather_gradients], together with the pandas / numpy / scipy
    primitives these three methods call.

    Numbers.  The program computes on IEEE doubles.  Here a double is an
    exact real number or the missing-value marker [NaN]: rounding is not
    modelled, missing-ness is.  Infinities occur in the program only as the
    outer bin edges handed to [pd.cut]; they are kept in a type of their own
    ([bin_edge]).

    Mutation.  The three methods assign new columns to the frame they are
    given ([df['grid_lat'] = ...]).  The frame after the call is therefore
    part of what each function of this file returns, and the calls are
    also given on a heap of frames ([call_aggregate_by_grid] and the like),
    where the caller's reference sees the assignment.

    Frames.  The observations frame is taken to carry the columns
    latitude, longitude, temperature, humidity, pressure and wind_speed, as
    the API client builds it (src/xweather_client.py). *)

From Stdlib Require Import Reals Lra Lia List ZArith Bool Arith FinFun.
From Stdlib Require Import Sorted Permutation.
Import ListNotations.
Open Scope R_scope.

Set Implicit Arguments.

(* ================================================================== *)
(** * Floating-point values *)
(* ================================================================== *)

Inductive float : Type :=
| NaN
| Num (x : R).

Definition is_nan (a : float) : bool :=
  match a with NaN => true | Num _ => false end.

Definition fadd (a b : float) : float :=
  match a, b with Num x, Num y => Num (x + y) | _, _ => NaN end.

Definition fsub (a b : float) : float :=
  match a, b with Num x, Num y => Num (x - y) | _, _ => NaN end.

Definition fmul (a b : float) : float :=
  match a, b with Num x, Num y => Num (x * y) | _, _ => NaN end.

Definition fsqrt (a : float) : float :=
  match a with
  | Num x => if Rlt_dec x 0 then NaN else Num (sqrt x)
  | NaN => NaN
  end.

(** [a > b]; any comparison with [NaN] is false. *)
Definition fgtb (a b : float) : bool :=
  match a, b with
  | Num x, Num y => if Rlt_dec y x then true else false
  | _, _ => false
  end.

(** [a // b] on floats: the floor of the quotient, toward minus infinity.
    With a zero divisor numpy yields an infinity or nan; the only use below
    is [(x // g) * g], which is nan in every such case, so nan stands for
    it. *)
Definition ffloordiv (a b : float) : float :=
  match a, b with
  | Num x, Num y =>
      if Req_dec_T y 0 then NaN else Num (IZR (Zfloor (x / y)))
  | _, _ => NaN
  end.

(* ================================================================== *)
(** * Exceptions *)
(* ================================================================== *)

Inductive exn : Type :=
| ValueError        (* raised by pd.cut on unusable bin edges *)
| ZeroDivisor.      (* a true division whose divisor is zero *)

Inductive result (A : Type) : Type :=
| Ok (a : A)
| Raise (e : exn).

Arguments Ok {A} a.
Arguments Raise {A} e.

Definition bind {A B : Type} (m : result A) (k : A -> result B) : result B :=
  match m with Ok a => k a | Raise e => Raise e end.

Notation "x <- m ;; k" := (bind m (fun x => k))
  (at level 61, m at next level, right associativity).

Fixpoint mapM {A B : Type} (f : A -> result B) (l : list A) : result (list B) :=
  match l with
  | [] => Ok []
  | a :: l' => b <- f a ;; bs <- mapM f l' ;; Ok (b :: bs)
  end.

(** [a / b].  numpy reports a zero divisor as a floating-point error and
    yields an infinity or nan, for which this model has no value: the
    division is checked, and a zero divisor raises [ZeroDivisor]. *)
Definition fdiv (a b : float) : result float :=
  match b with
  | NaN => Ok NaN
  | Num y =>
      if Req_dec_T y 0 then Raise ZeroDivisor
      else match a with Num x => Ok (Num (x / y)) | NaN => Ok NaN end
  end.

(* ================================================================== *)
(** * Series reductions (pandas, skipna) and numpy's mean *)
(* ================================================================== *)

Fixpoint dropna (xs : list float) : list R :=
  match xs with
  | [] => []
  | NaN :: xs' => dropna xs'
  | Num x :: xs' => x :: dropna xs'
  end.

Definition Rsum (xs : list R) : R := fold_right Rplus 0 xs.

(** [Series.count()]: the number of non-missing entries. *)
Definition pd_count (xs : list float) : nat := length (dropna xs).

(** [Series.mean()]. *)
Definition pd_mean (xs : list float) : float :=
  match dropna xs with
  | [] => NaN
  | v => Num (Rsum v / INR (length v))
  end.

(** [Series.std()]: the sample standard deviation (ddof = 1). *)
Definition pd_std (xs : list float) : float :=
  let v := dropna xs in
  if (length v <? 2)%nat then NaN
  else
    let m := Rsum v / INR (length v) in
    Num (sqrt (Rsum (map (fun x => (x - m) * (x - m)) v)
               / (INR (length v) - 1))).

(** [Series.min()] and [Series.max()]. *)
Definition pd_min (xs : list float) : float :=
  match dropna xs with
  | [] => NaN
  | x :: v => Num (fold_left Rmin v x)
  end.

Definition pd_max (xs : list float) : float :=
  match dropna xs with
  | [] => NaN
  | x :: v => Num (fold_left Rmax v x)
  end.

(** [ndarray.mean()]: a missing entry makes the mean missing. *)
Definition np_mean (xs : list float) : float :=
  if existsb is_nan xs then NaN
  else match xs with
       | [] => NaN
       | _ => Num (Rsum (dropna xs) / INR (length xs))
       end.

(* ================================================================== *)
(** * Frames *)
(* ================================================================== *)

(** One row of the observations frame, with the columns the three methods
    read. *)
Record Observation : Type := mkObservation {
  latitude : float;
  longitude : float;
  temperature : float;
  humidity : float;
  pressure : float;
  wind_speed : float
}.

Inductive zone_label : Type := Cold_Zone | Moderate_Zone | Warm_Zone.

(** The observations frame: its rows, and the columns the methods add to it
    ([None]: the column does not exist). *)
Record DataFrame : Type := mkDataFrame {
  rows : list Observation;
  df_grid_lat : option (list float);
  df_grid_lon : option (list float);
  df_temp_zone : option (list (option zone_label));
  df_temperature_gradient : option (list float)
}.

Definition df_empty (df : DataFrame) : bool :=
  match rows df with [] => true | _ => false end.

Definition col (f : Observation -> float) (df : DataFrame) : list float :=
  map f (rows df).

Definition set_grid (df : DataFrame) (glat glon : list float) : DataFrame :=
  mkDataFrame (rows df) (Some glat) (Some glon)
              (df_temp_zone df) (df_temperature_gradient df).

Definition set_temp_zone (df : DataFrame) (tz : list (option zone_label))
  : DataFrame :=
  mkDataFrame (rows df) (df_grid_lat df) (df_grid_lon df)
              (Some tz) (df_temperature_gradient df).

Definition set_temperature_gradient (df : DataFrame) (g : list float)
  : DataFrame :=
  mkDataFrame (rows df) (df_grid_lat df) (df_grid_lon df)
              (df_temp_zone df) (Some g).

(* ================================================================== *)
(** * groupby *)
(* ================================================================== *)

Section GroupBy.
Variables K A : Type.
Variable K_eq_dec : forall k1 k2 : K, {k1 = k2} + {k1 <> k2}.
Variable K_leb : K -> K -> bool.

Fixpoint insert_key (k : K) (l : list K) : list K :=
  match l with
  | [] => [k]
  | k' :: l' => if K_leb k k' then k :: l else k' :: insert_key k l'
  end.

Fixpoint sort_keys (l : list K) : list K :=
  match l with
  | [] => []
  | k :: l' => insert_key k (sort_keys l')
  end.

(** Rows whose key is missing belong to no group. *)
Fixpoint valid_keys (l : list (option K * A)) : list K :=
  match l with
  | [] => []
  | (Some k, _) :: l' => k :: valid_keys l'
  | (None, _) :: l' => valid_keys l'
  end.

Fixpoint members (k : K) (l : list (option K * A)) : list A :=
  match l with
  | [] => []
  | (Some k', a) :: l' =>
      if K_eq_dec k k' then a :: members k l' else members k l'
  | (None, _) :: l' => members k l'
  end.

(** One group per distinct key that occurs, in increasing key order. *)
Definition groupby (l : list (option K * A)) : list (K * list A) :=
  map (fun k => (k, members k l))
      (sort_keys (nodup K_eq_dec (valid_keys l))).
End GroupBy.

(* ================================================================== *)
(** * aggregate_by_grid *)
(* ================================================================== *)

Definition grid_key : Type := (R * R)%type.

Definition grid_key_eq_dec (k1 k2 : grid_key) : {k1 = k2} + {k1 <> k2}.
Proof. decide equality; apply Req_dec_T. Defined.

Arguments grid_key_eq_dec : simpl never.

Definition Rleb (x y : R) : bool := if Rle_dec x y then true else false.

(** Lexicographic order on (grid_lat, grid_lon). *)
Definition grid_key_leb (k1 k2 : grid_key) : bool :=
  if Req_dec_T (fst k1) (fst k2) then Rleb (snd k1) (snd k2)
  else Rleb (fst k1) (fst k2).

Definition grid_key_of (glat glon : float) : option grid_key :=
  match glat, glon with
  | Num x, Num y => Some (x, y)
  | _, _ => None
  end.

Module GridRow.
Record t : Type := mk {
  grid_lat : float;
  grid_lon : float;
  temp_mean : float;
  temp_min : float;
  temp_max : float;
  station_count : nat;
  humidity_mean : float;
  pressure_mean : float;
  wind_speed_mean : float;
  geometry : float * float          (* Point(lon, lat) *)
}.
End GridRow.

Definition grid_cell (g : grid_key * list Observation) : GridRow.t :=
  let '((glat, glon), grp) := g in
  GridRow.mk (Num glat) (Num glon)
             (pd_mean (map temperature grp))
             (pd_min (map temperature grp))
             (pd_max (map temperature grp))
             (pd_count (map temperature grp))
             (pd_mean (map humidity grp))
             (pd_mean (map pressure grp))
             (pd_mean (map wind_speed grp))
             (Num glon, Num glat).

(** [(x // grid_size) * grid_size] *)
Definition grid_coord (x grid_size : float) : float :=
  fmul (ffloordiv x grid_size) grid_size.

Definition keyed_rows (glat glon : list float) (obs : list Observation)
  : list (option grid_key * Observation) :=
  combine (map (fun p => grid_key_of (fst p) (snd p)) (combine glat glon)) obs.

Definition aggregate_by_grid (df : DataFrame) (grid_size : float)
  : DataFrame * list GridRow.t :=
  if df_empty df then (df, [])
  else
    let glat := map (fun o => grid_coord (latitude o) grid_size) (rows df) in
    let glon := map (fun o => grid_coord (longitude o) grid_size) (rows df) in
    let df' := set_grid df glat glon in
    let agg_data :=
      map grid_cell
          (groupby grid_key_eq_dec grid_key_leb
                   (keyed_rows glat glon (rows df))) in
    (df', agg_data).

(* ================================================================== *)
(** * pd.cut *)
(* ================================================================== *)

(** A bin edge: a float, or one of the two infinities. *)
Inductive bin_edge : Type :=
| neg_inf
| edge (v : float)
| pos_inf.

(** [a < b] on edges; false as soon as one side is nan. *)
Definition edge_ltb (a b : bin_edge) : bool :=
  match a, b with
  | edge NaN, _ | _, edge NaN => false
  | neg_inf, neg_inf => false
  | neg_inf, _ => true
  | edge (Num _), neg_inf => false
  | edge (Num x), edge (Num y) => if Rlt_dec x y then true else false
  | edge (Num _), pos_inf => true
  | pos_inf, _ => false
  end.

(** [lo < x]. *)
Definition above_edge (lo : bin_edge) (x : R) : bool :=
  edge_ltb lo (edge (Num x)).

(** [x <= hi]. *)
Definition upto_edge (x : R) (hi : bin_edge) : bool :=
  match hi with
  | neg_inf => false
  | edge NaN => false
  | edge (Num y) => Rleb x y
  | pos_inf => true
  end.

(** The bin edges must increase strictly: pandas refuses edges that are
    not monotonic (a nan edge is not) and edges that repeat. *)
Fixpoint increasing (bins : list bin_edge) : bool :=
  match bins with
  | a :: ((b :: _) as rest) => edge_ltb a b && increasing rest
  | _ => true
  end.

(** The label of the right-closed interval [(lo, hi]] that holds [x]
    ([right=True], [include_lowest=False]: the defaults). *)
Fixpoint find_bin (L : Type) (x : R) (bins : list bin_edge) (labels : list L)
  : option L :=
  match bins, labels with
  | lo :: ((hi :: _) as rest), l :: ls =>
      if above_edge lo x && upto_edge x hi then Some l
      else find_bin x rest ls
  | _, _ => None
  end.

Definition pd_cut (L : Type) (xs : list float) (bins : list bin_edge)
  (labels : list L) : result (list (option L)) :=
  if increasing bins then
    Ok (map (fun a => match a with
                      | NaN => None
                      | Num x => find_bin x bins labels
                      end) xs)
  else Raise ValueError.

(* ================================================================== *)
(** * create_weather_zones *)
(* ================================================================== *)

Definition zone_label_eq_dec (z1 z2 : zone_label) : {z1 = z2} + {z1 <> z2}.
Proof. decide equality. Defined.

Definition zone_rank (z : zone_label) : nat :=
  match z with Cold_Zone => 0 | Moderate_Zone => 1 | Warm_Zone => 2 end.

(** The order of the categories. *)
Definition zone_label_leb (z1 z2 : zone_label) : bool :=
  (zone_rank z1 <=? zone_rank z2)%nat.

Module ZoneRow.
Record t : Type := mk {
  zone : zone_label;
  lat_mean : float;
  station_count : nat;
  lon_mean : float;
  temp_mean : float;
  temp_min : float;
  temp_max : float;
  humidity_mean : float;
  pressure_mean : float;
  geometry : float * float          (* Point(lon, lat) *)
}.
End ZoneRow.

Definition zone_row (g : zone_label * list Observation) : ZoneRow.t :=
  let '(z, grp) := g in
  ZoneRow.mk z
             (pd_mean (map latitude grp))
             (pd_count (map latitude grp))
             (pd_mean (map longitude grp))
             (pd_mean (map temperature grp))
             (pd_min (map temperature grp))
             (pd_max (map temperature grp))
             (pd_mean (map humidity grp))
             (pd_mean (map pressure grp))
             (pd_mean (map longitude grp), pd_mean (map latitude grp)).

Definition zone_bins (temp_mean temp_std : float) : list bin_edge :=
  [neg_inf; edge (fsub temp_mean temp_std);
   edge (fadd temp_mean temp_std); pos_inf].

Definition zone_labels : list zone_label :=
  [Cold_Zone; Moderate_Zone; Warm_Zone].

(** [temp_threshold] is a parameter of the method that its body never
    reads. *)
Definition create_weather_zones (df : DataFrame) (temp_threshold : float)
  : DataFrame * result (list ZoneRow.t) :=
  if df_empty df then (df, Ok [])
  else
    let temp_mean := pd_mean (col temperature df) in
    let temp_std := pd_std (col temperature df) in
    match pd_cut (col temperature df) (zone_bins temp_mean temp_std)
                 zone_labels with
    | Raise e => (df, Raise e)
    | Ok tz =>
        let df' := set_temp_zone df tz in
        let zones :=
          map zone_row
              (groupby zone_label_eq_dec zone_label_leb
                       (combine tz (rows df))) in
        (df', Ok zones)
    end.

(* ================================================================== *)
(** * calculate_weather_gradients *)
(* ================================================================== *)

(** [cdist(coords, coords, metric='euclidean')] *)
Definition euclidean (a b : Observation) : float :=
  let dlat := fsub (latitude a) (latitude b) in
  let dlon := fsub (longitude a) (longitude b) in
  fsqrt (fadd (fmul dlat dlat) (fmul dlon dlon)).

Definition cdist (coords : list Observation) : list (list float) :=
  map (fun a => map (fun b => euclidean a b) coords) coords.

(** The order [np.argsort] sorts by: numbers increasing, nan last. *)
Definition sort_leb (a b : float) : bool :=
  match a, b with
  | Num x, Num y => Rleb x y
  | _, NaN => true
  | NaN, Num _ => false
  end.

Fixpoint insert_idx (p : float * nat) (l : list (float * nat))
  : list (float * nat) :=
  match l with
  | [] => [p]
  | q :: l' =>
      if sort_leb (fst p) (fst q) then p :: l else q :: insert_idx p l'
  end.

(** [np.argsort]: the indices of a row in increasing order of value.  Equal
    values keep their index order here; numpy promises no order among them,
    and the sorted values, hence the mean distance to the neighbours, do
    not depend on it. *)
Definition argsort (row : list float) : list nat :=
  map snd (fold_right insert_idx [] (combine row (seq 0 (length row)))).

(** [a[1:4]] *)
Definition slice_1_4 (A : Type) (l : list A) : list A :=
  firstn 3 (skipn 1 l).

Definition take (xs : list float) (idx : list nat) : list float :=
  map (fun j => nth j xs NaN) idx.

Definition nearest_indices (distances : list (list float)) (i : nat)
  : list nat :=
  slice_1_4 (argsort (nth i distances [])).

(** [distances[i][nearest_indices].mean()] *)
Definition neighbor_distance (distances : list (list float)) (i : nat)
  : float :=
  np_mean (take (nth i distances []) (nearest_indices distances i)).

(** [temp_diff / distance if distance > 0 else 0] *)
Definition gradient (temp_diff distance : float) : result float :=
  if fgtb distance (Num 0) then fdiv temp_diff distance else Ok (Num 0).

Definition temp_gradient (df : DataFrame) (distances : list (list float))
  (i : nat) : result float :=
  let nearest := nearest_indices distances i in
  if (0 <? length nearest)%nat then
    let temp_diff :=
      fsub (nth i (col temperature df) NaN)
           (pd_mean (take (col temperature df) nearest)) in
    let distance := neighbor_distance distances i in
    gradient temp_diff distance
  else Ok (Num 0).

(** The frame handed back is the frame that was passed in. *)
Definition calculate_weather_gradients (df : DataFrame) : result DataFrame :=
  if df_empty df || (length (rows df) <? 2)%nat then Ok df
  else
    let distances := cdist (rows df) in
    temp_gradients <-
      mapM (temp_gradient df distances) (seq 0 (length (rows df))) ;;
    Ok (set_temperature_gradient df temp_gradients).

(* ================================================================== *)
(** * Frames as objects *)
(* ================================================================== *)

(** A Python caller hands a method a reference to a frame, and an
    assignment to a column of [df] inside the method is seen through every
    reference to that frame.  The heap holds the frames; a method call
    takes the heap and a reference and gives back the heap after the
    call. *)
Definition ref : Type := nat.

Definition heap : Type := list DataFrame.

Definition load (h : heap) (r : ref) : option DataFrame := nth_error h r.

Fixpoint store (h : heap) (r : ref) (df : DataFrame) : heap :=
  match h, r with
  | [], _ => []
  | _ :: h', O => df :: h'
  | d :: h', S r' => d :: store h' r' df
  end.

(** [processor.aggregate_by_grid(df, grid_size)]: the table returned is a
    new object. *)
Definition call_aggregate_by_grid (h : heap) (r : ref) (grid_size : float)
  : option (heap * list GridRow.t) :=
  match load h r with
  | None => None
  | Some df =>
      let '(df', gdf) := aggregate_by_grid df grid_size in
      Some (store h r df', gdf)
  end.

(** [processor.create_weather_zones(df, temp_threshold)]: the table
    returned is a new object. *)
Definition call_create_weather_zones (h : heap) (r : ref)
  (temp_threshold : float) : option (heap * result (list ZoneRow.t)) :=
  match load h r with
  | None => None
  | Some df =>
      let '(df', zones_gdf) := create_weather_zones df temp_threshold in
      Some (store h r df', zones_gdf)
  end.

(** [processor.calculate_weather_gradients(df)]: [return df], the reference
    it was given. *)
Definition call_calculate_weather_gradients (h : heap) (r : ref)
  : option (heap * result ref) :=
  match load h r with
  | None => None
  | Some df =>
      match calculate_weather_gradients df with
      | Ok df' => Some (store h r df', Ok r)
      | Raise e => Some (h, Raise e)
      end
  end.

(* ================================================================== *)
(** * Counting the observations of a cell *)
(* ================================================================== *)

Definition grid_key_opt_eq_dec (k1 k2 : option grid_key)
  : {k1 = k2} + {k1 <> k2}.
Proof. decide equality; apply grid_key_eq_dec. Defined.

Arguments grid_key_opt_eq_dec : simpl never.

(** The key that aggregation computes for one observation. *)
Definition observation_key (grid_size : float) (o : Observation)
  : option grid_key :=
  grid_key_of (grid_coord (latitude o) grid_size)
              (grid_coord (longitude o) grid_size).

(** Whether the observation [o] is keyed to the cell [c]. *)
Definition in_cell (grid_size : float) (c : GridRow.t) (o : Observation)
  : bool :=
  if grid_key_opt_eq_dec
       (observation_key grid_size o)
       (grid_key_of (GridRow.grid_lat c) (GridRow.grid_lon c))
  then true else false.

(** How many observations of a batch are keyed to the cell [c]. *)
Definition observations_in_cell (obs : list Observation) (grid_size : float)
  (c : GridRow.t) : nat :=
  length (filter (in_cell grid_size c) obs).

(** How many of them carry a temperature. *)
Definition readings_in_cell (obs : list Observation) (grid_size : float)
  (c : GridRow.t) : nat :=
  length (filter (fun o => in_cell grid_size c o
                           && negb (is_nan (temperature o))) obs).

(** The key of the cell of grid size [ks] that holds the point [key]; used
    to compare a grid with a coarser one. *)
Definition coarsen (ks : R) (key : grid_key) : grid_key :=
  (IZR (Zfloor (fst key / ks)) * ks, IZR (Zfloor (snd key / ks)) * ks).

(** The zone that [pd.cut] gives one temperature, for mean [m] and
    standard deviation [s]. *)
Definition zone_of (m s : R) (a : float) : option zone_label :=
  match a with
  | NaN => None
  | Num x => find_bin x (zone_bins (Num m) (Num s)) zone_labels
  end.

(** The squared deviation of a reading from the mean. *)
Definition sq_dev (m x : R) : R := (x - m) * (x - m).

(** All readings of a series are the same value. *)
Definition all_equal (v : list R) : Prop :=
  forall x y, In x v -> In y v -> x = y.

(** A change of temperature unit: every reading [x] becomes [a x + b]
    (Fahrenheit to Celsius is a = 5/9, b = -160/9); a missing reading stays
    missing. *)
Definition rescale (a b : R) (t : float) : float :=
  fadd (fmul (Num a) t) (Num b).

Definition rescale_observation (a b : R) (o : Observation) : Observation :=
  mkObservation (latitude o) (longitude o) (rescale a b (temperature o))
                (humidity o) (pressure o) (wind_speed o).

Definition rescale_temperature (a b : R) (df : DataFrame) : DataFrame :=
  mkDataFrame (map (rescale_observation a b) (rows df))
              (df_grid_lat df) (df_grid_lon df)
              (df_temp_zone df) (df_temperature_gradient df).

(** [a] sorts no later than [b] in [np.argsort]: [a <= b], or [b] is nan. *)
Definition no_farther (a b : float) : Prop := sort_leb a b = true.

Definition val_le (p q : float * nat) : Prop := no_farther (fst p) (fst q).

(** The pairs (value, index) of a row in the order [argsort] puts them. *)
Definition sorted_pairs (row : list float) : list (float * nat) :=
  fold_right insert_idx [] (combine row (seq 0 (length row))).

(** The index that the slice [[1:4]] skips: the first of [argsort]. *)
Definition skipped_index (distances : list (list float)) (i : nat) : nat :=
  nth 0 (argsort (nth i distances [])) 0%nat.

(** The distance from observation [i] to observation [j]. *)
Definition distance_to (distances : list (list float)) (i j : nat) : float :=
  nth j (nth i distances []) NaN.

(* ================================================================== *)
(** * clean_weather_data *)
(* ================================================================== *)

Inductive temp_category_label : Type := Freezing | Cold | Cool | Warm | Hot.

(** A frame together with the [temp_category] column that
    [clean_weather_data] adds ([None]: the column does not exist).  The
    text columns of the frame ([weather], [weather_icon]) are not carried:
    nothing below depends on them. *)
Record CleanFrame : Type := mkCleanFrame {
  frame : DataFrame;
  temp_category : option (list (option temp_category_label))
}.

Definition raw (df : DataFrame) : CleanFrame := mkCleanFrame df None.

Definition has_coordinates (o : Observation) : bool :=
  negb (is_nan (latitude o)) && negb (is_nan (longitude o)).

(** The entries of a column at the rows that a boolean mask keeps. *)
Fixpoint select (A : Type) (mask : list bool) (l : list A) : list A :=
  match mask, l with
  | true :: mask', a :: l' => a :: select mask' l'
  | false :: mask', _ :: l' => select mask' l'
  | _, _ => []
  end.

(** [df.dropna(subset=['latitude', 'longitude'])]: a new frame. *)
Definition dropna_coordinates (f : CleanFrame) : CleanFrame :=
  let mask := map has_coordinates (rows (frame f)) in
  mkCleanFrame
    (mkDataFrame (select mask (rows (frame f)))
                 (option_map (select mask) (df_grid_lat (frame f)))
                 (option_map (select mask) (df_grid_lon (frame f)))
                 (option_map (select mask) (df_temp_zone (frame f)))
                 (option_map (select mask)
                             (df_temperature_gradient (frame f))))
    (option_map (select mask) (temp_category f)).

Definition category_bins : list bin_edge :=
  [neg_inf; edge (Num 32); edge (Num 50); edge (Num 70); edge (Num 90);
   pos_inf].

Definition category_labels : list temp_category_label :=
  [Freezing; Cold; Cool; Warm; Hot].

(** The numeric columns hold floats already, so [pd.to_numeric] leaves
    them as they are. *)
Definition clean_weather_data (f : CleanFrame) : result CleanFrame :=
  if df_empty (frame f) then Ok f
  else
    let df := dropna_coordinates f in
    c <- pd_cut (col temperature (frame df)) category_bins category_labels ;;
    Ok (mkCleanFrame (frame df) (Some c)).

(** The category that [pd.cut] gives one temperature. *)
Definition category_of (t : float) : option temp_category_label :=
  match t with
  | NaN => None
  | Num x => find_bin x category_bins category_labels
  end.

(* ================================================================== *)
(** * Heatmap data *)
(* ================================================================== *)

Definition heat_point : Type := (float * float * float)%type.

(** [WeatherDataProcessor.create_heatmap_data]: the three columns, without
    the rows in which one of them is missing. *)
Definition create_heatmap_data (df : DataFrame)
  (lat_col lon_col value_col : Observation -> float) : list heat_point :=
  if df_empty df then []
  else
    map (fun o => (lat_col o, lon_col o, value_col o))
        (filter (fun o => negb (is_nan (lat_col o))
                          && negb (is_nan (lon_col o))
                          && negb (is_nan (value_col o)))
                (rows df)).

(** [WeatherMap._create_heatmap_data]: only the temperature is tested. *)
Definition map_heatmap_data (observations : DataFrame) : list heat_point :=
  if df_empty observations then []
  else
    map (fun o => (latitude o, longitude o, temperature o))
        (filter (fun o => negb (is_nan (temperature o))) (rows observations)).

(* ================================================================== *)
(** * Observation markers *)
(* ================================================================== *)

Inductive color : Type := gray | blue | lightblue | green | orange | red.

Definition fltb (a b : float) : bool := fgtb b a.

(** The colour of an observation marker, from its temperature. *)
Definition marker_color (temp : float) : color :=
  if is_nan temp then gray
  else if fltb temp (Num 32) then blue
  else if fltb temp (Num 50) then lightblue
  else if fltb temp (Num 70) then green
  else if fltb temp (Num 90) then orange
  else red.

Record Marker : Type := mkMarker {
  location : float * float;
  fillColor : color
}.

(** [WeatherMap.add_weather_observations]: one circle marker per row that
    has both coordinates. *)
Definition observation_markers (observations : DataFrame) : list Marker :=
  if df_empty observations then []
  else
    map (fun o => mkMarker (latitude o, longitude o)
                           (marker_color (temperature o)))
        (filter has_coordinates (rows observations)).

(** The legend that [WeatherMap._add_legend] draws. *)
Definition legend_color (c : temp_category_label) : color :=
  match c with
  | Freezing => blue
  | Cold => lightblue
  | Cool => green
  | Warm => orange
  | Hot => red
  end.

(* ================================================================== *)
(** * prepare_for_mapping *)
(* ================================================================== *)

(** A forecast frame carries one row per forecast period; it has the
    coordinates and the daily extremes, and no temperature column. *)
Module Forecast.
Record t : Type := mk {
  latitude : float;
  longitude : float;
  temperature_max : float;
  temperature_min : float;
  humidity : float;
  pressure : float;
  wind_speed : float
}.
End Forecast.

(** [clean_weather_data] on a frame without a temperature column: the rows
    without coordinates are dropped and no [temp_category] is added. *)
Definition clean_weather_data_forecast (df : list Forecast.t)
  : list Forecast.t :=
  match df with
  | [] => df
  | _ :: _ =>
      filter (fun p => negb (is_nan (Forecast.latitude p))
                       && negb (is_nan (Forecast.longitude p))) df
  end.

(** The dictionary that [prepare_for_mapping] returns; a key that was not
    set is [None]. *)
Module MappingResult.
Record t : Type := mk {
  observations : option CleanFrame;
  grid_data : option (list GridRow.t);
  weather_zones : option (list ZoneRow.t);
  gradients : option CleanFrame;
  forecast : option (list Forecast.t)
}.
End MappingResult.

(** [result['observations']] and [result['gradients']] are the same frame
    object, the cleaned frame, to which the three calls assign their
    columns one after the other; the result holds that frame as it is when
    the method returns. *)
Definition prepare_for_mapping (observations : CleanFrame)
  (forecast : option (list Forecast.t)) : result MappingResult.t :=
  obs <-
    (if df_empty (frame observations) then Ok (None, None, None)
     else
       obs_clean <- clean_weather_data observations ;;
       let '(df1, grid_data) :=
         aggregate_by_grid (frame obs_clean) (Num (1 / 100)) in
       let '(df2, zones) := create_weather_zones df1 (Num 5) in
       weather_zones <- zones ;;
       df3 <- calculate_weather_gradients df2 ;;
       Ok (Some (mkCleanFrame df3 (temp_category obs_clean)),
           Some grid_data, Some weather_zones)) ;;
  let '(obs_final, grid_data, weather_zones) := obs in
  let forecast_clean :=
    match forecast with
    | Some (p :: ps) => Some (clean_weather_data_forecast (p :: ps))
    | _ => None
    end in
  Ok (MappingResult.mk obs_final grid_data weather_zones obs_final
                       forecast_clean).

(* ================================================================== *)
(** * Request deduplication and batching *)
(* ================================================================== *)

Section Requests.
Variable Request : Type.

(** [hash(frozenset(req.items()))] *)
Variable req_key : Request -> Z.

(** One turn of the loop over [requests_data]; the state is
    [(unique_requests, seen_requests)]. *)
Definition optimize_step (st : list Request * list Z) (req : Request)
  : list Request * list Z :=
  let '(unique_requests, seen_requests) := st in
  if existsb (Z.eqb (req_key req)) seen_requests then st
  else (unique_requests ++ [req], req_key req :: seen_requests).

Definition optimize_api_requests (requests_data : list Request)
  : list Request :=
  fst (fold_left optimize_step requests_data ([], [])).

(** [range(0, stop, step)]: a zero step is a ValueError, a negative step
    gives the empty range. *)
Definition range0 (stop : nat) (step : Z) : result (list nat) :=
  if (step =? 0)%Z then Raise ValueError
  else if (step <? 0)%Z then Ok []
  else
    let s := Z.to_nat step in
    Ok (map (fun k => (k * s)%nat) (seq 0 ((stop + s - 1) / s))).

(** [l[i:j]] for [0 <= i <= j] *)
Definition slice (A : Type) (l : list A) (i j : nat) : list A :=
  firstn (j - i) (skipn i l).

Definition batch_requests (requests_data : list Request) (batch_size : Z)
  : result (list (list Request)) :=
  starts <- range0 (length requests_data) batch_size ;;
  Ok (map (fun i => slice requests_data i (i + Z.to_nat batch_size)) starts).
End Requests.

(* ================================================================== *)
(** * Rate limiting *)
(* ================================================================== *)

(** [self.request_times]: a dictionary from minute numbers to counts, as
    the list of its items in insertion order. *)
Definition request_times_t : Type := list (Z * Z).

Fixpoint dict_get (d : request_times_t) (k : Z) (default : Z) : Z :=
  match d with
  | [] => default
  | (k', v) :: d' => if (k' =? k)%Z then v else dict_get d' k default
  end.

Fixpoint dict_set (d : request_times_t) (k v : Z) : request_times_t :=
  match d with
  | [] => [(k, v)]
  | (k', v') :: d' =>
      if (k' =? k)%Z then (k, v) :: d' else (k', v') :: dict_set d' k v
  end.

(** [current_time] is the reading of [time.time()], in seconds.  The call
    returns the dictionary it leaves behind and its answer. *)
Definition implement_rate_limiting (request_times : request_times_t)
  (current_time : R) (max_requests_per_minute : Z)
  : request_times_t * bool :=
  let minute_ago := current_time - 60 in
  let request_times :=
    filter (fun e => if Rlt_dec minute_ago (IZR (fst e)) then true else false)
           request_times in
  let total_requests := fold_right Z.add 0%Z (map snd request_times) in
  if (total_requests >=? max_requests_per_minute)%Z
  then (request_times, false)
  else
    let current_minute := Zfloor (current_time / 60) in
    (dict_set request_times current_minute
              (dict_get request_times current_minute 0 + 1)%Z,
     true).

(** Successive calls on one optimizer, whose dictionary starts empty; the
    list holds the clock reading of each call. *)
Fixpoint rate_limited_calls (request_times : request_times_t)
  (clock : list R) (max_requests_per_minute : Z) : list bool :=
  match clock with
  | [] => []
  | t :: clock' =>
      let '(request_times', allowed) :=
        implement_rate_limiting request_times t max_requests_per_minute in
      allowed :: rate_limited_calls request_times' clock'
                                    max_requests_per_minute
  end.

(* ================================================================== *)
(** * optimize_marker_clustering *)
(* ================================================================== *)

(** The dictionaries of the returned list: a marker of the short path (no
    [is_cluster] key), a cluster, or a marker of the clustering path. *)
Inductive marker_data : Type :=
| plain_marker (lat lon : float) (data : Observation)
| cluster_marker (lat lon : float) (count : nat) (avg_temp : float)
| single_marker (lat lon : float) (data : Observation).

Definition cluster_group (cluster_threshold : Z)
  (g : grid_key * list Observation) : list marker_data :=
  let '((grid_lat, grid_lon), group) := g in
  if (cluster_threshold <? Z.of_nat (length group))%Z then
    [cluster_marker (Num grid_lat) (Num grid_lon) (length group)
                    (pd_mean (map temperature group))]
  else
    map (fun o => single_marker (latitude o) (longitude o) o) group.

Definition optimize_marker_clustering (df : DataFrame) (cluster_threshold : Z)
  : DataFrame * list marker_data :=
  if (Z.of_nat (length (rows df)) <=? cluster_threshold)%Z then
    (df, map (fun o => plain_marker (latitude o) (longitude o) o) (rows df))
  else
    let grid_size := Num (1 / 100) in
    let glat := map (fun o => grid_coord (latitude o) grid_size) (rows df) in
    let glon := map (fun o => grid_coord (longitude o) grid_size) (rows df) in
    let df' := set_grid df glat glon in
    (df',
     flat_map (cluster_group cluster_threshold)
              (groupby grid_key_eq_dec grid_key_leb
                       (keyed_rows glat glon (rows df)))).

(** How many stations an entry of the returned list stands for. *)
Definition stations_of (m : marker_data) : nat :=
  match m with
  | cluster_marker _ _ count _ => count
  | _ => 1%nat
  end.

(* ================================================================== *)
(** * Example batches *)
(* ================================================================== *)

Definition station (lat lon temp : float) : Observation :=
  mkObservation lat lon temp (Num 55) (Num 30) (Num 8).

Definition batch (obs : list Observation) : DataFrame :=
  mkDataFrame obs None None None None.

Definition lower_manhattan : DataFrame :=
  batch [station (Num (-74005 / 1000)) (Num (40713 / 1000)) (Num 72)].

Definition empty_batch : DataFrame := batch [].

Definition single_station : DataFrame :=
  batch [station (Num 40) (Num (-74)) (Num 72)].

(** A station whose temperature reading is missing. *)
Definition silent_station : DataFrame :=
  batch [station (Num 40) (Num (-74)) NaN].

Definition three_stations : DataFrame :=
  batch [station (Num 40) (Num (-74)) (Num 60);
         station (Num 41) (Num (-74)) (Num 70);
         station (Num 42) (Num (-74)) (Num 80)].

Definition five_stations : DataFrame :=
  batch [station (Num 40) (Num (-74)) (Num 10);
         station (Num 41) (Num (-74)) (Num 20);
         station (Num 42) (Num (-74)) (Num 30);
         station (Num 43) (Num (-74)) (Num 40);
         station (Num 44) (Num (-74)) (Num 50)].

(** The cell that grid size 1 gives the one station of [single_station]. *)
Definition single_station_cell : GridRow.t :=
  grid_cell ((40, -74), [station (Num 40) (Num (-74)) (Num 72)]).

(** The Cold row of the zone table of [three_stations]. *)
Definition three_stations_cold_row : ZoneRow.t :=
  zone_row (Cold_Zone, [station (Num 40) (Num (-74)) (Num 60)]).

(** Two stations at latitudes 3 and 4. *)
Definition two_latitudes : DataFrame :=
  batch [station (Num 3) (Num 0) (Num 60);
         station (Num 4) (Num 0) (Num 70)].

(** Two stations at the same place with different temperatures. *)
Definition coincident_stations : DataFrame :=
  batch [station (Num 40) (Num (-74)) (Num 60);
         station (Num 40) (Num (-74)) (Num 80)].

(** Two stations one degree apart, the first without a temperature. *)
Definition missing_then_present : DataFrame :=
  batch [station (Num 40) (Num (-74)) NaN;
         station (Num 41) (Num (-74)) (Num 80)].

(* ================================================================== *)
(** * Properties of the primitives *)
(* ================================================================== *)

Section GroupByFacts.
Variables K A : Type.
Variable K_eq_dec : forall k1 k2 : K, {k1 = k2} + {k1 <> k2}.
Variable K_leb : K -> K -> bool.

Lemma In_insert_key (x k : K) (l : list K) :
  In x (insert_key K_leb k l) <-> x = k \/ In x l.
Proof.
  induction l as [|k' l IH]; simpl.
  - intuition.
  - destruct (K_leb k k'); simpl; [intuition | rewrite IH; intuition].
Qed.

Lemma In_sort_keys (x : K) (l : list K) :
  In x (sort_keys K_leb l) <-> In x l.
Proof.
  induction l as [|k l IH]; simpl; [tauto|].
  rewrite In_insert_key, IH. intuition.
Qed.

Lemma length_insert_key (k : K) (l : list K) :
  length (insert_key K_leb k l) = S (length l).
Proof.
  induction l as [|k' l IH]; simpl; [reflexivity|].
  destruct (K_leb k k'); simpl; [reflexivity | now rewrite IH].
Qed.

Lemma length_sort_keys (l : list K) :
  length (sort_keys K_leb l) = length l.
Proof.
  induction l as [|k l IH]; simpl; [reflexivity|].
  now rewrite length_insert_key, IH.
Qed.

Lemma In_valid_keys (k : K) (a : A) (l : list (option K * A)) :
  In (Some k, a) l -> In k (valid_keys l).
Proof.
  induction l as [|[[k'|] a'] l IH]; simpl; intros H.
  - exact H.
  - destruct H as [H|H]; [left; congruence | right; auto].
  - destruct H as [H|H]; [discriminate | auto].
Qed.

Lemma length_groupby (l : list (option K * A)) :
  length (groupby K_eq_dec K_leb l)
  = length (nodup K_eq_dec (valid_keys l)).
Proof.
  unfold groupby. now rewrite length_map, length_sort_keys.
Qed.

Lemma In_groupby (k : K) (a : A) (l : list (option K * A)) :
  In (Some k, a) l -> In (k, members K_eq_dec k l) (groupby K_eq_dec K_leb l).
Proof.
  intros H. unfold groupby.
  apply (in_map (fun k0 => (k0, members K_eq_dec k0 l))).
  apply In_sort_keys, nodup_In. eapply In_valid_keys; eauto.
Qed.
End GroupByFacts.

Lemma grid_coord_floor (x g : R) :
  0 < g -> grid_coord (Num x) (Num g) = Num (IZR (Zfloor (x / g)) * g).
Proof.
  intros Hg. unfold grid_coord, ffloordiv.
  destruct (Req_dec_T g 0); [lra | reflexivity].
Qed.

Lemma keyed_rows_map (f h : Observation -> float) (l : list Observation) :
  keyed_rows (map f l) (map h l) l
  = map (fun o => (grid_key_of (f o) (h o), o)) l.
Proof.
  unfold keyed_rows. induction l as [|o l IH]; simpl; [reflexivity|].
  now rewrite IH.
Qed.

Lemma rows_nonempty (df : DataFrame) (i : nat) (o : Observation) :
  nth_error (rows df) i = Some o -> df_empty df = false.
Proof.
  unfold df_empty. destruct (rows df); [destruct i; discriminate | reflexivity].
Qed.

(* ================================================================== *)
(** * Grid aggregation *)
(* ================================================================== *)

(** C2.  For a positive grid size, the key that aggregation stores for an
    observation is (n * grid_size, m * grid_size) where n and m are the
    integers with n <= lat / grid_size < n + 1 and
    m <= lon / grid_size < m + 1: the floor toward minus infinity, also for
    negative coordinates.  A cell with exactly that key is emitted. *)
Theorem aggregate_by_grid_key_is_floor :
  forall (df : DataFrame) (g : R) (i : nat) (o : Observation) (x y : R),
    0 < g ->
    nth_error (rows df) i = Some o ->
    latitude o = Num x ->
    longitude o = Num y ->
    exists n m : Z,
      (IZR n <= x / g < IZR n + 1) /\
      (IZR m <= y / g < IZR m + 1) /\
      (exists glat glon,
          df_grid_lat (fst (aggregate_by_grid df (Num g))) = Some glat /\
          df_grid_lon (fst (aggregate_by_grid df (Num g))) = Some glon /\
          nth_error glat i = Some (Num (IZR n * g)) /\
          nth_error glon i = Some (Num (IZR m * g))) /\
      (exists c,
          In c (snd (aggregate_by_grid df (Num g))) /\
          GridRow.grid_lat c = Num (IZR n * g) /\
          GridRow.grid_lon c = Num (IZR m * g)).
Proof.
  intros df g i o x y Hg Hi Hx Hy.
  exists (Zfloor (x / g)), (Zfloor (y / g)).
  split; [apply Zfloor_bound|]. split; [apply Zfloor_bound|].
  unfold aggregate_by_grid. rewrite (rows_nonempty _ _ Hi). simpl.
  split.
  - eexists _, _. split; [reflexivity|]. split; [reflexivity|].
    rewrite !nth_error_map, Hi. simpl.
    now rewrite Hx, Hy, !grid_coord_floor.
  - rewrite keyed_rows_map.
    set (k := (IZR (Zfloor (x / g)) * g, IZR (Zfloor (y / g)) * g) : grid_key).
    set (l := map _ (rows df)).
    exists (grid_cell (k, members grid_key_eq_dec k l)).
    split; [|split; reflexivity].
    apply in_map, In_groupby with (a := o).
    subst l. apply in_map_iff. exists o. split.
    + now rewrite Hx, Hy, !grid_coord_floor.
    + eapply nth_error_In; eauto.
Qed.

(** C2, the example of the specification: latitude -74.005 with grid size
    0.01 is keyed to -74.01. *)
Lemma aggregate_by_grid_key_is_floor_witness :
  exists glat,
    df_grid_lat (fst (aggregate_by_grid lower_manhattan (Num (1 / 100))))
    = Some glat /\
    nth_error glat 0 = Some (Num (-7401 / 100)).
Proof.
  destruct (@aggregate_by_grid_key_is_floor lower_manhattan (1 / 100) 0%nat
              (station (Num (-74005 / 1000)) (Num (40713 / 1000)) (Num 72))
              (-74005 / 1000) (40713 / 1000))
    as (n & m & Hn & _ & (glat & glon & Hlat & _ & Hnth & _) & _);
    [lra | reflexivity | reflexivity | reflexivity |].
  exists glat. split; [exact Hlat|].
  rewrite Hnth. do 2 f_equal.
  assert (n = (-7401)%Z) as ->.
  { destruct Hn as [H1 H2].
    assert (IZR n < IZR (-7400)) by lra.
    assert (IZR (-7402) < IZR n) by lra.
    apply lt_IZR in H, H0. lia. }
  lra.
Defined.

Lemma grid_coord_at (x g k : R) (n : Z) :
  0 < g -> IZR n <= x / g < IZR n + 1 -> k = IZR n * g ->
  grid_coord (Num x) (Num g) = Num k.
Proof.
  intros Hg Hn ->. rewrite grid_coord_floor by assumption.
  now rewrite (Zfloor_eq n (x / g)).
Qed.

Lemma aggregate_by_grid_nonempty (df : DataFrame) (g : float) :
  rows df <> [] ->
  aggregate_by_grid df g
  = (set_grid df (map (fun o => grid_coord (latitude o) g) (rows df))
                 (map (fun o => grid_coord (longitude o) g) (rows df)),
     map grid_cell
         (groupby grid_key_eq_dec grid_key_leb
                  (map (fun o => (observation_key g o, o)) (rows df)))).
Proof.
  intros H. unfold aggregate_by_grid, df_empty.
  destruct (rows df) eqn:E; [congruence|].
  now rewrite keyed_rows_map.
Qed.

Lemma one_station_cells (t : float) :
  snd (aggregate_by_grid (batch [station (Num 40) (Num (-74)) t]) (Num 1))
  = [grid_cell ((40, -74), [station (Num 40) (Num (-74)) t])].
Proof.
  assert (Hlat : grid_coord (Num 40) (Num 1) = Num 40)
    by (apply grid_coord_at with (n := 40%Z); lra).
  assert (Hlon : grid_coord (Num (-74)) (Num 1) = Num (-74))
    by (apply grid_coord_at with (n := (-74)%Z); lra).
  rewrite aggregate_by_grid_nonempty by discriminate.
  unfold groupby, observation_key. simpl.
  rewrite Hlat, Hlon. simpl.
  destruct (grid_key_eq_dec (40, -74) (40, -74)) as [_|N];
    [reflexivity | congruence].
Qed.

Lemma silent_station_in_cell :
  in_cell (Num 1)
          (grid_cell ((40, -74), [station (Num 40) (Num (-74)) NaN]))
          (station (Num 40) (Num (-74)) NaN) = true.
Proof.
  assert (Hlat : grid_coord (Num 40) (Num 1) = Num 40)
    by (apply grid_coord_at with (n := 40%Z); lra).
  assert (Hlon : grid_coord (Num (-74)) (Num 1) = Num (-74))
    by (apply grid_coord_at with (n := (-74)%Z); lra).
  unfold in_cell, observation_key. simpl. rewrite Hlat, Hlon. simpl.
  destruct (grid_key_opt_eq_dec _ _) as [_|N]; [reflexivity | congruence].
Qed.

(** C3.  The count that aggregation stores in a cell is the number of
    temperature readings, not the number of observations: for the batch of
    one station whose temperature is missing, the one cell emitted has
    station_count 0 although one observation is keyed to it. *)
Theorem station_count_skips_missing_temperature :
  exists c,
    snd (aggregate_by_grid silent_station (Num 1)) = [c] /\
    GridRow.station_count c = 0%nat /\
    observations_in_cell (rows silent_station) (Num 1) c = 1%nat.
Proof.
  eexists. split; [apply one_station_cells|]. split; [reflexivity|].
  unfold observations_in_cell, silent_station, batch, rows, filter.
  now rewrite silent_station_in_cell.
Qed.

Lemma aggregate_by_grid_length (df : DataFrame) (g : float) :
  length (snd (aggregate_by_grid df g))
  = length (nodup grid_key_eq_dec
              (valid_keys (map (fun o => (observation_key g o, o)) (rows df)))).
Proof.
  destruct (rows df) eqn:E.
  - unfold aggregate_by_grid, df_empty. now rewrite E.
  - rewrite aggregate_by_grid_nonempty by congruence.
    simpl snd. now rewrite length_map, length_groupby, E.
Qed.

(** Flooring by a multiple of the grid size only needs the floor by the
    grid size: floor (x / (k s)) = floor (floor (x / s) s / (k s)). *)
Lemma Zfloor_coarsen (x s : R) (k : Z) :
  0 < s -> (0 < k)%Z ->
  Zfloor (x / (IZR k * s))
  = Zfloor (IZR (Zfloor (x / s)) * s / (IZR k * s)).
Proof.
  intros Hs Hk.
  assert (HkR : 0 < IZR k) by now apply IZR_lt.
  set (n := Zfloor (x / s)).
  set (q := Zfloor (IZR n * s / (IZR k * s))).
  pose proof (Zfloor_bound (x / s)) as [Hn1 Hn2]. fold n in Hn1, Hn2.
  pose proof (Zfloor_bound (IZR n * s / (IZR k * s))) as [Hq1 Hq2].
  fold q in Hq1, Hq2.
  replace (IZR n * s / (IZR k * s)) with (IZR n / IZR k) in Hq1, Hq2
    by (field; split; lra).
  assert (Hq1' : IZR q * IZR k <= IZR n).
  { apply Rmult_le_reg_r with (/ IZR k); [now apply Rinv_0_lt_compat|].
    rewrite Rmult_assoc, Rinv_r by lra. unfold Rdiv in Hq1. lra. }
  assert (Hq2' : IZR n < (IZR q + 1) * IZR k).
  { apply Rmult_lt_reg_r with (/ IZR k); [now apply Rinv_0_lt_compat|].
    rewrite Rmult_assoc, Rinv_r by lra. unfold Rdiv in Hq2. lra. }
  assert (Hz : (n + 1 <= (q + 1) * k)%Z).
  { rewrite <- plus_IZR, <- mult_IZR in Hq2'. apply lt_IZR in Hq2'. lia. }
  apply IZR_le in Hz. rewrite plus_IZR, mult_IZR, plus_IZR in Hz.
  apply Zfloor_eq.
  replace (x / (IZR k * s)) with (x / s * / IZR k) by (field; split; lra).
  split.
  - apply Rmult_le_reg_r with (IZR k); [assumption|].
    rewrite Rmult_assoc, Rinv_l by lra. lra.
  - apply Rmult_lt_reg_r with (IZR k); [assumption|].
    rewrite Rmult_assoc, Rinv_l by lra. lra.
Qed.

Lemma observation_key_Num (o : Observation) (x y g : R) :
  0 < g -> latitude o = Num x -> longitude o = Num y ->
  observation_key (Num g) o
  = Some (IZR (Zfloor (x / g)) * g, IZR (Zfloor (y / g)) * g).
Proof.
  intros Hg Hx Hy. unfold observation_key.
  now rewrite Hx, Hy, !grid_coord_floor.
Qed.

Lemma observation_key_NaN (o : Observation) (g : float) :
  latitude o = NaN \/ longitude o = NaN -> observation_key g o = None.
Proof.
  unfold observation_key, grid_coord, ffloordiv.
  intros [H|H]; rewrite H; simpl.
  - reflexivity.
  - now destruct (fmul _ g).
Qed.

Lemma valid_keys_coarsen (obs : list Observation) (s : R) (k : Z) :
  0 < s -> (0 < k)%Z ->
  valid_keys (map (fun o => (observation_key (Num (IZR k * s)) o, o)) obs)
  = map (coarsen (IZR k * s))
        (valid_keys (map (fun o => (observation_key (Num s) o, o)) obs)).
Proof.
  intros Hs Hk.
  assert (HkR : 0 < IZR k) by now apply IZR_lt.
  assert (Hks : 0 < IZR k * s) by now apply Rmult_lt_0_compat.
  induction obs as [|o obs IH]; [reflexivity|].
  simpl.
  destruct (latitude o) as [|x] eqn:Hx.
  { rewrite !observation_key_NaN by auto. exact IH. }
  destruct (longitude o) as [|y] eqn:Hy.
  { rewrite !observation_key_NaN by auto. exact IH. }
  rewrite (observation_key_Num o Hks Hx Hy), (observation_key_Num o Hs Hx Hy).
  simpl. rewrite IH. f_equal. unfold coarsen. simpl.
  now rewrite <- !Zfloor_coarsen.
Qed.

Lemma nodup_map_length (A B : Type)
  (decA : forall a1 a2 : A, {a1 = a2} + {a1 <> a2})
  (decB : forall b1 b2 : B, {b1 = b2} + {b1 <> b2})
  (h : A -> B) (l : list A) :
  (length (nodup decB (map h l)) <= length (nodup decA l))%nat.
Proof.
  rewrite <- (length_map h (nodup decA l)).
  apply NoDup_incl_length; [apply NoDup_nodup|].
  intros b Hb. apply nodup_In, in_map_iff in Hb as (a & <- & Ha).
  apply in_map, nodup_In, Ha.
Qed.

(** C8, as the specification states it, fails: for the stations at
    latitudes 3 and 4, grid size 3 puts both in one cell and the larger grid
    size 4 puts them in two. *)
Lemma coarser_grid_can_split_a_cell :
  length (snd (aggregate_by_grid two_latitudes (Num 3))) = 1%nat /\
  length (snd (aggregate_by_grid two_latitudes (Num 4))) = 2%nat.
Proof.
  assert (H33 : grid_coord (Num 3) (Num 3) = Num 3)
    by (apply grid_coord_at with (n := 1%Z); lra).
  assert (H43 : grid_coord (Num 4) (Num 3) = Num 3)
    by (apply grid_coord_at with (n := 1%Z); lra).
  assert (H03 : grid_coord (Num 0) (Num 3) = Num 0)
    by (apply grid_coord_at with (n := 0%Z); lra).
  assert (H34 : grid_coord (Num 3) (Num 4) = Num 0)
    by (apply grid_coord_at with (n := 0%Z); lra).
  assert (H44 : grid_coord (Num 4) (Num 4) = Num 4)
    by (apply grid_coord_at with (n := 1%Z); lra).
  assert (H04 : grid_coord (Num 0) (Num 4) = Num 0)
    by (apply grid_coord_at with (n := 0%Z); lra).
  rewrite !aggregate_by_grid_length. unfold observation_key. simpl.
  rewrite H33, H43, H03, H34, H44, H04. simpl.
  split.
  - destruct (grid_key_eq_dec (3, 0) (3, 0)) as [_|N]; [reflexivity|congruence].
  - destruct (grid_key_eq_dec (4, 0) (0, 0)) as [E|_]; [|reflexivity].
    injection E as E. lra.
Qed.

(** C8, amended.  When the larger grid size is a whole multiple of the
    smaller one, every cell of the coarse grid is a union of cells of the
    fine grid, and aggregation emits no more cells for the coarse grid than
    for the fine one. *)
Theorem cell_count_monotone_on_multiples :
  forall (df : DataFrame) (s : R) (k : nat),
    0 < s -> (0 < k)%nat ->
    (length (snd (aggregate_by_grid df (Num (INR k * s))))
     <= length (snd (aggregate_by_grid df (Num s))))%nat.
Proof.
  intros df s k Hs Hk.
  rewrite !aggregate_by_grid_length, INR_IZR_INZ.
  rewrite valid_keys_coarsen by (assumption || lia).
  apply nodup_map_length.
Qed.

Lemma cell_count_monotone_on_multiples_witness :
  (length (snd (aggregate_by_grid two_latitudes (Num (INR 2 * 3))))
   <= length (snd (aggregate_by_grid two_latitudes (Num 3))))%nat.
Proof.
  apply (@cell_count_monotone_on_multiples two_latitudes 3 2%nat); [lra | lia].
Defined.

(* ================================================================== *)
(** * Zone classification *)
(* ================================================================== *)

Lemma pd_std_insufficient (xs : list float) :
  (pd_count xs < 2)%nat -> pd_std xs = NaN.
Proof.
  unfold pd_std, pd_count. intros H.
  now apply Nat.ltb_lt in H as ->.
Qed.

Lemma zone_bins_nan_std (m : float) :
  increasing (zone_bins m NaN) = false.
Proof. now destruct m. Qed.

Lemma zone_bins_nan_mean (s : float) :
  increasing (zone_bins NaN s) = false.
Proof. reflexivity. Qed.

Lemma zone_bins_increasing (m s : R) :
  increasing (zone_bins (Num m) (Num s)) = true -> m - s < m + s.
Proof.
  simpl. destruct (Rlt_dec (m - s) (m + s)); [auto | discriminate].
Qed.

Lemma create_weather_zones_nonempty (df : DataFrame) (t : float) :
  rows df <> [] ->
  create_weather_zones df t
  = match pd_cut (col temperature df)
                 (zone_bins (pd_mean (col temperature df))
                            (pd_std (col temperature df)))
                 zone_labels with
    | Raise e => (df, Raise e)
    | Ok tz =>
        (set_temp_zone df tz,
         Ok (map zone_row
                 (groupby zone_label_eq_dec zone_label_leb
                          (combine tz (rows df)))))
    end.
Proof.
  intros H. unfold create_weather_zones, df_empty.
  destruct (rows df); [congruence | reflexivity].
Qed.

(** C1, as the specification states it, fails: on the empty batch zone
    classification returns an empty table, it raises nothing. *)
Lemma create_weather_zones_empty_batch_returns :
  create_weather_zones empty_batch (Num 5) = (empty_batch, Ok []).
Proof. reflexivity. Qed.

(** C1, amended.  With fewer than 2 non-missing temperatures zone
    classification returns the empty table when the batch is empty, and
    otherwise fails with the ValueError of the binning step (the standard
    deviation is missing, so the bin edges are unusable); the frame is left
    as it was in both cases. *)
Theorem create_weather_zones_insufficient_data :
  forall (df : DataFrame) (t : float),
    (pd_count (col temperature df) < 2)%nat ->
    (rows df = [] -> create_weather_zones df t = (df, Ok [])) /\
    (rows df <> [] -> create_weather_zones df t = (df, Raise ValueError)).
Proof.
  intros df t Hc. split; intros Hr.
  - unfold create_weather_zones, df_empty. now rewrite Hr.
  - rewrite create_weather_zones_nonempty by assumption.
    unfold pd_cut.
    now rewrite (pd_std_insufficient _ Hc), zone_bins_nan_std.
Qed.

Lemma create_weather_zones_insufficient_data_witness :
  create_weather_zones single_station (Num 5)
  = (single_station, Raise ValueError).
Proof.
  apply (@create_weather_zones_insufficient_data single_station (Num 5)).
  - unfold pd_count, col, single_station, batch. simpl. lia.
  - discriminate.
Defined.

(** The three intervals of [pd.cut] over the zone bins are right-closed:
    (-inf, lo], (lo, hi], (hi, +inf). *)
Lemma find_bin_zone (x m s : R) :
  m - s < m + s ->
  find_bin x (zone_bins (Num m) (Num s)) zone_labels
  = Some (if Rle_dec x (m - s) then Cold_Zone
          else if Rle_dec x (m + s) then Moderate_Zone
          else Warm_Zone).
Proof.
  intros H. unfold zone_bins, zone_labels, find_bin, above_edge, upto_edge,
    edge_ltb, fsub, fadd, Rleb.
  destruct (Rle_dec x (m - s)), (Rle_dec x (m + s)),
    (Rlt_dec (m - s) x), (Rlt_dec (m + s) x);
    simpl; try reflexivity; lra.
Qed.

Lemma create_weather_zones_Ok_inv (df : DataFrame) (t : float)
  (zones : list ZoneRow.t) :
  rows df <> [] ->
  snd (create_weather_zones df t) = Ok zones ->
  exists m s,
    pd_mean (col temperature df) = Num m /\
    pd_std (col temperature df) = Num s /\
    m - s < m + s /\
    fst (create_weather_zones df t)
    = set_temp_zone df
        (map (fun a => match a with
                       | NaN => None
                       | Num x =>
                           find_bin x (zone_bins (Num m) (Num s)) zone_labels
                       end) (col temperature df)).
Proof.
  intros Hr. rewrite create_weather_zones_nonempty by assumption.
  unfold pd_cut.
  destruct (pd_mean (col temperature df)) as [|m].
  { rewrite zone_bins_nan_mean. discriminate. }
  destruct (pd_std (col temperature df)) as [|s].
  { rewrite zone_bins_nan_std. discriminate. }
  destruct (increasing (zone_bins (Num m) (Num s))) eqn:E; [|discriminate].
  intros _. exists m, s. repeat split. now apply zone_bins_increasing.
Qed.

Lemma three_stations_mean :
  pd_mean (col temperature three_stations) = Num 70.
Proof. unfold pd_mean. simpl. f_equal. lra. Qed.

Lemma three_stations_std :
  pd_std (col temperature three_stations) = Num 10.
Proof.
  unfold pd_std. simpl. f_equal.
  replace (_ / _) with (10 * 10) by lra.
  apply sqrt_square. lra.
Qed.

Lemma three_stations_zones :
  create_weather_zones three_stations (Num 5)
  = (set_temp_zone three_stations
       [Some Cold_Zone; Some Moderate_Zone; Some Moderate_Zone],
     Ok (map zone_row
             (groupby zone_label_eq_dec zone_label_leb
                (combine [Some Cold_Zone; Some Moderate_Zone;
                          Some Moderate_Zone]
                         (rows three_stations))))).
Proof.
  rewrite create_weather_zones_nonempty by discriminate.
  rewrite three_stations_mean, three_stations_std.
  unfold pd_cut.
  assert (H : 70 - 10 < 70 + 10) by lra.
  assert (Hinc : increasing (zone_bins (Num 70) (Num 10)) = true).
  { simpl. destruct (Rlt_dec (70 - 10) (70 + 10)); [reflexivity | lra]. }
  rewrite Hinc. unfold col, three_stations, batch, rows, map, station,
    temperature.
  rewrite !find_bin_zone by assumption.
  destruct (Rle_dec 60 (70 - 10)); [|lra].
  destruct (Rle_dec 70 (70 - 10)); [lra|].
  destruct (Rle_dec 70 (70 + 10)); [|lra].
  destruct (Rle_dec 80 (70 - 10)); [lra|].
  destruct (Rle_dec 80 (70 + 10)); [|lra].
  reflexivity.
Qed.

(** C4, as the specification states it, fails at the lower endpoint: with
    temperatures 60, 70, 80 the mean is 70 and the standard deviation 10, and
    the observation at 60 = mean - std, which lies in the closed interval,
    is assigned Cold. *)
Lemma lower_threshold_is_cold :
  exists m s x tz,
    pd_mean (col temperature three_stations) = Num m /\
    pd_std (col temperature three_stations) = Num s /\
    nth_error (col temperature three_stations) 0 = Some (Num x) /\
    m - s <= x <= m + s /\
    df_temp_zone (fst (create_weather_zones three_stations (Num 5))) = Some tz /\
    nth_error tz 0 = Some (Some Cold_Zone).
Proof.
  exists 70, 10, 60, [Some Cold_Zone; Some Moderate_Zone; Some Moderate_Zone].
  split; [apply three_stations_mean|].
  split; [apply three_stations_std|].
  split; [reflexivity|]. split; [lra|].
  rewrite three_stations_zones. split; reflexivity.
Qed.

(** C4, amended.  When zone classification succeeds, an observation with
    temperature at most mean - std is assigned Cold, one with temperature
    above mean - std and at most mean + std is assigned Moderate, and one
    with temperature above mean + std is assigned Warm: the two thresholds
    belong to the zone below them. *)
Theorem create_weather_zones_intervals :
  forall (df : DataFrame) (t : float) (zones : list ZoneRow.t)
         (i : nat) (o : Observation) (x : R),
    snd (create_weather_zones df t) = Ok zones ->
    nth_error (rows df) i = Some o ->
    temperature o = Num x ->
    exists m s tz,
      pd_mean (col temperature df) = Num m /\
      pd_std (col temperature df) = Num s /\
      df_temp_zone (fst (create_weather_zones df t)) = Some tz /\
      (x <= m - s -> nth_error tz i = Some (Some Cold_Zone)) /\
      (m - s < x <= m + s -> nth_error tz i = Some (Some Moderate_Zone)) /\
      (m + s < x -> nth_error tz i = Some (Some Warm_Zone)).
Proof.
  intros df t zones i o x Hok Hi Hx.
  assert (Hr : rows df <> []).
  { intros E. rewrite E in Hi. destruct i; discriminate. }
  destruct (create_weather_zones_Ok_inv df t Hr Hok)
    as (m & s & Hm & Hs & Hlt & Hfst).
  exists m, s. eexists. split; [exact Hm|]. split; [exact Hs|].
  rewrite Hfst. split; [reflexivity|].
  unfold col. rewrite !nth_error_map, Hi. cbn [option_map]. rewrite Hx.
  rewrite find_bin_zone by assumption.
  repeat split; intros H;
    destruct (Rle_dec x (m - s)), (Rle_dec x (m + s));
    try reflexivity; lra.
Qed.

Lemma create_weather_zones_intervals_witness :
  exists tz,
    df_temp_zone (fst (create_weather_zones three_stations (Num 5))) = Some tz /\
    nth_error tz 2 = Some (Some Moderate_Zone).
Proof.
  destruct (@create_weather_zones_intervals three_stations (Num 5)
              (map zone_row
                 (groupby zone_label_eq_dec zone_label_leb
                    (combine [Some Cold_Zone; Some Moderate_Zone;
                              Some Moderate_Zone]
                             (rows three_stations))))
              2%nat (station (Num 42) (Num (-74)) (Num 80)) 80)
    as (m & s & tz & Hm & Hs & Htz & _ & Hmod & _).
  - now rewrite three_stations_zones.
  - reflexivity.
  - reflexivity.
  - exists tz. split; [exact Htz|]. apply Hmod.
    rewrite three_stations_mean in Hm. rewrite three_stations_std in Hs.
    injection Hm as <-. injection Hs as <-. lra.
Defined.

Lemma sqrt_between (a b x : R) :
  0 <= a -> 0 <= b -> a * a < x -> x < b * b -> a < sqrt x < b.
Proof.
  intros Ha Hb Hax Hxb.
  assert (Haa : 0 <= a * a) by nra.
  split.
  - rewrite <- (sqrt_square a Ha). apply sqrt_lt_1; lra.
  - rewrite <- (sqrt_square b Hb). apply sqrt_lt_1; nra.
Qed.

Lemma five_stations_mean :
  pd_mean (col temperature five_stations) = Num 30.
Proof. unfold pd_mean. simpl. f_equal. lra. Qed.

Lemma five_stations_std :
  pd_std (col temperature five_stations) = Num (sqrt 250).
Proof. unfold pd_std. simpl. do 2 f_equal. lra. Qed.

Lemma sqrt_250 : 1581 / 100 < sqrt 250 < 1582 / 100.
Proof. apply sqrt_between; lra. Qed.

Lemma five_stations_zones :
  create_weather_zones five_stations (Num 5)
  = (set_temp_zone five_stations
       [Some Cold_Zone; Some Moderate_Zone; Some Moderate_Zone;
        Some Moderate_Zone; Some Warm_Zone],
     Ok (map zone_row
             (groupby zone_label_eq_dec zone_label_leb
                (combine [Some Cold_Zone; Some Moderate_Zone;
                          Some Moderate_Zone; Some Moderate_Zone;
                          Some Warm_Zone]
                         (rows five_stations))))).
Proof.
  rewrite create_weather_zones_nonempty by discriminate.
  rewrite five_stations_mean, five_stations_std.
  pose proof sqrt_250 as [Hlo Hhi].
  unfold pd_cut.
  assert (H : 30 - sqrt 250 < 30 + sqrt 250) by lra.
  assert (Hinc : increasing (zone_bins (Num 30) (Num (sqrt 250))) = true).
  { simpl. destruct (Rlt_dec (30 - sqrt 250) (30 + sqrt 250));
      [reflexivity | lra]. }
  rewrite Hinc. unfold col, five_stations, batch, rows, map, station,
    temperature.
  rewrite !find_bin_zone by assumption.
  destruct (Rle_dec 10 (30 - sqrt 250)); [|lra].
  destruct (Rle_dec 20 (30 - sqrt 250)); [lra|].
  destruct (Rle_dec 20 (30 + sqrt 250)); [|lra].
  destruct (Rle_dec 30 (30 - sqrt 250)); [lra|].
  destruct (Rle_dec 30 (30 + sqrt 250)); [|lra].
  destruct (Rle_dec 40 (30 - sqrt 250)); [lra|].
  destruct (Rle_dec 40 (30 + sqrt 250)); [|lra].
  destruct (Rle_dec 50 (30 - sqrt 250)); [lra|].
  destruct (Rle_dec 50 (30 + sqrt 250)); [lra|].
  reflexivity.
Qed.

(** C5, as the specification states it, fails in its figures: for the
    temperatures 10, 20, 30, 40, 50 the standard deviation the code computes
    is above 15.8 (not about 14.14), and the thresholds are below 14.2 and
    above 45.8 (not about 15.86 and 44.14). *)
Lemma five_stations_thresholds :
  exists m s,
    pd_mean (col temperature five_stations) = Num m /\
    pd_std (col temperature five_stations) = Num s /\
    158 / 10 < s /\
    m - s < 142 / 10 /\
    458 / 10 < m + s.
Proof.
  exists 30, (sqrt 250). pose proof sqrt_250.
  split; [apply five_stations_mean|].
  split; [apply five_stations_std|]. lra.
Qed.

(** C5, amended.  For the temperatures 10, 20, 30, 40, 50 the mean is 30,
    the (sample) standard deviation is about 15.81, the thresholds are
    about 14.19 and 45.81, and zone classification assigns 10 to Cold,
    20, 30 and 40 to Moderate, and 50 to Warm; the zone table counts
    1, 3 and 1 stations. *)
Theorem five_stations_classification :
  exists s zones,
    pd_mean (col temperature five_stations) = Num 30 /\
    pd_std (col temperature five_stations) = Num s /\
    1581 / 100 < s < 1582 / 100 /\
    1418 / 100 < 30 - s < 1419 / 100 /\
    4581 / 100 < 30 + s < 4582 / 100 /\
    df_temp_zone (fst (create_weather_zones five_stations (Num 5)))
    = Some [Some Cold_Zone; Some Moderate_Zone; Some Moderate_Zone;
            Some Moderate_Zone; Some Warm_Zone] /\
    snd (create_weather_zones five_stations (Num 5)) = Ok zones /\
    map (fun z => (ZoneRow.zone z, ZoneRow.station_count z)) zones
    = [(Cold_Zone, 1%nat); (Moderate_Zone, 3%nat); (Warm_Zone, 1%nat)].
Proof.
  pose proof sqrt_250.
  exists (sqrt 250). eexists.
  split; [apply five_stations_mean|].
  split; [apply five_stations_std|].
  split; [assumption|]. split; [lra|]. split; [lra|].
  rewrite five_stations_zones. split; [reflexivity|].
  split; [reflexivity|].
  rewrite map_map. reflexivity.
Qed.

(* ================================================================== *)
(** * Gradient estimation *)
(* ================================================================== *)

Lemma mapM_total (A B : Type) (f : A -> result B) (l : list A) :
  (forall a, exists b, f a = Ok b) ->
  exists bs, mapM f l = Ok bs /\ length bs = length l.
Proof.
  intros Hf. induction l as [|a l (bs & IH & Hlen)]; simpl.
  - now exists [].
  - destruct (Hf a) as (b & ->). rewrite IH. simpl.
    exists (b :: bs). now rewrite <- Hlen.
Qed.

Lemma mapM_nth_error (A B : Type) (f : A -> result B) (l : list A)
  (bs : list B) (i : nat) (a : A) :
  mapM f l = Ok bs -> nth_error l i = Some a ->
  exists b, f a = Ok b /\ nth_error bs i = Some b.
Proof.
  revert bs i. induction l as [|a0 l IH]; intros bs i; simpl.
  - destruct i; discriminate.
  - destruct (f a0) as [b0|] eqn:E0; [|discriminate]. simpl.
    destruct (mapM f l) as [bs'|] eqn:E; [|discriminate]. simpl.
    intros [= <-]. destruct i as [|i]; simpl.
    + intros [= <-]. eauto.
    + intros Hi. now apply IH.
Qed.

(** The guard of [gradient] keeps every zero divisor away from the
    division. *)
Lemma gradient_total (temp_diff distance : float) :
  exists g, gradient temp_diff distance = Ok g.
Proof.
  unfold gradient, fgtb, fdiv.
  destruct distance as [|d]; [eauto|].
  destruct (Rlt_dec 0 d) as [Hd|Hd]; [|eauto].
  destruct (Req_dec_T d 0); [lra|]. destruct temp_diff; eauto.
Qed.

Lemma gradient_zero_distance (temp_diff : float) :
  gradient temp_diff (Num 0) = Ok (Num 0).
Proof.
  unfold gradient, fgtb. destruct (Rlt_dec 0 0); [lra | reflexivity].
Qed.

Lemma gradient_missing_temperature (d : R) :
  0 < d -> gradient NaN (Num d) = Ok NaN.
Proof.
  intros Hd. unfold gradient, fgtb, fdiv.
  destruct (Rlt_dec 0 d); [|lra]. destruct (Req_dec_T d 0); [lra|reflexivity].
Qed.

Lemma temp_gradient_total (df : DataFrame) (distances : list (list float))
  (i : nat) :
  exists g, temp_gradient df distances i = Ok g.
Proof.
  unfold temp_gradient.
  destruct (0 <? length (nearest_indices distances i))%nat;
    [apply gradient_total | eauto].
Qed.

Lemma calculate_weather_gradients_small (df : DataFrame) :
  (length (rows df) < 2)%nat -> calculate_weather_gradients df = Ok df.
Proof.
  intros H. unfold calculate_weather_gradients.
  apply Nat.ltb_lt in H as ->. now rewrite orb_true_r.
Qed.

Lemma calculate_weather_gradients_large (df : DataFrame) :
  (2 <= length (rows df))%nat ->
  calculate_weather_gradients df
  = (temp_gradients <-
       mapM (temp_gradient df (cdist (rows df))) (seq 0 (length (rows df))) ;;
     Ok (set_temperature_gradient df temp_gradients)).
Proof.
  intros H. unfold calculate_weather_gradients, df_empty.
  destruct (rows df) as [|o l] eqn:E; [simpl in H; lia|].
  destruct (Nat.ltb_spec (length (o :: l)) 2); [lia | reflexivity].
Qed.

(** Gradient estimation never fails, and on two or more rows it hands back
    the frame with one gradient per row. *)
Lemma calculate_weather_gradients_total (df : DataFrame) :
  exists df',
    calculate_weather_gradients df = Ok df' /\
    ((length (rows df) < 2)%nat -> df' = df) /\
    ((2 <= length (rows df))%nat ->
     exists gs,
       mapM (temp_gradient df (cdist (rows df))) (seq 0 (length (rows df)))
       = Ok gs /\
       length gs = length (rows df) /\
       df' = set_temperature_gradient df gs).
Proof.
  destruct (Nat.lt_ge_cases (length (rows df)) 2) as [H|H].
  - exists df. split; [now apply calculate_weather_gradients_small|].
    split; [reflexivity | lia].
  - destruct (mapM_total (temp_gradient df (cdist (rows df)))
                (seq 0 (length (rows df))) (temp_gradient_total df _))
      as (gs & Hgs & Hlen).
    exists (set_temperature_gradient df gs).
    rewrite calculate_weather_gradients_large, Hgs by assumption.
    split; [reflexivity|]. split; [lia|].
    intros _. exists gs. now rewrite Hlen, length_seq.
Qed.

(** C6, as the specification states it, fails: for a batch of one
    observation gradient estimation hands the frame back as it was, and the
    frame has no temperature_gradient column, so no gradient 0 either. *)
Lemma single_station_has_no_gradient :
  calculate_weather_gradients single_station = Ok single_station /\
  df_temperature_gradient single_station = None.
Proof. split; reflexivity. Qed.

(** C6, amended.  For a batch of exactly one observation gradient
    estimation returns the batch unchanged: no temperature_gradient column
    is added. *)
Theorem calculate_weather_gradients_single :
  forall df : DataFrame,
    length (rows df) = 1%nat ->
    calculate_weather_gradients df = Ok df.
Proof.
  intros df H. apply calculate_weather_gradients_small. lia.
Qed.

Lemma calculate_weather_gradients_single_witness :
  calculate_weather_gradients single_station = Ok single_station.
Proof.
  apply (calculate_weather_gradients_single single_station). reflexivity.
Defined.

Lemma seq_nth_error (n i : nat) :
  (i < n)%nat -> nth_error (seq 0 n) i = Some i.
Proof.
  intros H. rewrite nth_error_nth' with (d := 0%nat) by now rewrite length_seq.
  now rewrite seq_nth.
Qed.

Lemma gradient_column_at (df df' : DataFrame) (i : nat) :
  (2 <= length (rows df))%nat ->
  (i < length (rows df))%nat ->
  calculate_weather_gradients df = Ok df' ->
  exists gs g,
    df_temperature_gradient df' = Some gs /\
    nth_error gs i = Some g /\
    temp_gradient df (cdist (rows df)) i = Ok g.
Proof.
  intros Hn Hi Hcall.
  destruct (calculate_weather_gradients_total df)
    as (df0 & Hcall0 & _ & Hlarge).
  rewrite Hcall in Hcall0. injection Hcall0 as <-.
  destruct (Hlarge Hn) as (gs & Hgs & _ & ->).
  destruct (mapM_nth_error _ _ i Hgs (seq_nth_error Hi)) as (g & Hg & Hnth).
  now exists gs, g.
Qed.

(** C7.  Gradient estimation never divides by a zero mean distance: it
    always returns, and on a batch of two or more observations every
    observation whose mean distance to its selected neighbours is exactly 0
    gets the gradient 0, whatever the temperatures are. *)
Theorem zero_distance_gradient_is_zero :
  forall df : DataFrame,
  exists df',
    calculate_weather_gradients df = Ok df' /\
    forall i : nat,
      (2 <= length (rows df))%nat ->
      (i < length (rows df))%nat ->
      neighbor_distance (cdist (rows df)) i = Num 0 ->
      exists gs,
        df_temperature_gradient df' = Some gs /\
        nth_error gs i = Some (Num 0).
Proof.
  intros df.
  destruct (calculate_weather_gradients_total df) as (df' & Hcall & _).
  exists df'. split; [exact Hcall|].
  intros i Hn Hi Hd.
  destruct (@gradient_column_at df df' i Hn Hi Hcall) as (gs & g & Hcol & Hnth & Hg).
  exists gs. split; [exact Hcol|]. rewrite Hnth. f_equal.
  unfold temp_gradient in Hg. rewrite Hd, gradient_zero_distance in Hg.
  destruct (0 <? _)%nat; congruence.
Qed.

(** C10.  On a batch of two or more observations, an observation whose own
    temperature is missing and whose mean distance to its selected
    neighbours is positive gets a missing gradient, not 0. *)
Theorem missing_temperature_gradient_is_missing :
  forall (df : DataFrame) (i : nat) (o : Observation) (d : R),
    (2 <= length (rows df))%nat ->
    nth_error (rows df) i = Some o ->
    temperature o = NaN ->
    neighbor_distance (cdist (rows df)) i = Num d ->
    0 < d ->
    exists df' gs,
      calculate_weather_gradients df = Ok df' /\
      df_temperature_gradient df' = Some gs /\
      nth_error gs i = Some NaN.
Proof.
  intros df i o d Hn Hi Ht Hd Hpos.
  assert (Hlt : (i < length (rows df))%nat)
    by (apply nth_error_Some; congruence).
  destruct (calculate_weather_gradients_total df) as (df' & Hcall & _).
  destruct (@gradient_column_at df df' i Hn Hlt Hcall) as (gs & g & Hcol & Hnth & Hg).
  exists df', gs. split; [exact Hcall|]. split; [exact Hcol|].
  rewrite Hnth. f_equal.
  unfold temp_gradient in Hg.
  destruct (nearest_indices (cdist (rows df)) i) as [|j js] eqn:Enear.
  - unfold neighbor_distance in Hd. rewrite Enear in Hd. discriminate.
  - simpl in Hg.
    assert (Hti : nth i (col temperature df) NaN = NaN).
    { unfold col. erewrite nth_error_nth;
        [| rewrite nth_error_map, Hi; reflexivity]. exact Ht. }
    rewrite Hti, Hd in Hg. simpl fsub in Hg.
    rewrite gradient_missing_temperature in Hg by assumption. congruence.
Qed.

Lemma euclidean_same_place (lat lon : R) (t1 t2 : float) :
  euclidean (station (Num lat) (Num lon) t1) (station (Num lat) (Num lon) t2)
  = Num 0.
Proof.
  unfold euclidean, station, fsqrt. simpl.
  destruct (Rlt_dec _ 0) as [H|_]; [nra|].
  f_equal. rewrite <- sqrt_0. f_equal. lra.
Qed.

Lemma euclidean_one_degree_north (lat lon : R) (t1 t2 : float) :
  euclidean (station (Num lat) (Num lon) t1)
            (station (Num (lat + 1)) (Num lon) t2) = Num 1.
Proof.
  unfold euclidean, station, fsqrt. simpl.
  destruct (Rlt_dec _ 0) as [H|_]; [nra|].
  f_equal. transitivity (sqrt 1); [f_equal; ring | apply sqrt_1].
Qed.

Lemma coincident_stations_distance :
  neighbor_distance (cdist (rows coincident_stations)) 0 = Num 0.
Proof.
  unfold coincident_stations, batch, rows, cdist, map.
  rewrite !euclidean_same_place.
  unfold neighbor_distance, nearest_indices, argsort. simpl.
  unfold Rleb. destruct (Rle_dec 0 0); [|lra].
  unfold np_mean. simpl. f_equal. lra.
Qed.

Lemma missing_then_present_distance :
  neighbor_distance (cdist (rows missing_then_present)) 0 = Num 1.
Proof.
  unfold missing_then_present, batch, rows, cdist, map.
  rewrite euclidean_same_place.
  replace 41 with (40 + 1) by lra.
  rewrite euclidean_one_degree_north.
  unfold neighbor_distance, nearest_indices, argsort. simpl.
  unfold Rleb. destruct (Rle_dec 0 1); [|lra].
  unfold np_mean. simpl. f_equal. lra.
Qed.

(** C7 on two stations at one place with temperatures 60 and 80: the
    gradient of the first is 0. *)
Lemma zero_distance_gradient_is_zero_witness :
  exists df' gs,
    calculate_weather_gradients coincident_stations = Ok df' /\
    df_temperature_gradient df' = Some gs /\
    nth_error gs 0 = Some (Num 0).
Proof.
  destruct (zero_distance_gradient_is_zero coincident_stations)
    as (df' & Hcall & H).
  destruct (H 0%nat) as (gs & Hcol & Hnth).
  - simpl. lia.
  - simpl. lia.
  - exact coincident_stations_distance.
  - now exists df', gs.
Defined.

(** C10 on two stations one degree apart, the first without a
    temperature. *)
Lemma missing_temperature_gradient_is_missing_witness :
  exists df' gs,
    calculate_weather_gradients missing_then_present = Ok df' /\
    df_temperature_gradient df' = Some gs /\
    nth_error gs 0 = Some NaN.
Proof.
  apply (@missing_temperature_gradient_is_missing missing_then_present 0%nat
           (station (Num 40) (Num (-74)) NaN) 1).
  - simpl. lia.
  - reflexivity.
  - reflexivity.
  - exact missing_then_present_distance.
  - lra.
Defined.

(* ================================================================== *)
(** * What the calls do to the frame they are given *)
(* ================================================================== *)

(** C9, as the specification states it, fails: aggregation changes its
    input.  The frame the caller holds at reference 0 has no grid_lat
    column before the call and has one after it. *)
Lemma aggregate_by_grid_adds_columns :
  exists h1 gdf df1,
    load [single_station] 0%nat = Some single_station /\
    df_grid_lat single_station = None /\
    call_aggregate_by_grid [single_station] 0%nat (Num 1) = Some (h1, gdf) /\
    load h1 0%nat = Some df1 /\
    df_grid_lat df1 = Some [Num 40].
Proof.
  assert (H : df_grid_lat (fst (aggregate_by_grid single_station (Num 1)))
              = Some [Num 40]).
  { rewrite aggregate_by_grid_nonempty by discriminate. simpl.
    do 2 f_equal. apply grid_coord_at with (n := 40%Z); lra. }
  destruct (aggregate_by_grid single_station (Num 1)) as [df1 gdf] eqn:E.
  exists [df1], gdf, df1.
  split; [reflexivity|]. split; [reflexivity|]. split.
  - unfold call_aggregate_by_grid.
    change (load [single_station] 0%nat) with (Some single_station).
    cbv beta iota. now rewrite E.
  - split; [reflexivity | exact H].
Qed.

(** What each method does to the frame it works on. *)
Lemma frame_after_call :
  forall (df : DataFrame) (g t : float),
    (rows (fst (aggregate_by_grid df g)) = rows df /\
     df_temp_zone (fst (aggregate_by_grid df g)) = df_temp_zone df /\
     df_temperature_gradient (fst (aggregate_by_grid df g))
     = df_temperature_gradient df /\
     (rows df <> [] ->
      df_grid_lat (fst (aggregate_by_grid df g))
      = Some (map (fun o => grid_coord (latitude o) g) (rows df)) /\
      df_grid_lon (fst (aggregate_by_grid df g))
      = Some (map (fun o => grid_coord (longitude o) g) (rows df)))) /\
    (rows (fst (create_weather_zones df t)) = rows df /\
     df_grid_lat (fst (create_weather_zones df t)) = df_grid_lat df /\
     df_grid_lon (fst (create_weather_zones df t)) = df_grid_lon df /\
     df_temperature_gradient (fst (create_weather_zones df t))
     = df_temperature_gradient df /\
     (forall zones,
         rows df <> [] ->
         snd (create_weather_zones df t) = Ok zones ->
         exists tz,
           df_temp_zone (fst (create_weather_zones df t)) = Some tz /\
           length tz = length (rows df))) /\
    (exists df',
        calculate_weather_gradients df = Ok df' /\
        rows df' = rows df /\
        df_grid_lat df' = df_grid_lat df /\
        df_grid_lon df' = df_grid_lon df /\
        df_temp_zone df' = df_temp_zone df /\
        ((2 <= length (rows df))%nat ->
         exists gs,
           df_temperature_gradient df' = Some gs /\
           length gs = length (rows df))).
Proof.
  intros df g t.
  assert (Hcase : rows df = [] \/ rows df <> [])
    by (destruct (rows df); [left | right]; congruence).
  split; [|split].
  - destruct Hcase as [E|Hr].
    + unfold aggregate_by_grid, df_empty. rewrite E. simpl.
      repeat split; congruence.
    + rewrite aggregate_by_grid_nonempty by assumption. simpl.
      repeat split.
  - destruct Hcase as [E|Hr].
    + unfold create_weather_zones, df_empty. rewrite E. simpl.
      repeat split; congruence.
    + split; [|split; [|split; [|split]]];
        try (rewrite create_weather_zones_nonempty by assumption;
             destruct (pd_cut _ _ _); reflexivity).
      intros zones _ Hok.
      destruct (create_weather_zones_Ok_inv df t Hr Hok)
        as (m & s & _ & _ & _ & ->).
      eexists. split; [reflexivity|].
      unfold col. now rewrite !length_map.
  - destruct (calculate_weather_gradients_total df)
      as (df' & Hcall & Hsmall & Hlarge).
    exists df'. split; [exact Hcall|].
    destruct (Nat.lt_ge_cases (length (rows df)) 2) as [H|H].
    + rewrite (Hsmall H). repeat split. lia.
    + destruct (Hlarge H) as (gs & _ & Hlen & ->). simpl.
      repeat split. intros _. now exists gs.
Qed.

Lemma load_store_same (h : heap) (r : ref) (df df' : DataFrame) :
  load h r = Some df -> load (store h r df') r = Some df'.
Proof.
  unfold load. revert r. induction h as [|d h IH]; intros [|r]; simpl;
    try discriminate; auto.
Qed.

Lemma load_store_other (h : heap) (r r' : ref) (df' : DataFrame) :
  r' <> r -> load (store h r df') r' = load h r'.
Proof.
  unfold load. revert r r'.
  induction h as [|d h IH]; intros [|r] [|r'] H; simpl;
    try reflexivity; try congruence.
  apply IH. congruence.
Qed.

(** C9, amended.  A call of one of the three operations on the frame at
    reference [r] leaves every other frame alone, and leaves the rows of
    that frame and the columns it does not assign as they were; but it
    assigns columns to that frame, the caller's own: grid_lat and grid_lon
    (aggregation of a non-empty batch), temp_zone (a zone classification
    that succeeds), temperature_gradient (gradient estimation on two or
    more rows).  Gradient estimation returns the reference it was given,
    not a new frame. *)
Theorem operations_assign_columns_in_place :
  forall (h : heap) (r : ref) (df : DataFrame) (g t : float),
    load h r = Some df ->
    (exists h1 df1 gdf,
        call_aggregate_by_grid h r g = Some (h1, gdf) /\
        load h1 r = Some df1 /\
        (forall r', r' <> r -> load h1 r' = load h r') /\
        rows df1 = rows df /\
        df_temp_zone df1 = df_temp_zone df /\
        df_temperature_gradient df1 = df_temperature_gradient df /\
        (rows df <> [] ->
         df_grid_lat df1
         = Some (map (fun o => grid_coord (latitude o) g) (rows df)) /\
         df_grid_lon df1
         = Some (map (fun o => grid_coord (longitude o) g) (rows df)))) /\
    (exists h2 df2 res,
        call_create_weather_zones h r t = Some (h2, res) /\
        load h2 r = Some df2 /\
        (forall r', r' <> r -> load h2 r' = load h r') /\
        rows df2 = rows df /\
        df_grid_lat df2 = df_grid_lat df /\
        df_grid_lon df2 = df_grid_lon df /\
        df_temperature_gradient df2 = df_temperature_gradient df /\
        (forall zones,
            rows df <> [] -> res = Ok zones ->
            exists tz,
              df_temp_zone df2 = Some tz /\ length tz = length (rows df))) /\
    (exists h3 df3,
        call_calculate_weather_gradients h r = Some (h3, Ok r) /\
        load h3 r = Some df3 /\
        (forall r', r' <> r -> load h3 r' = load h r') /\
        rows df3 = rows df /\
        df_grid_lat df3 = df_grid_lat df /\
        df_grid_lon df3 = df_grid_lon df /\
        df_temp_zone df3 = df_temp_zone df /\
        ((2 <= length (rows df))%nat ->
         exists gs,
           df_temperature_gradient df3 = Some gs /\
           length gs = length (rows df))).
Proof.
  intros h r df g t Hload.
  destruct (frame_after_call df g t)
    as ((A1 & A2 & A3 & A4)
        & (Z1 & Z2 & Z3 & Z4 & Z5)
        & (df3 & Hcall & G1 & G2 & G3 & G4 & G5)).
  split; [|split].
  - unfold call_aggregate_by_grid. rewrite Hload.
    destruct (aggregate_by_grid df g) as [df1 gdf]. simpl in *.
    exists (store h r df1), df1, gdf.
    split; [reflexivity|].
    split; [eapply load_store_same; eauto|].
    split; [intros r' Hr'; now apply load_store_other|].
    repeat split; try assumption; now apply A4.
  - unfold call_create_weather_zones. rewrite Hload.
    destruct (create_weather_zones df t) as [df2 res]. simpl in *.
    exists (store h r df2), df2, res.
    split; [reflexivity|].
    split; [eapply load_store_same; eauto|].
    split; [intros r' Hr'; now apply load_store_other|].
    repeat split; try assumption.
  - unfold call_calculate_weather_gradients. rewrite Hload, Hcall.
    exists (store h r df3), df3.
    split; [reflexivity|].
    split; [eapply load_store_same; eauto|].
    split; [intros r' Hr'; now apply load_store_other|].
    repeat split; assumption.
Qed.

(** C9 on a heap whose only frame has three stations: gradient estimation
    returns reference 0, and the frame at reference 0 has gained a
    temperature_gradient column of length 3. *)
Lemma operations_assign_columns_in_place_witness :
  exists h3 df3 gs,
    call_calculate_weather_gradients [three_stations] 0%nat
    = Some (h3, Ok 0%nat) /\
    load h3 0%nat = Some df3 /\
    rows df3 = rows three_stations /\
    df_temperature_gradient df3 = Some gs /\
    length gs = 3%nat.
Proof.
  destruct (@operations_assign_columns_in_place
              [three_stations] 0%nat three_stations (Num 1) (Num 5) eq_refl)
    as (_ & _ & h3 & df3 & Hcall & Hl & _ & Hrows & _ & _ & _ & Hcol).
  destruct Hcol as (gs & Hgs & Hlen); [simpl; lia|].
  now exists h3, df3, gs.
Defined.

(* ================================================================== *)
(** * What station_count counts *)
(* ================================================================== *)

Lemma members_filter (g : float) (k : grid_key) (obs : list Observation) :
  members grid_key_eq_dec k (map (fun o => (observation_key g o, o)) obs)
  = filter (fun o => if grid_key_opt_eq_dec (observation_key g o) (Some k)
                     then true else false) obs.
Proof.
  induction obs as [|o obs IH]; [reflexivity|]. simpl.
  destruct (observation_key g o) as [k'|].
  - destruct (grid_key_eq_dec k k'), (grid_key_opt_eq_dec (Some k') (Some k));
      try congruence; now rewrite IH.
  - destruct (grid_key_opt_eq_dec None (Some k)); [discriminate | exact IH].
Qed.

Lemma pd_count_temperature (obs : list Observation) :
  pd_count (map temperature obs)
  = length (filter (fun o => negb (is_nan (temperature o))) obs).
Proof.
  unfold pd_count. induction obs as [|o obs IH]; [reflexivity|]. simpl.
  destruct (temperature o); simpl; now rewrite IH.
Qed.

Lemma filter_twice (A : Type) (p q : A -> bool) (l : list A) :
  filter p (filter q l) = filter (fun x => q x && p x) l.
Proof.
  induction l as [|x l IH]; [reflexivity|]. simpl.
  destruct (q x); simpl; [destruct (p x)|]; now rewrite IH.
Qed.

Lemma valid_keys_inv (g : float) (k : grid_key) (obs : list Observation) :
  In k (valid_keys (map (fun o => (observation_key g o, o)) obs)) ->
  exists o, In o obs /\ observation_key g o = Some k.
Proof.
  induction obs as [|o obs IH]; simpl; [intros []|].
  destruct (observation_key g o) as [k'|] eqn:E.
  - intros [<-|H]; [eauto|]. destruct (IH H) as (o' & Ho' & Hk). eauto.
  - intros H. destruct (IH H) as (o' & Ho' & Hk). eauto.
Qed.

Lemma aggregate_by_grid_cell_inv (df : DataFrame) (g : float) (c : GridRow.t) :
  In c (snd (aggregate_by_grid df g)) ->
  exists k,
    c = grid_cell
          (k, filter (fun o => if grid_key_opt_eq_dec (observation_key g o)
                                                       (Some k)
                               then true else false) (rows df)) /\
    exists o, In o (rows df) /\ observation_key g o = Some k.
Proof.
  assert (Hcase : rows df = [] \/ rows df <> [])
    by (destruct (rows df); [left | right]; congruence).
  destruct Hcase as [E|Hr].
  - unfold aggregate_by_grid, df_empty. rewrite E. intros [].
  - rewrite aggregate_by_grid_nonempty by assumption. simpl snd.
    unfold groupby. rewrite map_map. intros H.
    apply in_map_iff in H as (k & <- & Hk).
    exists k. rewrite members_filter. split; [reflexivity|].
    apply In_sort_keys, nodup_In in Hk. now apply valid_keys_inv in Hk.
Qed.

(** X1.  The station_count of every emitted cell is the number of
    observations keyed to the cell that carry a temperature. *)
Theorem station_count_is_readings_in_cell :
  forall (df : DataFrame) (g : float) (c : GridRow.t),
    In c (snd (aggregate_by_grid df g)) ->
    GridRow.station_count c = readings_in_cell (rows df) g c.
Proof.
  intros df g c Hc.
  destruct (aggregate_by_grid_cell_inv df g c Hc) as ([a b] & -> & _).
  unfold readings_in_cell, in_cell. simpl.
  now rewrite pd_count_temperature, filter_twice.
Qed.

Lemma station_count_is_readings_in_cell_witness :
  GridRow.station_count
    (grid_cell ((40, -74), [station (Num 40) (Num (-74)) NaN]))
  = readings_in_cell
      (rows silent_station) (Num 1)
      (grid_cell ((40, -74), [station (Num 40) (Num (-74)) NaN])).
Proof.
  apply (@station_count_is_readings_in_cell silent_station (Num 1)).
  unfold silent_station. rewrite one_station_cells. now left.
Defined.

(** X2.  When every observation of the batch carries a temperature, the
    station_count of every emitted cell is the number of observations keyed
    to it. *)
Theorem station_count_is_observations_in_cell :
  forall (df : DataFrame) (g : float) (c : GridRow.t),
    (forall o, In o (rows df) -> is_nan (temperature o) = false) ->
    In c (snd (aggregate_by_grid df g)) ->
    GridRow.station_count c = observations_in_cell (rows df) g c.
Proof.
  intros df g c Hall Hc.
  destruct (aggregate_by_grid_cell_inv df g c Hc) as ([a b] & -> & _).
  unfold observations_in_cell, in_cell. simpl.
  rewrite pd_count_temperature, filter_twice. f_equal.
  apply filter_ext_in. intros o Ho.
  rewrite (Hall o Ho). simpl. now rewrite andb_true_r.
Qed.

Lemma station_count_is_observations_in_cell_witness :
  GridRow.station_count
    (grid_cell ((40, -74), [station (Num 40) (Num (-74)) (Num 72)]))
  = observations_in_cell
      (rows single_station) (Num 1)
      (grid_cell ((40, -74), [station (Num 40) (Num (-74)) (Num 72)])).
Proof.
  apply (@station_count_is_observations_in_cell single_station (Num 1)).
  - intros o [<-|[]]. reflexivity.
  - unfold single_station. rewrite one_station_cells. now left.
Defined.

(** X3.  A cell is emitted only for a key that some observation of the
    batch has: every emitted cell has at least one observation keyed to
    it. *)
Theorem emitted_cell_is_inhabited :
  forall (df : DataFrame) (g : float) (c : GridRow.t),
    In c (snd (aggregate_by_grid df g)) ->
    (1 <= observations_in_cell (rows df) g c)%nat.
Proof.
  intros df g c Hc.
  destruct (aggregate_by_grid_cell_inv df g c Hc)
    as ([a b] & -> & o & Ho & Hk).
  unfold observations_in_cell.
  set (c := grid_cell _) in *.
  assert (Hin : In o (filter (in_cell g c) (rows df))).
  { apply filter_In. split; [exact Ho|].
    unfold in_cell. subst c. simpl. rewrite Hk.
    destruct (grid_key_opt_eq_dec _ _) as [_|N];
      [reflexivity | now destruct N]. }
  destruct (filter (in_cell g c) (rows df)); [destruct Hin | simpl; lia].
Qed.

Lemma emitted_cell_is_inhabited_witness :
  le 1 (observations_in_cell
          (rows silent_station) (Num 1)
          (grid_cell ((40, -74), [station (Num 40) (Num (-74)) NaN]))).
Proof.
  apply (@emitted_cell_is_inhabited silent_station (Num 1)).
  unfold silent_station. rewrite one_station_cells. now left.
Defined.

(* ================================================================== *)
(** * Groups partition the keyed rows *)
(* ================================================================== *)

Lemma list_sum_map_add (A : Type) (f h : A -> nat) (l : list A) :
  list_sum (map (fun a => f a + h a)%nat l)
  = (list_sum (map f l) + list_sum (map h l))%nat.
Proof. induction l as [|a l IH]; simpl; [reflexivity | rewrite IH; lia]. Qed.

Lemma list_sum_map_zero (A : Type) (l : list A) :
  list_sum (map (fun _ => 0%nat) l) = 0%nat.
Proof. induction l as [|a l IH]; simpl; [reflexivity | exact IH]. Qed.

Section GroupByPartition.
Variables K A : Type.
Variable K_eq_dec : forall k1 k2 : K, {k1 = k2} + {k1 <> k2}.
Variable K_leb : K -> K -> bool.

Lemma NoDup_insert_key (k : K) (l : list K) :
  ~ In k l -> NoDup l -> NoDup (insert_key K_leb k l).
Proof.
  induction l as [|k' l IH]; simpl; intros Hk Hl.
  - constructor; [auto | constructor].
  - destruct (K_leb k k').
    + constructor; [exact Hk | exact Hl].
    + inversion Hl as [|? ? Hk' Hl']; subst. constructor.
      * rewrite In_insert_key. intros [E|H]; [apply Hk; now left | auto].
      * apply IH; [intros H; apply Hk; now right | exact Hl'].
Qed.

Lemma NoDup_sort_keys (l : list K) :
  NoDup l -> NoDup (sort_keys K_leb l).
Proof.
  induction 1 as [|k l Hk Hl IH]; simpl; [constructor|].
  apply NoDup_insert_key; [now rewrite In_sort_keys | exact IH].
Qed.

Lemma list_sum_insert_key (f : K -> nat) (k : K) (l : list K) :
  list_sum (map f (insert_key K_leb k l)) = (f k + list_sum (map f l))%nat.
Proof.
  induction l as [|k' l IH]; simpl; [reflexivity|].
  destruct (K_leb k k'); simpl; [reflexivity | rewrite IH; lia].
Qed.

Lemma list_sum_sort_keys (f : K -> nat) (l : list K) :
  list_sum (map f (sort_keys K_leb l)) = list_sum (map f l).
Proof.
  induction l as [|k l IH]; simpl; [reflexivity|].
  now rewrite list_sum_insert_key, IH.
Qed.

(** Over keys without repetition, exactly one key counts a given one. *)
Lemma list_sum_indicator (k0 : K) (n : nat) (ks : list K) :
  NoDup ks ->
  list_sum (map (fun k => if K_eq_dec k k0 then n else 0%nat) ks)
  = if in_dec K_eq_dec k0 ks then n else 0%nat.
Proof.
  induction 1 as [|k ks Hk Hks IH]; simpl; [reflexivity|].
  rewrite IH. destruct (K_eq_dec k k0) as [->|Hne].
  - destruct (in_dec K_eq_dec k0 ks); [contradiction | lia].
  - destruct (in_dec K_eq_dec k0 ks); reflexivity.
Qed.

(** The rows with a key, weighted by [w], are spread over the groups
    without loss or repetition. *)
Lemma members_weight (w : A -> nat) (l : list (option K * A)) (ks : list K) :
  NoDup ks ->
  (forall k a, In (Some k, a) l -> In k ks) ->
  list_sum (map (fun k => list_sum (map w (members K_eq_dec k l))) ks)
  = list_sum (map (fun ka => match fst ka with
                             | Some _ => w (snd ka)
                             | None => 0%nat
                             end) l).
Proof.
  intros Hks. induction l as [|[[k'|] a] l IH]; intros Hall; simpl.
  - apply list_sum_map_zero.
  - rewrite <- IH by (intros; eapply Hall; right; eauto).
    rewrite (map_ext _ (fun k => (if K_eq_dec k k' then w a else 0)
                                 + list_sum (map w (members K_eq_dec k l)))%nat)
      by (intros k; destruct (K_eq_dec k k'); reflexivity).
    rewrite list_sum_map_add, (list_sum_indicator k' (w a) Hks).
    destruct (in_dec K_eq_dec k' ks) as [_|N]; [reflexivity|].
    destruct N. eapply Hall. left. reflexivity.
  - apply IH. intros; eapply Hall; right; eauto.
Qed.

Lemma groupby_weight (w : A -> nat) (l : list (option K * A)) :
  list_sum (map (fun g => list_sum (map w (snd g)))
                (groupby K_eq_dec K_leb l))
  = list_sum (map (fun ka => match fst ka with
                             | Some _ => w (snd ka)
                             | None => 0%nat
                             end) l).
Proof.
  unfold groupby. rewrite map_map. simpl.
  rewrite (list_sum_sort_keys
             (fun k => list_sum (map w (members K_eq_dec k l)))).
  apply members_weight; [apply NoDup_nodup|].
  intros k a H. apply nodup_In. eapply In_valid_keys; eauto.
Qed.

Lemma groupby_keys_NoDup (l : list (option K * A)) :
  NoDup (map fst (groupby K_eq_dec K_leb l)).
Proof.
  unfold groupby. rewrite map_map. simpl. rewrite map_id.
  apply NoDup_sort_keys, NoDup_nodup.
Qed.
End GroupByPartition.

Lemma list_sum_ones (A : Type) (l : list A) :
  list_sum (map (fun _ => 1%nat) l) = length l.
Proof. induction l as [|a l IH]; simpl; [reflexivity | now rewrite IH]. Qed.

Lemma groupby_members (K A : Type)
  (K_eq_dec : forall k1 k2 : K, {k1 = k2} + {k1 <> k2})
  (K_leb : K -> K -> bool) (l : list (option K * A)) (g : K * list A) :
  In g (groupby K_eq_dec K_leb l) -> snd g = members K_eq_dec (fst g) l.
Proof.
  unfold groupby. intros H. apply in_map_iff in H as (k & <- & _). reflexivity.
Qed.

(** Whether aggregation gives the observation a key at all. *)
Lemma observations_in_cell_members (obs : list Observation) (g : float)
  (k : grid_key) (grp : list Observation) :
  observations_in_cell obs g (grid_cell (k, grp))
  = length (members grid_key_eq_dec k
              (map (fun o => (observation_key g o, o)) obs)).
Proof.
  rewrite members_filter. destruct k as [a b]. reflexivity.
Qed.

Lemma cells_count_the_keyed_rows (df : DataFrame) (g : float) :
  list_sum (map (observations_in_cell (rows df) g)
                (snd (aggregate_by_grid df g)))
  = length (filter (fun o => match observation_key g o with
                             | Some _ => true
                             | None => false
                             end) (rows df)).
Proof.
  assert (Hcase : rows df = [] \/ rows df <> [])
    by (destruct (rows df); [left | right]; congruence).
  destruct Hcase as [E|Hr].
  - unfold aggregate_by_grid, df_empty. now rewrite E.
  - rewrite aggregate_by_grid_nonempty by assumption. simpl snd.
    set (l := map (fun o => (observation_key g o, o)) (rows df)).
    rewrite map_map.
    rewrite (map_ext_in _ (fun grp => list_sum (map (fun _ => 1%nat)
                                                     (snd grp)))).
    + rewrite groupby_weight. subst l. rewrite map_map. simpl.
      clear Hr. induction (rows df) as [|o obs IH]; [reflexivity|]. simpl.
      rewrite IH. now destruct (observation_key g o).
    + intros [k grp] Hg. rewrite list_sum_ones, observations_in_cell_members.
      apply groupby_members in Hg. simpl in Hg. now rewrite Hg.
Qed.

Lemma observation_key_present (o : Observation) (g : R) :
  0 < g ->
  is_nan (latitude o) = false -> is_nan (longitude o) = false ->
  exists k, observation_key (Num g) o = Some k.
Proof.
  intros Hg Hlat Hlon.
  destruct (latitude o) as [|x] eqn:Ex; [discriminate|].
  destruct (longitude o) as [|y] eqn:Ey; [discriminate|].
  rewrite (observation_key_Num o Hg Ex Ey). eauto.
Qed.

(** X4.  On a batch in which every observation has both coordinates, the
    cells that aggregation emits for a positive grid size have pairwise
    distinct keys, and the numbers of observations keyed to them add up to
    the number of observations: every observation lies in exactly one
    emitted cell. *)
Theorem grid_cells_partition_the_batch :
  forall (df : DataFrame) (g : R),
    0 < g ->
    (forall o, In o (rows df) ->
               is_nan (latitude o) = false /\ is_nan (longitude o) = false) ->
    NoDup (map (fun c => (GridRow.grid_lat c, GridRow.grid_lon c))
               (snd (aggregate_by_grid df (Num g)))) /\
    list_sum (map (observations_in_cell (rows df) (Num g))
                  (snd (aggregate_by_grid df (Num g))))
    = length (rows df).
Proof.
  intros df g Hg Hall. split.
  - assert (Hcase : rows df = [] \/ rows df <> [])
      by (destruct (rows df); [left | right]; congruence).
    destruct Hcase as [E|Hr].
    + unfold aggregate_by_grid, df_empty. rewrite E. constructor.
    + rewrite aggregate_by_grid_nonempty by assumption. simpl snd.
      rewrite map_map.
      rewrite (map_ext _ (fun grp => (Num (fst (fst grp)), Num (snd (fst grp)))))
        by (intros [[a b] grp]; reflexivity).
      rewrite <- (map_map fst (fun k => (Num (fst k), Num (snd k)))).
      apply Injective_map_NoDup; [|apply groupby_keys_NoDup].
      intros [a b] [a' b'] [= -> ->]. reflexivity.
  - rewrite cells_count_the_keyed_rows. f_equal.
    rewrite forallb_filter_id; [reflexivity|].
    apply forallb_forall. intros o Ho.
    destruct (Hall o Ho) as [Hlat Hlon].
    destruct (observation_key_present o Hg Hlat Hlon) as (k & ->).
    reflexivity.
Qed.

Lemma grid_cells_partition_the_batch_witness :
  list_sum (map (observations_in_cell (rows two_latitudes) (Num 3))
                (snd (aggregate_by_grid two_latitudes (Num 3))))
  = 2%nat.
Proof.
  apply (@grid_cells_partition_the_batch two_latitudes 3); [lra|].
  intros o [<-|[<-|[]]]; split; reflexivity.
Defined.

(* ================================================================== *)
(** * When zone classification fails *)
(* ================================================================== *)

Lemma Rsum_sq_dev_nonneg (m : R) (v : list R) :
  0 <= Rsum (map (sq_dev m) v).
Proof.
  induction v as [|x v IH]; simpl; [lra|].
  pose proof (Rle_0_sqr (x - m)) as H. unfold Rsqr in H.
  unfold sq_dev at 1. lra.
Qed.

Lemma Rsum_sq_dev_zero (m : R) (v : list R) :
  Rsum (map (sq_dev m) v) = 0 -> forall x, In x v -> x = m.
Proof.
  induction v as [|y v IH]; simpl; [intros _ x []|].
  intros H x Hx. pose proof (Rsum_sq_dev_nonneg m v) as Hv.
  assert (Hy : 0 <= sq_dev m y)
    by (pose proof (Rle_0_sqr (y - m)) as Hs; unfold Rsqr in Hs; exact Hs).
  destruct Hx as [<-|Hx].
  - assert (Hz : sq_dev m y = 0) by lra.
    apply Rmult_integral in Hz. lra.
  - apply IH; [lra | exact Hx].
Qed.

Lemma Rsum_constant (c : R) (v : list R) :
  (forall x, In x v -> x = c) -> Rsum v = INR (length v) * c.
Proof.
  induction v as [|y v IH]; intros H.
  - simpl. lra.
  - change (Rsum (y :: v)) with (y + Rsum v).
    rewrite IH by (intros; apply H; now right).
    rewrite (H y) by now left. rewrite length_cons, S_INR. lra.
Qed.

Lemma Rsum_sq_dev_constant (c : R) (v : list R) :
  (forall x, In x v -> x = c) -> Rsum (map (sq_dev c) v) = 0.
Proof.
  induction v as [|y v IH]; intros H; [reflexivity|]. simpl.
  rewrite IH by (intros; apply H; now right).
  rewrite (H y) by now left. unfold sq_dev. lra.
Qed.

Lemma pd_std_value (xs : list float) :
  (2 <= pd_count xs)%nat ->
  pd_std xs
  = Num (sqrt (Rsum (map (sq_dev (Rsum (dropna xs)
                                  / INR (length (dropna xs))))
                         (dropna xs))
               / (INR (length (dropna xs)) - 1))).
Proof.
  unfold pd_std, pd_count. intros H.
  destruct (Nat.ltb_spec (length (dropna xs)) 2); [lia | reflexivity].
Qed.

Lemma pd_mean_value (xs : list float) :
  (1 <= pd_count xs)%nat ->
  pd_mean xs = Num (Rsum (dropna xs) / INR (length (dropna xs))).
Proof.
  unfold pd_mean, pd_count. destruct (dropna xs); simpl; [lia | reflexivity].
Qed.

(** The standard deviation is zero exactly when the readings are all the
    same. *)
Lemma pd_std_zero_iff (xs : list float) (s : R) :
  (2 <= pd_count xs)%nat ->
  pd_std xs = Num s ->
  0 <= s /\ (s = 0 <-> all_equal (dropna xs)).
Proof.
  intros Hn. rewrite pd_std_value by assumption. intros [= <-].
  unfold pd_count in Hn.
  set (v := dropna xs) in *. set (m := Rsum v / INR (length v)).
  assert (Hlen : 2 <= INR (length v)) by (apply (le_INR 2); exact Hn).
  pose proof (Rsum_sq_dev_nonneg m v) as Hsq.
  assert (Hq : 0 <= Rsum (map (sq_dev m) v) / (INR (length v) - 1)).
  { apply Rmult_le_pos; [exact Hsq|].
    apply Rlt_le, Rinv_0_lt_compat. lra. }
  split; [apply sqrt_pos|]. split.
  - intros H0. apply sqrt_eq_0 in H0; [|exact Hq].
    assert (Hz : Rsum (map (sq_dev m) v) = 0).
    { apply Rmult_integral in H0 as [H0|H0]; [exact H0|].
      exfalso. apply (Rinv_neq_0_compat (INR (length v) - 1)); [lra | exact H0]. }
    intros x y Hx Hy.
    rewrite (@Rsum_sq_dev_zero m v Hz x Hx), (@Rsum_sq_dev_zero m v Hz y Hy).
    reflexivity.
  - intros Heq.
    destruct v as [|c v'] eqn:Ev; [simpl in Hn; lia|].
    assert (Hc : forall x, In x (c :: v') -> x = c)
      by (intros x Hx; apply Heq; [exact Hx | now left]).
    assert (Hm : m = c).
    { unfold m. rewrite (@Rsum_constant c (c :: v') Hc). field. lra. }
    rewrite Hm, (@Rsum_sq_dev_constant c (c :: v') Hc).
    unfold Rdiv. rewrite Rmult_0_l. apply sqrt_0.
Qed.

Lemma all_equal_short (v : list R) :
  (length v < 2)%nat -> all_equal v.
Proof.
  destruct v as [|x [|y v]]; simpl; intros H x1 x2 H1 H2; try lia.
  - destruct H1.
  - destruct H1 as [<-|[]], H2 as [<-|[]]. reflexivity.
Qed.

Lemma zone_bins_increasing_iff (m s : R) :
  increasing (zone_bins (Num m) (Num s)) = true <-> 0 < s.
Proof.
  simpl. destruct (Rlt_dec (m - s) (m + s)); simpl; split; intros H;
    try reflexivity; try discriminate; lra.
Qed.



(* ================================================================== *)
(** * Minimum, mean and maximum of a series *)
(* ================================================================== *)

Lemma fold_left_Rmin_spec (v : list R) (x : R) :
  In (fold_left Rmin v x) (x :: v) /\
  forall y, In y (x :: v) -> fold_left Rmin v x <= y.
Proof.
  revert x. induction v as [|z v IH]; intros x; simpl.
  - split; [now left | intros y [<-|[]]; lra].
  - destruct (IH (Rmin x z)) as [Hin Hle]. split.
    + destruct Hin as [E|Hin]; [|now right; right].
      rewrite <- E. unfold Rmin. destruct (Rle_dec x z); auto.
    + intros y Hy.
      assert (Hm : fold_left Rmin v (Rmin x z) <= Rmin x z)
        by (apply Hle; now left).
      destruct Hy as [<-|[<-|Hy]].
      * pose proof (Rmin_l x z). lra.
      * pose proof (Rmin_r x z). lra.
      * apply Hle. now right.
Qed.

Lemma fold_left_Rmax_spec (v : list R) (x : R) :
  In (fold_left Rmax v x) (x :: v) /\
  forall y, In y (x :: v) -> y <= fold_left Rmax v x.
Proof.
  revert x. induction v as [|z v IH]; intros x; simpl.
  - split; [now left | intros y [<-|[]]; lra].
  - destruct (IH (Rmax x z)) as [Hin Hle]. split.
    + destruct Hin as [E|Hin]; [|now right; right].
      rewrite <- E. unfold Rmax. destruct (Rle_dec x z); auto.
    + intros y Hy.
      assert (Hm : Rmax x z <= fold_left Rmax v (Rmax x z))
        by (apply Hle; now left).
      destruct Hy as [<-|[<-|Hy]].
      * pose proof (Rmax_l x z). lra.
      * pose proof (Rmax_r x z). lra.
      * apply Hle. now right.
Qed.

Lemma Rsum_bounds (lo hi : R) (v : list R) :
  (forall y, In y v -> lo <= y <= hi) ->
  INR (length v) * lo <= Rsum v <= INR (length v) * hi.
Proof.
  induction v as [|x v IH]; intros H.
  - simpl. lra.
  - change (Rsum (x :: v)) with (x + Rsum v).
    rewrite length_cons, S_INR.
    specialize (IH (fun y Hy => H y (or_intror Hy))).
    specialize (H x (or_introl eq_refl)). lra.
Qed.

(** A series with at least one reading has a minimum and a maximum that
    are readings of the series, and its mean lies between them. *)
Lemma series_stats (xs : list float) :
  dropna xs <> [] ->
  exists mn mu mx,
    pd_min xs = Num mn /\ pd_mean xs = Num mu /\ pd_max xs = Num mx /\
    In mn (dropna xs) /\ In mx (dropna xs) /\
    (forall y, In y (dropna xs) -> mn <= y <= mx) /\
    mn <= mu <= mx.
Proof.
  unfold pd_min, pd_mean, pd_max.
  destruct (dropna xs) as [|x v] eqn:E; [congruence|]. intros _.
  destruct (fold_left_Rmin_spec v x) as [Hmin_in Hmin].
  destruct (fold_left_Rmax_spec v x) as [Hmax_in Hmax].
  eexists _, _, _. repeat split; try reflexivity; try assumption.
  - now apply Hmin.
  - now apply Hmax.
  - set (mn := fold_left Rmin v x). set (n := INR (length (x :: v))).
    assert (Hn : 0 < n) by (unfold n; apply lt_0_INR; simpl; lia).
    destruct (@Rsum_bounds mn (fold_left Rmax v x) (x :: v)) as [Hlo _].
    { intros y Hy. split; [now apply Hmin | now apply Hmax]. }
    fold n in Hlo.
    apply Rmult_le_reg_r with n; [exact Hn|].
    unfold Rdiv. rewrite Rmult_assoc, Rinv_l by lra. lra.
  - set (mx := fold_left Rmax v x). set (n := INR (length (x :: v))).
    assert (Hn : 0 < n) by (unfold n; apply lt_0_INR; simpl; lia).
    destruct (@Rsum_bounds (fold_left Rmin v x) mx (x :: v)) as [_ Hhi].
    { intros y Hy. split; [now apply Hmin | now apply Hmax]. }
    fold n in Hhi.
    apply Rmult_le_reg_r with n; [exact Hn|].
    unfold Rdiv. rewrite Rmult_assoc, Rinv_l by lra. lra.
Qed.

Lemma series_stats_empty (xs : list float) :
  dropna xs = [] ->
  pd_min xs = NaN /\ pd_mean xs = NaN /\ pd_max xs = NaN.
Proof. unfold pd_min, pd_mean, pd_max. now intros ->. Qed.

Lemma In_dropna (x : R) (xs : list float) :
  In x (dropna xs) <-> In (Num x) xs.
Proof.
  induction xs as [|[|y] xs IH]; simpl.
  - tauto.
  - rewrite IH. split; [auto | intros [H|H]; [discriminate | exact H]].
  - rewrite IH. split; intros [H|H]; auto; left; congruence.
Qed.

Lemma reading_of_group (f : Observation -> float) (grp : list Observation)
  (x : R) :
  In x (dropna (map f grp)) -> exists o, In o grp /\ f o = Num x.
Proof.
  intros H. apply In_dropna, in_map_iff in H as (o & Ho & Hin). eauto.
Qed.

(** X6.  Every cell that aggregation emits either holds no temperature
    reading, and then its station_count is 0 and its temp_min, temp_mean
    and temp_max are missing, or it has station_count at least 1, its
    temp_min and temp_max are the temperatures of observations keyed to the
    cell, and temp_min <= temp_mean <= temp_max. *)
Theorem grid_cell_statistics :
  forall (df : DataFrame) (g : float) (c : GridRow.t),
    In c (snd (aggregate_by_grid df g)) ->
    (GridRow.station_count c = 0%nat /\
     GridRow.temp_min c = NaN /\ GridRow.temp_mean c = NaN /\
     GridRow.temp_max c = NaN) \/
    (exists mn mu mx omin omax,
        (1 <= GridRow.station_count c)%nat /\
        GridRow.temp_min c = Num mn /\ GridRow.temp_mean c = Num mu /\
        GridRow.temp_max c = Num mx /\
        mn <= mu <= mx /\
        In omin (rows df) /\ in_cell g c omin = true /\
        temperature omin = Num mn /\
        In omax (rows df) /\ in_cell g c omax = true /\
        temperature omax = Num mx).
Proof.
  intros df g c Hc.
  destruct (aggregate_by_grid_cell_inv df g c Hc) as ([a b] & -> & _).
  set (grp := filter _ (rows df)).
  assert (Hgrp : forall o, In o grp ->
            In o (rows df) /\
            in_cell g (grid_cell ((a, b), grp)) o = true).
  { intros o Ho. apply filter_In in Ho as [Ho Hk]. split; [exact Ho|].
    exact Hk. }
  destruct (dropna (map temperature grp)) as [|x v] eqn:E.
  - left. simpl. unfold pd_count. rewrite E.
    destruct (series_stats_empty _ E) as (H1 & H2 & H3). auto.
  - right.
    destruct (@series_stats (map temperature grp))
      as (mn & mu & mx & Hmn & Hmu & Hmx & Imn & Imx & _ & Hord);
      [congruence|].
    apply reading_of_group in Imn as (omin & Homin & Htmin).
    apply reading_of_group in Imx as (omax & Homax & Htmax).
    destruct (Hgrp omin Homin) as [? ?]. destruct (Hgrp omax Homax) as [? ?].
    exists mn, mu, mx, omin, omax. simpl. unfold pd_count. rewrite E.
    repeat split; try assumption; try tauto. simpl. lia.
Qed.

Lemma grid_cell_statistics_witness :
  exists mn mu mx,
    GridRow.temp_min single_station_cell = Num mn /\
    GridRow.temp_mean single_station_cell = Num mu /\
    GridRow.temp_max single_station_cell = Num mx /\
    mn <= mu <= mx.
Proof.
  destruct (@grid_cell_statistics single_station (Num 1) single_station_cell)
    as [(H0 & _)|(mn & mu & mx & _ & _ & _ & Hmn & Hmu & Hmx & Hord & _)].
  - unfold single_station. rewrite one_station_cells. now left.
  - discriminate H0.
  - now exists mn, mu, mx.
Defined.

(* ================================================================== *)
(** * The zone table *)
(* ================================================================== *)

Lemma members_In (K A : Type)
  (K_eq_dec : forall k1 k2 : K, {k1 = k2} + {k1 <> k2})
  (k : K) (a : A) (l : list (option K * A)) :
  In a (members K_eq_dec k l) <-> In (Some k, a) l.
Proof.
  induction l as [|[[k'|] a'] l IH]; simpl.
  - tauto.
  - destruct (K_eq_dec k k') as [<-|Hne]; simpl; rewrite IH.
    + split; intros [H|H]; auto; left; congruence.
    + split; [auto | intros [H|H]; [congruence | exact H]].
  - rewrite IH. split; [auto | intros [H|H]; [discriminate | exact H]].
Qed.

Lemma valid_keys_In_inv (K A : Type) (k : K) (l : list (option K * A)) :
  In k (valid_keys l) -> exists a, In (Some k, a) l.
Proof.
  induction l as [|[[k'|] a'] l IH]; simpl; [intros []| |].
  - intros [<-|H]; [eauto|]. destruct (IH H) as (a & Ha). eauto.
  - intros H. destruct (IH H) as (a & Ha). eauto.
Qed.

Lemma In_combine_map (A B : Type) (h : A -> B) (l : list A) (y : B) (x : A) :
  In (y, x) (combine (map h l) l) -> In x l /\ y = h x.
Proof.
  induction l as [|a l IH]; simpl; [intros []|].
  intros [[= <- <-]|H]; [auto|]. destruct (IH H). auto.
Qed.

Lemma zone_of_inv (m s x : R) (z : zone_label) :
  m - s < m + s ->
  zone_of m s (Num x) = Some z ->
  match z with
  | Cold_Zone => x <= m - s
  | Moderate_Zone => m - s < x <= m + s
  | Warm_Zone => m + s < x
  end.
Proof.
  intros H. unfold zone_of. rewrite find_bin_zone by assumption.
  destruct (Rle_dec x (m - s)), (Rle_dec x (m + s)); intros [= <-]; lra.
Qed.

Lemma zone_of_Num (m s x : R) :
  m - s < m + s -> exists z, zone_of m s (Num x) = Some z.
Proof.
  intros H. unfold zone_of. rewrite find_bin_zone by assumption. eauto.
Qed.

Lemma create_weather_zones_Ok_table (df : DataFrame) (t : float)
  (zones : list ZoneRow.t) :
  rows df <> [] ->
  snd (create_weather_zones df t) = Ok zones ->
  exists m s,
    pd_mean (col temperature df) = Num m /\
    pd_std (col temperature df) = Num s /\
    m - s < m + s /\
    zones = map zone_row
                (groupby zone_label_eq_dec zone_label_leb
                   (combine (map (zone_of m s) (col temperature df))
                            (rows df))).
Proof.
  intros Hr. rewrite create_weather_zones_nonempty by assumption.
  unfold pd_cut.
  destruct (pd_mean (col temperature df)) as [|m].
  { rewrite zone_bins_nan_mean. discriminate. }
  destruct (pd_std (col temperature df)) as [|s].
  { rewrite zone_bins_nan_std. discriminate. }
  destruct (increasing (zone_bins (Num m) (Num s))) eqn:E; [|discriminate].
  simpl. intros [= <-]. exists m, s.
  repeat split. now apply zone_bins_increasing.
Qed.

Lemma create_weather_zones_empty_table (df : DataFrame) (t : float) :
  rows df = [] -> snd (create_weather_zones df t) = Ok [].
Proof. intros E. unfold create_weather_zones, df_empty. now rewrite E. Qed.

(** X7.  Every row of the zone table that classification returns has a
    minimum, a mean and a maximum temperature with min <= mean <= max, and
    they respect the thresholds of its zone: the Cold row has
    max <= mean - std, the Moderate row has mean - std < min and
    max <= mean + std, the Warm row has mean + std < min (mean and std being
    those of the whole batch). *)
Theorem zone_table_ranges :
  forall (df : DataFrame) (t : float) (zones : list ZoneRow.t)
         (z : ZoneRow.t),
    snd (create_weather_zones df t) = Ok zones ->
    In z zones ->
    exists m s mn mu mx,
      pd_mean (col temperature df) = Num m /\
      pd_std (col temperature df) = Num s /\
      ZoneRow.temp_min z = Num mn /\
      ZoneRow.temp_mean z = Num mu /\
      ZoneRow.temp_max z = Num mx /\
      mn <= mu <= mx /\
      match ZoneRow.zone z with
      | Cold_Zone => mx <= m - s
      | Moderate_Zone => m - s < mn /\ mx <= m + s
      | Warm_Zone => m + s < mn
      end.
Proof.
  intros df t zones z Hok Hz.
  assert (Hr : rows df <> []).
  { intros E. rewrite (create_weather_zones_empty_table df t E) in Hok.
    injection Hok as <-. destruct Hz. }
  destruct (create_weather_zones_Ok_table df t Hr Hok)
    as (m & s & Hm & Hs & Hlt & ->).
  set (L := combine (map (zone_of m s) (col temperature df)) (rows df)) in *.
  apply in_map_iff in Hz as ([lbl grp] & <- & Hg).
  pose proof (groupby_members _ _ _ _ Hg) as Hgrp. simpl in Hgrp. subst grp.
  set (grp := members zone_label_eq_dec lbl L) in *.
  assert (Hmem : forall o, In o grp ->
            exists x, temperature o = Num x /\ zone_of m s (Num x) = Some lbl).
  { intros o Ho. apply members_In in Ho.
    unfold L, col in Ho.
    rewrite (map_map temperature (zone_of m s)) in Ho.
    apply In_combine_map in Ho as [_ Hzo].
    destruct (temperature o) as [|x]; [discriminate|]. eauto. }
  assert (Hne : dropna (map temperature grp) <> []).
  { unfold groupby in Hg. apply in_map_iff in Hg as (k & Heq & Hk).
    injection Heq as -> _.
    apply In_sort_keys, nodup_In, valid_keys_In_inv in Hk as (o & Ho).
    apply members_In with (K_eq_dec := zone_label_eq_dec) in Ho.
    destruct (Hmem o Ho) as (x & Hx & _).
    assert (Hin : In x (dropna (map temperature grp))).
    { apply In_dropna. rewrite <- Hx. now apply in_map. }
    intros E. rewrite E in Hin. destruct Hin. }
  destruct (series_stats _ Hne)
    as (mn & mu & mx & Hmn & Hmu & Hmx & Imn & Imx & _ & Hord).
  apply reading_of_group in Imn as (omin & Homin & Htmin).
  apply reading_of_group in Imx as (omax & Homax & Htmax).
  destruct (Hmem omin Homin) as (x1 & Hx1 & Hz1).
  destruct (Hmem omax Homax) as (x2 & Hx2 & Hz2).
  rewrite Htmin in Hx1. injection Hx1 as <-.
  rewrite Htmax in Hx2. injection Hx2 as <-.
  apply zone_of_inv in Hz1; [|exact Hlt].
  apply zone_of_inv in Hz2; [|exact Hlt].
  exists m, s, mn, mu, mx. simpl.
  repeat split; try assumption; try tauto.
  destruct lbl; lra.
Qed.

Lemma zone_table_ranges_witness :
  exists mn mx,
    ZoneRow.temp_min three_stations_cold_row = Num mn /\
    ZoneRow.temp_max three_stations_cold_row = Num mx /\
    mx <= 60.
Proof.
  destruct (@zone_table_ranges three_stations (Num 5) _
              three_stations_cold_row (f_equal snd three_stations_zones))
    as (m & s & mn & mu & mx & Hm & Hs & Hmn & _ & Hmx & _ & Hcold).
  - left. reflexivity.
  - rewrite three_stations_mean in Hm. rewrite three_stations_std in Hs.
    injection Hm as <-. injection Hs as <-.
    exists mn, mx. repeat split; try assumption. simpl in Hcold. lra.
Defined.

Lemma pd_count_weight (f : Observation -> float) (grp : list Observation) :
  pd_count (map f grp)
  = list_sum (map (fun o => if is_nan (f o) then 0%nat else 1%nat) grp).
Proof.
  unfold pd_count. induction grp as [|o grp IH]; [reflexivity|]. simpl.
  destruct (f o); simpl; now rewrite IH.
Qed.

(** X8.  When zone classification succeeds on a batch whose observations
    all have a latitude, the zone table has at most one row per zone, and
    the station counts of its rows add up to the number of observations
    that carry a temperature: each of them is counted in exactly one zone,
    and an observation without temperature in none. *)
Theorem zone_table_counts_readings :
  forall (df : DataFrame) (t : float) (zones : list ZoneRow.t),
    snd (create_weather_zones df t) = Ok zones ->
    (forall o, In o (rows df) -> is_nan (latitude o) = false) ->
    NoDup (map ZoneRow.zone zones) /\
    list_sum (map ZoneRow.station_count zones)
    = pd_count (col temperature df).
Proof.
  intros df t zones Hok Hlat.
  assert (Hcase : rows df = [] \/ rows df <> [])
    by (destruct (rows df); [left | right]; congruence).
  destruct Hcase as [E|Hr].
  - rewrite (create_weather_zones_empty_table df t E) in Hok.
    injection Hok as <-. unfold col. rewrite E. split; [constructor|reflexivity].
  - destruct (create_weather_zones_Ok_table df t Hr Hok)
      as (m & s & _ & _ & Hlt & ->).
    rewrite !map_map. split.
    + rewrite (map_ext _ fst) by (intros [z grp]; reflexivity).
      apply groupby_keys_NoDup.
    + rewrite (map_ext _ (fun g => list_sum
                 (map (fun o => if is_nan (latitude o) then 0%nat else 1%nat)
                      (snd g))))
        by (intros [z grp]; apply pd_count_weight).
      rewrite groupby_weight. unfold col, pd_count.
      rewrite (map_map temperature (zone_of m s)).
      clear Hr Hok. induction (rows df) as [|o obs IH]; [reflexivity|].
      simpl. rewrite IH by (intros; apply Hlat; now right).
      rewrite (Hlat o) by now left.
      destruct (temperature o) as [|x]; [reflexivity|].
      destruct (zone_of_Num x Hlt) as (z & ->). reflexivity.
Qed.

Lemma zone_table_counts_readings_witness :
  list_sum
    (map ZoneRow.station_count
       (map zone_row
          (groupby zone_label_eq_dec zone_label_leb
             (combine [Some Cold_Zone; Some Moderate_Zone; Some Moderate_Zone]
                      (rows three_stations)))))
  = 3%nat.
Proof.
  apply (@zone_table_counts_readings three_stations (Num 5)).
  - now rewrite three_stations_zones.
  - intros o [<-|[<-|[<-|[]]]]; reflexivity.
Defined.

(* ================================================================== *)
(** * Zones do not depend on the temperature unit *)
(* ================================================================== *)

Lemma dropna_rescale (a b : R) (xs : list float) :
  dropna (map (rescale a b) xs) = map (fun x => a * x + b) (dropna xs).
Proof.
  induction xs as [|[|x] xs IH]; simpl; [reflexivity | exact IH |].
  now rewrite IH.
Qed.

Lemma Rsum_affine (a b : R) (v : list R) :
  Rsum (map (fun x => a * x + b) v) = a * Rsum v + INR (length v) * b.
Proof.
  induction v as [|x v IH].
  - simpl. lra.
  - rewrite length_cons, S_INR. simpl. rewrite IH. lra.
Qed.


Lemma pd_count_rescale (a b : R) (xs : list float) :
  pd_count (map (rescale a b) xs) = pd_count xs.
Proof. unfold pd_count. now rewrite dropna_rescale, length_map. Qed.

Lemma pd_mean_rescale (a b : R) (xs : list float) :
  (1 <= pd_count xs)%nat ->
  pd_mean (map (rescale a b) xs)
  = Num (a * (Rsum (dropna xs) / INR (length (dropna xs))) + b).
Proof.
  intros Hc. rewrite pd_mean_value by now rewrite pd_count_rescale.
  rewrite dropna_rescale, length_map, Rsum_affine. f_equal.
  unfold pd_count in Hc.
  assert (Hn : 1 <= INR (length (dropna xs))) by (apply (le_INR 1); exact Hc).
  field. lra.
Qed.




Lemma col_temperature_rescale (a b : R) (df : DataFrame) :
  col temperature (rescale_temperature a b df)
  = map (rescale a b) (col temperature df).
Proof. unfold col. simpl. now rewrite !map_map. Qed.



(* ================================================================== *)
(** * Neighbour selection *)
(* ================================================================== *)

Lemma sort_leb_total (a b : float) :
  no_farther a b \/ no_farther b a.
Proof.
  unfold no_farther, sort_leb, Rleb. destruct a as [|x], b as [|y]; auto.
  destruct (Rle_dec x y), (Rle_dec y x); auto. lra.
Qed.

Lemma sort_leb_trans (a b c : float) :
  no_farther a b -> no_farther b c -> no_farther a c.
Proof.
  unfold no_farther, sort_leb, Rleb.
  destruct a as [|x], b as [|y], c as [|z]; try discriminate; auto.
  destruct (Rle_dec x y), (Rle_dec y z), (Rle_dec x z);
    try discriminate; auto. lra.
Qed.

Lemma insert_idx_perm (p : float * nat) (l : list (float * nat)) :
  Permutation (insert_idx p l) (p :: l).
Proof.
  induction l as [|q l IH]; simpl; [reflexivity|].
  destruct (sort_leb (fst p) (fst q)); [reflexivity|].
  rewrite IH. apply perm_swap.
Qed.

Lemma insert_idx_sorted (p : float * nat) (l : list (float * nat)) :
  StronglySorted val_le l -> StronglySorted val_le (insert_idx p l).
Proof.
  induction 1 as [|q l Hl IH Hq]; simpl.
  - constructor; constructor.
  - destruct (sort_leb (fst p) (fst q)) eqn:E.
    + constructor; [now constructor|].
      constructor; [exact E|].
      eapply Forall_impl; [|exact Hq].
      intros r Hr. eapply sort_leb_trans; [exact E | exact Hr].
    + constructor; [exact IH|].
      apply Forall_forall. intros r Hr.
      apply (Permutation_in _ (insert_idx_perm p l)) in Hr as [<-|Hr].
      * destruct (sort_leb_total (fst p) (fst q)) as [H|H]; [|exact H].
        unfold no_farther in H. congruence.
      * rewrite Forall_forall in Hq. now apply Hq.
Qed.

Lemma sorted_pairs_spec (row : list float) :
  Permutation (sorted_pairs row) (combine row (seq 0 (length row))) /\
  StronglySorted val_le (sorted_pairs row).
Proof.
  unfold sorted_pairs.
  induction (combine row (seq 0 (length row))) as [|p l [IHp IHs]]; simpl.
  - split; constructor.
  - split.
    + rewrite insert_idx_perm. now constructor.
    + now apply insert_idx_sorted.
Qed.

Lemma argsort_pairs (row : list float) :
  argsort row = map snd (sorted_pairs row).
Proof. reflexivity. Qed.

Lemma map_snd_combine_seq (row : list float) (start : nat) :
  map snd (combine row (seq start (length row))) = seq start (length row).
Proof.
  revert start. induction row as [|a row IH]; intros start; simpl;
    [reflexivity | now rewrite IH].
Qed.

Lemma In_combine_seq (row : list float) (start : nat) (v : float) (j : nat) :
  In (v, j) (combine row (seq start (length row))) ->
  (start <= j < start + length row)%nat /\ v = nth (j - start) row NaN.
Proof.
  revert start. induction row as [|a row IH]; intros start; simpl; [intros []|].
  intros [[= <- <-]|H].
  - rewrite Nat.sub_diag. split; [lia | reflexivity].
  - destruct (IH _ H) as [Hj ->]. split; [lia|].
    replace (j - start)%nat with (S (j - S start)) by lia. reflexivity.
Qed.

Lemma argsort_perm (row : list float) :
  Permutation (argsort row) (seq 0 (length row)).
Proof.
  rewrite argsort_pairs, <- (map_snd_combine_seq row 0).
  apply Permutation_map, sorted_pairs_spec.
Qed.

Lemma sorted_pairs_value (row : list float) (p : float * nat) :
  In p (sorted_pairs row) ->
  (snd p < length row)%nat /\ fst p = nth (snd p) row NaN.
Proof.
  intros H. destruct p as [v j].
  apply (Permutation_in _ (proj1 (sorted_pairs_spec row))) in H.
  apply In_combine_seq in H as [Hj ->]. simpl.
  rewrite Nat.sub_0_r. split; [lia | reflexivity].
Qed.

Lemma StronglySorted_app_le (A : Type) (R : A -> A -> Prop) (l1 l2 : list A) :
  StronglySorted R (l1 ++ l2) ->
  forall x y, In x l1 -> In y l2 -> R x y.
Proof.
  induction l1 as [|a l1 IH]; simpl; intros H x y Hx Hy; [destruct Hx|].
  apply StronglySorted_inv in H as [Hs Hall].
  destruct Hx as [<-|Hx].
  - rewrite Forall_forall in Hall. apply Hall, in_or_app. now right.
  - now apply IH.
Qed.

Lemma StronglySorted_app_r (A : Type) (R : A -> A -> Prop) (l1 l2 : list A) :
  StronglySorted R (l1 ++ l2) -> StronglySorted R l2.
Proof.
  induction l1 as [|a l1 IH]; simpl; [auto|].
  intros H. apply StronglySorted_inv in H as [Hs _]. auto.
Qed.

Lemma In_firstn (A : Type) (n : nat) (l : list A) (x : A) :
  In x (firstn n l) -> In x l.
Proof.
  intros H. rewrite <- (firstn_skipn n l). apply in_or_app. now left.
Qed.

Lemma nearest_of_row (row : list float) :
  (1 <= length row)%nat ->
  exists skipped near,
    nth 0 (argsort row) 0%nat = skipped /\
    slice_1_4 (argsort row) = near /\
    length near = Nat.min 3 (length row - 1) /\
    NoDup (skipped :: near) /\
    (forall j, In j (skipped :: near) -> (j < length row)%nat) /\
    (forall k, (k < length row)%nat ->
               no_farther (nth skipped row NaN) (nth k row NaN)) /\
    (forall j k, In j near -> (k < length row)%nat ->
                 ~ In k (skipped :: near) ->
                 no_farther (nth j row NaN) (nth k row NaN)).
Proof.
  intros Hlen.
  destruct (sorted_pairs_spec row) as [Hperm Hsorted].
  pose proof (argsort_perm row) as Hp.
  pose proof (Permutation_length Hp) as Hl. rewrite length_seq in Hl.
  assert (Hnd : NoDup (argsort row))
    by (eapply Permutation_NoDup; [symmetry; exact Hp | apply seq_NoDup]).
  assert (Hval := sorted_pairs_value row).
  rewrite argsort_pairs in *.
  destruct (sorted_pairs row) as [|h rest] eqn:E; [simpl in Hl; lia|].
  simpl map in *. simpl length in Hl.
  exists (snd h), (firstn 3 (map snd rest)).
  assert (Hsplit : map snd rest
                   = firstn 3 (map snd rest) ++ skipn 3 (map snd rest))
    by (symmetry; apply firstn_skipn).
  split; [reflexivity|].
  split; [reflexivity|].
  split; [rewrite length_firstn; lia|].
  apply StronglySorted_inv in Hsorted as [Hrest Hh].
  rewrite Forall_forall in Hh.
  assert (Hnear : forall j, In j (firstn 3 (map snd rest)) ->
            exists pj, In pj (firstn 3 rest) /\ snd pj = j).
  { intros j Hj. rewrite firstn_map in Hj.
    apply in_map_iff in Hj as (pj & <- & Hpj). eauto. }
  split.
  { inversion Hnd as [|? ? Hnotin Hnd']; subst. constructor.
    - intros H. apply Hnotin. eapply In_firstn; eauto.
    - rewrite Hsplit in Hnd'. eapply NoDup_app_remove_r; eauto. }
  split.
  { intros j [<-|Hj].
    - apply Hval. now left.
    - destruct (Hnear j Hj) as (pj & Hpj & <-).
      apply Hval. right. eapply In_firstn; eauto. }
  split.
  { intros k Hk.
    assert (Hkin : In k (snd h :: map snd rest)).
    { eapply Permutation_in; [symmetry; exact Hp|]. apply in_seq. lia. }
    destruct (Hval h (or_introl eq_refl)) as [_ Hvh].
    destruct Hkin as [<-|Hkin].
    - destruct (sort_leb_total (nth (snd h) row NaN) (nth (snd h) row NaN));
        assumption.
    - apply in_map_iff in Hkin as (pk & <- & Hpk).
      destruct (Hval pk (or_intror Hpk)) as [_ <-]. rewrite <- Hvh.
      now apply Hh. }
  intros j k Hj Hk Hnot.
  destruct (Hnear j Hj) as (pj & Hpj & <-).
  assert (Hkin : In k (snd h :: map snd rest)).
  { eapply Permutation_in; [symmetry; exact Hp|]. apply in_seq. lia. }
  destruct Hkin as [Hkh|Hkin]; [destruct Hnot; now left|].
  rewrite Hsplit in Hkin. apply in_app_or in Hkin as [Hkin|Hkin];
    [destruct Hnot; now right|].
  rewrite skipn_map in Hkin. apply in_map_iff in Hkin as (pk & <- & Hpk).
  rewrite <- (firstn_skipn 3 rest) in Hrest.
  pose proof (@StronglySorted_app_le _ val_le _ _ Hrest pj pk Hpj Hpk) as Hle.
  assert (Hpk' : In pk rest)
    by (rewrite <- (firstn_skipn 3 rest); apply in_or_app; now right).
  destruct (Hval pj (or_intror (@In_firstn _ 3 rest pj Hpj))) as [_ <-].
  destruct (Hval pk (or_intror Hpk')) as [_ <-].
  exact Hle.
Qed.

Lemma cdist_row (obs : list Observation) (i : nat) (o : Observation) :
  nth_error obs i = Some o ->
  nth i (cdist obs) [] = map (euclidean o) obs.
Proof.
  intros H. unfold cdist.
  erewrite nth_error_nth; [reflexivity|].
  now rewrite nth_error_map, H.
Qed.

Lemma cdist_row_length (obs : list Observation) (i : nat) :
  (i < length obs)%nat -> length (nth i (cdist obs) []) = length obs.
Proof.
  intros H. destruct (nth_error obs i) as [o|] eqn:E.
  - rewrite (cdist_row _ _ E). apply length_map.
  - apply nth_error_None in E. lia.
Qed.

Lemma nearest_indices_are_nearest_row (df : DataFrame) (i : nat) :
  (i < length (rows df))%nat ->
  NoDup (skipped_index (cdist (rows df)) i
         :: nearest_indices (cdist (rows df)) i) /\
  (skipped_index (cdist (rows df)) i < length (rows df))%nat /\
  (forall k, (k < length (rows df))%nat ->
             no_farther
               (distance_to (cdist (rows df)) i
                            (skipped_index (cdist (rows df)) i))
               (distance_to (cdist (rows df)) i k)).
Proof.
  intros Hi.
  pose proof (cdist_row_length (rows df) Hi) as Hlen.
  unfold nearest_indices, skipped_index, distance_to.
  set (row := nth i (cdist (rows df)) []) in *.
  destruct (@nearest_of_row row) as
    (skipped & near & -> & -> & Hl & Hnd & Hb & Hmin & Hsel); [lia|].
  rewrite Hlen in *.
  split; [exact Hnd|]. split; [apply Hb; now left | exact Hmin].
Qed.

(** X10.  For every observation [i] of a batch, gradient estimation selects
    min(3, n - 1) neighbours: distinct indices of the batch, none of them
    the index that the slice skips; the skipped index is no farther from
    [i] than any observation, and no observation left out is strictly
    nearer to [i] than a selected one (a missing distance counts as
    farthest). *)
Theorem nearest_indices_are_nearest :
  forall (df : DataFrame) (i : nat),
    (i < length (rows df))%nat ->
    length (nearest_indices (cdist (rows df)) i)
    = Nat.min 3 (length (rows df) - 1) /\
    NoDup (skipped_index (cdist (rows df)) i
           :: nearest_indices (cdist (rows df)) i) /\
    (forall j, In j (nearest_indices (cdist (rows df)) i) ->
               (j < length (rows df))%nat) /\
    (forall k, (k < length (rows df))%nat ->
               no_farther
                 (distance_to (cdist (rows df)) i
                              (skipped_index (cdist (rows df)) i))
                 (distance_to (cdist (rows df)) i k)) /\
    (forall j k,
        In j (nearest_indices (cdist (rows df)) i) ->
        (k < length (rows df))%nat ->
        k <> skipped_index (cdist (rows df)) i ->
        ~ In k (nearest_indices (cdist (rows df)) i) ->
        no_farther (distance_to (cdist (rows df)) i j)
                   (distance_to (cdist (rows df)) i k)).
Proof.
  intros df i Hi.
  pose proof (cdist_row_length (rows df) Hi) as Hlen.
  unfold nearest_indices, skipped_index, distance_to.
  set (row := nth i (cdist (rows df)) []) in *.
  destruct (@nearest_of_row row) as
    (skipped & near & -> & -> & Hl & Hnd & Hb & Hmin & Hsel); [lia|].
  rewrite Hlen in *.
  split; [exact Hl|]. split; [exact Hnd|].
  split; [intros j Hj; apply Hb; now right|].
  split; [exact Hmin|].
  intros j k Hj Hk Hne Hnot. apply Hsel; try assumption.
  intros [E|H]; [now apply Hne | now apply Hnot].
Qed.

Lemma nearest_indices_are_nearest_witness :
  length (nearest_indices (cdist (rows five_stations)) 2) = 3%nat.
Proof.
  apply (@nearest_indices_are_nearest five_stations 2%nat). simpl. lia.
Defined.

Lemma euclidean_value (a b : Observation) (x1 y1 x2 y2 : R) :
  latitude a = Num x1 -> longitude a = Num y1 ->
  latitude b = Num x2 -> longitude b = Num y2 ->
  euclidean a b = Num (sqrt ((x1 - x2) * (x1 - x2) + (y1 - y2) * (y1 - y2))).
Proof.
  intros E1 E2 E3 E4. unfold euclidean, fsqrt. rewrite E1, E2, E3, E4.
  simpl. destruct (Rlt_dec _ 0) as [H|_]; [|reflexivity].
  pose proof (Rle_0_sqr (x1 - x2)) as H1. pose proof (Rle_0_sqr (y1 - y2)) as H2.
  unfold Rsqr in *. lra.
Qed.

Lemma euclidean_zero_inv (a b : Observation) :
  euclidean a b = Num 0 ->
  latitude a = latitude b /\ longitude a = longitude b.
Proof.
  destruct (latitude a) as [|x1] eqn:E1, (longitude a) as [|y1] eqn:E2,
    (latitude b) as [|x2] eqn:E3, (longitude b) as [|y2] eqn:E4;
    try (unfold euclidean; rewrite E1, E2, E3, E4; discriminate).
  rewrite (euclidean_value a b E1 E2 E3 E4). intros [= H].
  pose proof (Rle_0_sqr (x1 - x2)) as H1. pose proof (Rle_0_sqr (y1 - y2)) as H2.
  unfold Rsqr in *.
  apply sqrt_eq_0 in H; [|lra].
  assert (Hx : (x1 - x2) * (x1 - x2) = 0) by lra.
  assert (Hy : (y1 - y2) * (y1 - y2) = 0) by lra.
  apply Rmult_integral in Hx. apply Rmult_integral in Hy.
  split; f_equal; lra.
Qed.

Lemma euclidean_nonneg (a b : Observation) (x : R) :
  euclidean a b = Num x -> 0 <= x.
Proof.
  unfold euclidean, fsqrt.
  destruct (fadd _ _) as [|y]; [discriminate|].
  destruct (Rlt_dec y 0); [discriminate|]. intros [= <-]. apply sqrt_pos.
Qed.

Lemma euclidean_self (o : Observation) :
  is_nan (latitude o) = false -> is_nan (longitude o) = false ->
  euclidean o o = Num 0.
Proof.
  destruct (latitude o) as [|x] eqn:Ex; [discriminate|].
  destruct (longitude o) as [|y] eqn:Ey; [discriminate|]. intros _ _.
  rewrite (euclidean_value o o Ex Ey Ex Ey). f_equal.
  rewrite <- sqrt_0. f_equal. lra.
Qed.

Lemma distance_to_cdist (obs : list Observation) (i k : nat)
  (o o' : Observation) :
  nth_error obs i = Some o -> nth_error obs k = Some o' ->
  distance_to (cdist obs) i k = euclidean o o'.
Proof.
  intros Hi Hk. unfold distance_to. rewrite (cdist_row _ _ Hi).
  erewrite nth_error_nth; [reflexivity|].
  now rewrite nth_error_map, Hk.
Qed.

(** X11.  An observation with coordinates whose place no other observation
    of the batch shares is never selected as its own neighbour: the index
    that the slice skips is its own. *)
Theorem own_index_is_skipped :
  forall (df : DataFrame) (i : nat) (o : Observation),
    nth_error (rows df) i = Some o ->
    is_nan (latitude o) = false ->
    is_nan (longitude o) = false ->
    (forall k o', k <> i -> nth_error (rows df) k = Some o' ->
                  latitude o' <> latitude o \/ longitude o' <> longitude o) ->
    skipped_index (cdist (rows df)) i = i /\
    ~ In i (nearest_indices (cdist (rows df)) i).
Proof.
  intros df i o Hi Hlat Hlon Hother.
  assert (Hlt : (i < length (rows df))%nat)
    by (apply nth_error_Some; congruence).
  destruct (nearest_indices_are_nearest_row df Hlt)
    as (Hnd & Hsk & Hmin).
  assert (Hskip : skipped_index (cdist (rows df)) i = i).
  { set (sk := skipped_index (cdist (rows df)) i) in *.
    destruct (Nat.eq_dec sk i) as [E|Hne]; [exact E|]. exfalso.
    destruct (nth_error (rows df) sk) as [o'|] eqn:Esk;
      [|apply nth_error_None in Esk; lia].
    specialize (Hmin i Hlt).
    rewrite (distance_to_cdist _ _ _ Hi Esk),
      (distance_to_cdist _ _ _ Hi Hi), (euclidean_self o Hlat Hlon) in Hmin.
    unfold no_farther, sort_leb, Rleb in Hmin.
    destruct (euclidean o o') as [|x] eqn:Ed; [discriminate|].
    destruct (Rle_dec x 0) as [Hx|]; [|discriminate].
    pose proof (euclidean_nonneg _ _ Ed) as Hx0.
    assert (x = 0) by lra. subst x.
    apply euclidean_zero_inv in Ed as [E1 E2].
    destruct (Hother sk o' Hne Esk) as [H|H]; congruence. }
  split; [exact Hskip|].
  rewrite Hskip in Hnd. inversion Hnd. assumption.
Qed.

Lemma own_index_is_skipped_witness :
  skipped_index (cdist (rows two_latitudes)) 0 = 0%nat /\
  ~ In 0%nat (nearest_indices (cdist (rows two_latitudes)) 0).
Proof.
  apply (@own_index_is_skipped two_latitudes 0%nat
           (station (Num 3) (Num 0) (Num 60))); try reflexivity.
  intros [|[|k]] o' Hk Ho'; [congruence | | destruct k; discriminate].
  injection Ho' as <-. left. simpl. intros [= H]. lra.
Defined.

(* ================================================================== *)
(** * Gradients and the temperature unit *)
(* ================================================================== *)

Lemma mapM_map_compat (A B : Type) (f f' : A -> result B) (k : B -> B)
  (l : list A) (bs : list B) :
  (forall x b, f x = Ok b -> f' x = Ok (k b)) ->
  mapM f l = Ok bs -> mapM f' l = Ok (map k bs).
Proof.
  intros H. revert bs. induction l as [|a l IH]; intros bs; simpl.
  - intros [= <-]. reflexivity.
  - destruct (f a) as [b|] eqn:Ea; [|discriminate]. simpl.
    destruct (mapM f l) as [bs'|] eqn:El; [|discriminate]. simpl.
    intros [= <-]. rewrite (H a b Ea). simpl.
    rewrite (IH bs' eq_refl). reflexivity.
Qed.

Lemma cdist_rescale (a b : R) (obs : list Observation) :
  cdist (map (rescale_observation a b) obs) = cdist obs.
Proof.
  unfold cdist. rewrite map_map. apply map_ext. intros o.
  rewrite map_map. apply map_ext. intros o'. reflexivity.
Qed.

Lemma nth_rescale (a b : R) (xs : list float) (i : nat) :
  nth i (map (rescale a b) xs) NaN = rescale a b (nth i xs NaN).
Proof. apply (map_nth (rescale a b) xs NaN i). Qed.

Lemma take_rescale (a b : R) (xs : list float) (idx : list nat) :
  take (map (rescale a b) xs) idx = map (rescale a b) (take xs idx).
Proof.
  unfold take. rewrite map_map. apply map_ext. intros j. apply nth_rescale.
Qed.

Lemma pd_mean_rescale_any (a b : R) (xs : list float) :
  pd_mean (map (rescale a b) xs) = rescale a b (pd_mean xs).
Proof.
  destruct (Nat.lt_ge_cases (pd_count xs) 1) as [H|H].
  - unfold pd_mean, pd_count in *. rewrite dropna_rescale.
    destruct (dropna xs); [reflexivity | simpl in H; lia].
  - rewrite pd_mean_rescale, (pd_mean_value xs) by assumption. reflexivity.
Qed.

Lemma gradient_rescale (a b : R) (t mu d g : float) :
  gradient (fsub t mu) d = Ok g ->
  gradient (fsub (rescale a b t) (rescale a b mu)) d = Ok (fmul (Num a) g).
Proof.
  unfold gradient. destruct (fgtb d (Num 0)) eqn:Ed.
  - unfold fgtb in Ed. destruct d as [|y]; [discriminate|].
    destruct (Rlt_dec 0 y) as [Hy|]; [|discriminate].
    unfold fdiv. destruct (Req_dec_T y 0); [lra|].
    destruct t as [|x], mu as [|m]; simpl; intros [= <-]; try reflexivity.
    simpl. do 2 f_equal. field. lra.
  - intros [= <-]. simpl. do 2 f_equal. ring.
Qed.

Lemma temp_gradient_rescale (a b : R) (df : DataFrame) (i : nat) (g : float) :
  temp_gradient df (cdist (rows df)) i = Ok g ->
  temp_gradient (rescale_temperature a b df)
                (cdist (rows (rescale_temperature a b df))) i
  = Ok (fmul (Num a) g).
Proof.
  simpl rows. rewrite cdist_rescale. unfold temp_gradient.
  destruct (0 <? length (nearest_indices (cdist (rows df)) i))%nat.
  - rewrite col_temperature_rescale, nth_rescale, take_rescale,
      pd_mean_rescale_any.
    apply gradient_rescale.
  - intros [= <-]. simpl. do 2 f_equal. ring.
Qed.

(** X12.  On a batch of two or more observations, replacing every
    temperature x by a x + b multiplies every gradient by a (a missing
    gradient stays missing); so adding a constant to all temperatures
    changes no gradient. *)
Theorem gradients_scale_with_unit :
  forall (df : DataFrame) (a b : R),
    (2 <= length (rows df))%nat ->
    exists df1 df2 gs,
      calculate_weather_gradients df = Ok df1 /\
      df_temperature_gradient df1 = Some gs /\
      calculate_weather_gradients (rescale_temperature a b df) = Ok df2 /\
      df_temperature_gradient df2 = Some (map (fmul (Num a)) gs) /\
      (a = 1 -> df_temperature_gradient df2 = Some gs).
Proof.
  intros df a b Hn.
  destruct (calculate_weather_gradients_total df) as (df1 & Hcall & _ & Hlarge).
  destruct (Hlarge Hn) as (gs & Hgs & _ & ->).
  assert (Hn' : (2 <= length (rows (rescale_temperature a b df)))%nat)
    by (simpl; now rewrite length_map).
  exists (set_temperature_gradient df gs),
    (set_temperature_gradient (rescale_temperature a b df)
                              (map (fmul (Num a)) gs)), gs.
  split; [exact Hcall|]. split; [reflexivity|].
  split.
  - rewrite calculate_weather_gradients_large by assumption.
    rewrite (@mapM_map_compat _ _ (temp_gradient df (cdist (rows df))) _
               (fmul (Num a)) _ gs).
    + reflexivity.
    + intros i g. apply temp_gradient_rescale.
    + simpl rows. now rewrite length_map.
  - split; [reflexivity|]. intros ->. simpl. f_equal.
    rewrite <- (map_id gs) at 2. apply map_ext.
    intros [|g]; [reflexivity|]. simpl. f_equal. ring.
Qed.

Lemma gradients_scale_with_unit_witness :
  exists df1 df2 gs,
    calculate_weather_gradients three_stations = Ok df1 /\
    df_temperature_gradient df1 = Some gs /\
    calculate_weather_gradients
      (rescale_temperature (5 / 9) (-160 / 9) three_stations) = Ok df2 /\
    df_temperature_gradient df2 = Some (map (fmul (Num (5 / 9))) gs).
Proof.
  destruct (@gradients_scale_with_unit three_stations (5 / 9) (-160 / 9))
    as (df1 & df2 & gs & H1 & H2 & H3 & H4 & _); [simpl; lia|].
  now exists df1, df2, gs.
Defined.

(* ================================================================== *)
(** * Two stations *)
(* ================================================================== *)

Lemma argsort_near_far (d : R) :
  0 < d ->
  slice_1_4 (argsort [Num 0; Num d]) = [1%nat] /\
  slice_1_4 (argsort [Num d; Num 0]) = [0%nat].
Proof.
  intros Hd. unfold argsort, slice_1_4. simpl. unfold Rleb.
  destruct (Rle_dec 0 d); [|lra]. destruct (Rle_dec d 0); [lra|].
  split; reflexivity.
Qed.

(** X13.  For a batch of exactly two observations at different places,
    both with a temperature, the two gradients are (t0 - t1) / d and
    (t1 - t0) / d, where d is the Euclidean distance between the two
    places in degrees: opposite numbers, positive at the warmer station. *)
Theorem two_station_gradients :
  forall (df : DataFrame) (o0 o1 : Observation) (x0 y0 x1 y1 t0 t1 : R),
    rows df = [o0; o1] ->
    latitude o0 = Num x0 -> longitude o0 = Num y0 ->
    latitude o1 = Num x1 -> longitude o1 = Num y1 ->
    temperature o0 = Num t0 -> temperature o1 = Num t1 ->
    x0 <> x1 \/ y0 <> y1 ->
    exists df',
      calculate_weather_gradients df = Ok df' /\
      df_temperature_gradient df'
      = Some [Num ((t0 - t1)
                   / sqrt ((x0 - x1) * (x0 - x1) + (y0 - y1) * (y0 - y1)));
              Num ((t1 - t0)
                   / sqrt ((x0 - x1) * (x0 - x1) + (y0 - y1) * (y0 - y1)))].
Proof.
  intros df o0 o1 x0 y0 x1 y1 t0 t1 Hrows Hx0 Hy0 Hx1 Hy1 Ht0 Ht1 Hdiff.
  set (d := sqrt ((x0 - x1) * (x0 - x1) + (y0 - y1) * (y0 - y1))).
  assert (Hd : 0 < d).
  { apply sqrt_lt_R0.
    pose proof (Rle_0_sqr (x0 - x1)) as H1.
    pose proof (Rle_0_sqr (y0 - y1)) as H2. unfold Rsqr in *.
    destruct Hdiff as [H|H].
    - assert ((x0 - x1) * (x0 - x1) <> 0)
        by (intros E; apply Rmult_integral in E; lra). lra.
    - assert ((y0 - y1) * (y0 - y1) <> 0)
        by (intros E; apply Rmult_integral in E; lra). lra. }
  assert (H00 : euclidean o0 o0 = Num 0)
    by (apply euclidean_self; [now rewrite Hx0 | now rewrite Hy0]).
  assert (H11 : euclidean o1 o1 = Num 0)
    by (apply euclidean_self; [now rewrite Hx1 | now rewrite Hy1]).
  assert (H01 : euclidean o0 o1 = Num d)
    by (unfold d; apply euclidean_value; assumption).
  assert (H10 : euclidean o1 o0 = Num d).
  { rewrite (euclidean_value o1 o0 Hx1 Hy1 Hx0 Hy0). unfold d.
    do 2 f_equal. ring. }
  clearbody d.
  destruct (argsort_near_far Hd) as [Hs0 Hs1].
  exists (set_temperature_gradient df
            [Num ((t0 - t1) / d); Num ((t1 - t0) / d)]).
  split; [|reflexivity].
  rewrite calculate_weather_gradients_large by (rewrite Hrows; simpl; lia).
  rewrite Hrows. unfold cdist. simpl map. rewrite H00, H01, H10, H11.
  simpl length. simpl seq. simpl mapM.
  unfold temp_gradient, neighbor_distance, nearest_indices, col.
  rewrite Hrows. simpl nth. rewrite Hs0, Hs1. simpl map.
  rewrite Ht0, Ht1. unfold take. simpl map. simpl length. simpl Nat.ltb.
  unfold pd_mean, np_mean. simpl.
  unfold gradient, fgtb, fdiv.
  destruct (Rlt_dec 0 ((d + 0) / 1)) as [_|N]; [|exfalso; apply N; lra].
  destruct (Req_dec_T ((d + 0) / 1) 0) as [E|_]; [lra|].
  simpl.
  replace ((t0 - (t1 + 0) / 1) / ((d + 0) / 1)) with ((t0 - t1) / d)
    by (field; lra).
  replace ((t1 - (t0 + 0) / 1) / ((d + 0) / 1)) with ((t1 - t0) / d)
    by (field; lra).
  reflexivity.
Qed.

Lemma two_station_gradients_witness :
  exists df',
    calculate_weather_gradients two_latitudes = Ok df' /\
    df_temperature_gradient df'
    = Some [Num ((60 - 70) / sqrt ((3 - 4) * (3 - 4) + (0 - 0) * (0 - 0)));
            Num ((70 - 60) / sqrt ((3 - 4) * (3 - 4) + (0 - 0) * (0 - 0)))].
Proof.
  apply (@two_station_gradients two_latitudes
           (station (Num 3) (Num 0) (Num 60))
           (station (Num 4) (Num 0) (Num 70)) 3 0 4 0 60 70);
    try reflexivity.
  left. lra.
Defined.

(* ================================================================== *)
(** * Cleaning *)
(* ================================================================== *)

Lemma select_filter (A : Type) (p : A -> bool) (l : list A) :
  select (map p l) l = filter p l.
Proof.
  induction l as [|a l IH]; simpl; [reflexivity|].
  destruct (p a); now rewrite IH.
Qed.

Lemma select_all (A B : Type) (l : list B) (c : list A) :
  (length c <= length l)%nat -> select (map (fun _ => true) l) c = c.
Proof.
  revert c. induction l as [|b l IH]; intros [|a c]; simpl; intros H;
    try reflexivity; try lia.
  rewrite IH by lia. reflexivity.
Qed.

Lemma select_length (A B : Type) (mask : list bool) (l : list B) (c : list A) :
  length mask = length l ->
  (length (select mask c) <= length (select mask l))%nat.
Proof.
  revert l c. induction mask as [|m mask IH]; intros [|b l] [|a c] H;
    simpl in *; try lia; try discriminate.
  - destruct m; simpl; lia.
  - injection H as H. specialize (IH l c H). destruct m; simpl; lia.
Qed.

Lemma category_bins_increasing : increasing category_bins = true.
Proof.
  simpl.
  destruct (Rlt_dec 32 50); [|lra]. destruct (Rlt_dec 50 70); [|lra].
  destruct (Rlt_dec 70 90); [|lra]. reflexivity.
Qed.

(** The five temperature categories: right-closed intervals. *)
Lemma find_bin_category (x : R) :
  find_bin x category_bins category_labels
  = Some (if Rle_dec x 32 then Freezing
          else if Rle_dec x 50 then Cold
          else if Rle_dec x 70 then Cool
          else if Rle_dec x 90 then Warm
          else Hot).
Proof.
  unfold category_bins, category_labels, find_bin, above_edge, upto_edge,
    edge_ltb, Rleb.
  destruct (Rle_dec x 32), (Rle_dec x 50), (Rle_dec x 70), (Rle_dec x 90),
    (Rlt_dec 32 x), (Rlt_dec 50 x), (Rlt_dec 70 x), (Rlt_dec 90 x);
    simpl; try reflexivity; lra.
Qed.

Lemma clean_weather_data_nonempty (f : CleanFrame) :
  rows (frame f) <> [] ->
  clean_weather_data f
  = Ok (mkCleanFrame
          (frame (dropna_coordinates f))
          (Some (map category_of
                     (col temperature (frame (dropna_coordinates f)))))).
Proof.
  intros H. unfold clean_weather_data, df_empty.
  destruct (rows (frame f)) eqn:E; [congruence|].
  unfold pd_cut. rewrite category_bins_increasing. reflexivity.
Qed.

Lemma clean_weather_data_empty (f : CleanFrame) :
  rows (frame f) = [] -> clean_weather_data f = Ok f.
Proof. intros E. unfold clean_weather_data, df_empty. now rewrite E. Qed.

Lemma rows_dropna_coordinates (f : CleanFrame) :
  rows (frame (dropna_coordinates f))
  = filter has_coordinates (rows (frame f)).
Proof. simpl. apply select_filter. Qed.

Lemma has_coordinates_spec (o : Observation) :
  has_coordinates o = true <->
  is_nan (latitude o) = false /\ is_nan (longitude o) = false.
Proof.
  unfold has_coordinates.
  destruct (is_nan (latitude o)), (is_nan (longitude o)); simpl;
    intuition discriminate.
Qed.

(** X14.  Cleaning never fails.  The cleaned frame holds, in their order,
    exactly the rows of the input that have both coordinates, and (for a
    non-empty input) a temp_category per row: missing for a missing
    temperature, Freezing up to 32, Cold above 32 up to 50, Cool above 50 up
    to 70, Warm above 70 up to 90 and Hot above 90, each threshold belonging
    to the category below it. *)
Theorem clean_weather_data_result :
  forall f : CleanFrame,
  exists cf,
    clean_weather_data f = Ok cf /\
    rows (frame cf) = filter has_coordinates (rows (frame f)) /\
    (rows (frame f) <> [] ->
     exists c,
       temp_category cf = Some c /\
       length c = length (rows (frame cf)) /\
       forall i o,
         nth_error (rows (frame cf)) i = Some o ->
         (temperature o = NaN -> nth_error c i = Some None) /\
         (forall x,
             temperature o = Num x ->
             (x <= 32 -> nth_error c i = Some (Some Freezing)) /\
             (32 < x <= 50 -> nth_error c i = Some (Some Cold)) /\
             (50 < x <= 70 -> nth_error c i = Some (Some Cool)) /\
             (70 < x <= 90 -> nth_error c i = Some (Some Warm)) /\
             (90 < x -> nth_error c i = Some (Some Hot)))).
Proof.
  intros f.
  assert (Hcase : rows (frame f) = [] \/ rows (frame f) <> [])
    by (destruct (rows (frame f)); [left | right]; congruence).
  destruct Hcase as [E|Hr].
  - exists f. rewrite (clean_weather_data_empty f E), E.
    split; [reflexivity|]. split; [reflexivity | congruence].
  - eexists. rewrite (clean_weather_data_nonempty f Hr).
    split; [reflexivity|]. split; [apply rows_dropna_coordinates|].
    intros _. eexists. split; [reflexivity|].
    split; [unfold col; now rewrite !length_map|].
    intros i o Hi. cbn [frame] in Hi.
    unfold col. rewrite !nth_error_map, Hi. cbn [option_map].
    split; [now intros ->|].
    intros x ->. unfold category_of. rewrite find_bin_category.
    repeat split; intros H;
      destruct (Rle_dec x 32), (Rle_dec x 50), (Rle_dec x 70), (Rle_dec x 90);
      try reflexivity; lra.
Qed.

Lemma filter_has_coordinates_id (l : list Observation) :
  filter has_coordinates (filter has_coordinates l)
  = filter has_coordinates l.
Proof.
  apply forallb_filter_id, forallb_forall.
  intros o Ho. now apply filter_In in Ho.
Qed.

Lemma select_select (A : Type) (obs : list Observation) (c : list A) :
  select (map has_coordinates (select (map has_coordinates obs) obs))
         (select (map has_coordinates obs) c)
  = select (map has_coordinates obs) c.
Proof.
  rewrite select_filter.
  rewrite (map_ext_in has_coordinates (fun _ => true))
    by (intros o Ho; now apply filter_In in Ho).
  apply select_all. rewrite <- select_filter.
  apply select_length. now rewrite length_map.
Qed.

Lemma dropna_coordinates_idempotent (f : CleanFrame) :
  frame (dropna_coordinates (dropna_coordinates f))
  = frame (dropna_coordinates f).
Proof.
  destruct f as [[obs glat glon tz grad] tc]. unfold dropna_coordinates.
  cbn [frame rows df_grid_lat df_grid_lon df_temp_zone
       df_temperature_gradient temp_category].
  f_equal.
  - apply select_select.
  - destruct glat; simpl; [now rewrite select_select | reflexivity].
  - destruct glon; simpl; [now rewrite select_select | reflexivity].
  - destruct tz; simpl; [now rewrite select_select | reflexivity].
  - destruct grad; simpl; [now rewrite select_select | reflexivity].
Qed.

Lemma frame_dropna_coordinates (f g : CleanFrame) :
  frame f = frame g ->
  frame (dropna_coordinates f) = frame (dropna_coordinates g).
Proof. intros H. unfold dropna_coordinates. cbn [frame]. now rewrite H. Qed.

(** X15.  Cleaning a frame that is already cleaned changes nothing. *)
Theorem clean_weather_data_idempotent :
  forall f cf : CleanFrame,
    clean_weather_data f = Ok cf -> clean_weather_data cf = Ok cf.
Proof.
  intros f cf.
  assert (Hcase : rows (frame f) = [] \/ rows (frame f) <> [])
    by (destruct (rows (frame f)); [left | right]; congruence).
  destruct Hcase as [E|Hr].
  - rewrite (clean_weather_data_empty f E). intros [= <-].
    now apply clean_weather_data_empty.
  - rewrite (clean_weather_data_nonempty f Hr). intros [= <-].
    set (cf := mkCleanFrame _ _).
    assert (Hcase : rows (frame cf) = [] \/ rows (frame cf) <> [])
      by (destruct (rows (frame cf)); [left | right]; congruence).
    destruct Hcase as [E'|Hr'].
    + now apply clean_weather_data_empty.
    + rewrite (clean_weather_data_nonempty cf Hr').
      assert (Hf : frame (dropna_coordinates cf) = frame cf).
      { rewrite (@frame_dropna_coordinates cf (dropna_coordinates f))
          by reflexivity.
        apply dropna_coordinates_idempotent. }
      rewrite Hf. reflexivity.
Qed.

Lemma clean_weather_data_idempotent_witness :
  exists cf,
    clean_weather_data (raw missing_then_present) = Ok cf /\
    clean_weather_data cf = Ok cf.
Proof.
  eexists. split.
  - apply clean_weather_data_nonempty. discriminate.
  - apply (@clean_weather_data_idempotent (raw missing_then_present)).
    apply clean_weather_data_nonempty. discriminate.
Defined.

Lemma clean_weather_data_result_witness :
  exists cf c,
    clean_weather_data (raw three_stations) = Ok cf /\
    temp_category cf = Some c /\
    nth_error c 0 = Some (Some Cool).
Proof.
  destruct (clean_weather_data_result (raw three_stations))
    as (cf & Hcf & Hrows & Hcat).
  destruct Hcat as (c & Hc & _ & Hnth); [discriminate|].
  exists cf, c. split; [exact Hcf|]. split; [exact Hc|].
  destruct (Hnth 0%nat (station (Num 40) (Num (-74)) (Num 60))) as [_ H].
  - rewrite Hrows. reflexivity.
  - destruct (H 60 eq_refl) as (_ & _ & Hcool & _). apply Hcool. lra.
Defined.

(* ================================================================== *)
(** * Heatmap data and markers of a cleaned frame *)
(* ================================================================== *)

Lemma filter_nil_iff (A : Type) (p : A -> bool) (l : list A) :
  filter p l = [] -> forall q, filter (fun x => p x && q x) l = [].
Proof.
  induction l as [|a l IH]; simpl; [reflexivity|].
  destruct (p a); [discriminate|]. simpl. exact IH.
Qed.

(** X16.  The heatmap points that the map builder extracts from a cleaned
    frame are the heatmap points that the processor extracts from the
    uncleaned one: the rows with latitude, longitude and temperature all
    present, in their order; no point has a missing component. *)
Theorem heatmap_data_of_cleaned_frame :
  forall f cf : CleanFrame,
    clean_weather_data f = Ok cf ->
    map_heatmap_data (frame cf)
    = create_heatmap_data (frame f) latitude longitude temperature /\
    forall p, In p (map_heatmap_data (frame cf)) ->
              is_nan (fst (fst p)) = false /\
              is_nan (snd (fst p)) = false /\
              is_nan (snd p) = false.
Proof.
  intros f cf Hcf.
  assert (Heq : map_heatmap_data (frame cf)
                = create_heatmap_data (frame f) latitude longitude temperature).
  { assert (Hcase : rows (frame f) = [] \/ rows (frame f) <> [])
      by (destruct (rows (frame f)); [left | right]; congruence).
    destruct Hcase as [E|Hr].
    - rewrite (clean_weather_data_empty f E) in Hcf. injection Hcf as <-.
      unfold map_heatmap_data, create_heatmap_data, df_empty. now rewrite E.
    - rewrite (clean_weather_data_nonempty f Hr) in Hcf.
      remember (dropna_coordinates f) as d eqn:Ed.
      injection Hcf as <-. cbn [frame]. subst d.
      unfold map_heatmap_data, create_heatmap_data, df_empty.
      rewrite rows_dropna_coordinates.
      destruct (rows (frame f)) as [|o0 l0] eqn:E; [congruence|].
      rewrite <- E. clear E Hr.
      change (fun o => negb (is_nan (latitude o)) && negb (is_nan (longitude o))
                       && negb (is_nan (temperature o)))
        with (fun o => has_coordinates o && negb (is_nan (temperature o))).
      destruct (filter has_coordinates (rows (frame f))) eqn:Ef.
      + now rewrite (filter_nil_iff _ _ Ef).
      + rewrite <- Ef, filter_twice. reflexivity. }
  split; [exact Heq|].
  rewrite Heq. unfold create_heatmap_data.
  destruct (df_empty (frame f)); [intros p []|].
  intros p Hp. apply in_map_iff in Hp as (o & <- & Ho).
  apply filter_In in Ho as [_ Ho]. simpl.
  destruct (is_nan (latitude o)), (is_nan (longitude o)),
    (is_nan (temperature o)); try discriminate. auto.
Qed.

Lemma heatmap_data_of_cleaned_frame_witness :
  exists cf,
    clean_weather_data (raw missing_then_present) = Ok cf /\
    map_heatmap_data (frame cf)
    = create_heatmap_data missing_then_present latitude longitude temperature.
Proof.
  eexists. split; [apply clean_weather_data_nonempty; discriminate|].
  apply (@heatmap_data_of_cleaned_frame (raw missing_then_present)).
  apply clean_weather_data_nonempty. discriminate.
Defined.

Lemma marker_color_category (x : R) (c : temp_category_label) :
  category_of (Num x) = Some c ->
  (marker_color (Num x) = legend_color c
   <-> x <> 32 /\ x <> 50 /\ x <> 70 /\ x <> 90).
Proof.
  unfold category_of. rewrite find_bin_category.
  unfold marker_color, fltb, fgtb. simpl.
  destruct (Rle_dec x 32), (Rle_dec x 50), (Rle_dec x 70), (Rle_dec x 90),
    (Rlt_dec x 32), (Rlt_dec x 50), (Rlt_dec x 70), (Rlt_dec x 90);
    intros [= <-]; simpl; try lra;
    split; intros H; try discriminate; try reflexivity;
    try (repeat split; lra); try (exfalso; lra).
Qed.

(** X17.  On a cleaned frame the map builder draws one marker per row, at
    the row's coordinates.  The marker of a row without temperature is
    gray; the marker of a row with temperature x has the legend colour of
    the row's temp_category unless x is exactly 32, 50, 70 or 90, where the
    marker takes the colour of the next warmer category. *)
Theorem markers_of_cleaned_frame :
  forall (f cf : CleanFrame) (i : nat) (o : Observation),
    clean_weather_data f = Ok cf ->
    nth_error (rows (frame cf)) i = Some o ->
    length (observation_markers (frame cf)) = length (rows (frame cf)) /\
    exists m c,
      nth_error (observation_markers (frame cf)) i = Some m /\
      location m = (latitude o, longitude o) /\
      temp_category cf = Some c /\
      (temperature o = NaN ->
       fillColor m = gray /\ nth_error c i = Some None) /\
      (forall x, temperature o = Num x ->
                 exists cat,
                   nth_error c i = Some (Some cat) /\
                   (fillColor m = legend_color cat
                    <-> x <> 32 /\ x <> 50 /\ x <> 70 /\ x <> 90)).
Proof.
  intros f cf i o Hcf Hi.
  assert (Hr : rows (frame f) <> []).
  { intros E. rewrite (clean_weather_data_empty f E) in Hcf.
    injection Hcf as <-. rewrite E in Hi. destruct i; discriminate. }
  rewrite (clean_weather_data_nonempty f Hr) in Hcf.
  remember (dropna_coordinates f) as d eqn:Ed.
  injection Hcf as <-. cbn [frame temp_category] in *. subst d.
  assert (Hm : observation_markers (frame (dropna_coordinates f))
               = map (fun o => mkMarker (latitude o, longitude o)
                                        (marker_color (temperature o)))
                     (rows (frame (dropna_coordinates f)))).
  { unfold observation_markers, df_empty.
    destruct (rows (frame (dropna_coordinates f))) eqn:E; [reflexivity|].
    rewrite <- E, rows_dropna_coordinates, filter_has_coordinates_id.
    reflexivity. }
  rewrite Hm. split; [apply length_map|].
  eexists _, _. rewrite nth_error_map, Hi. cbn [option_map].
  split; [reflexivity|]. split; [reflexivity|]. split; [reflexivity|].
  unfold col. rewrite !nth_error_map, Hi. cbn [option_map fillColor].
  split.
  - intros ->. split; reflexivity.
  - intros x ->. destruct (category_of (Num x)) as [cat|] eqn:Ec.
    + exists cat. split; [reflexivity|]. now apply marker_color_category.
    + unfold category_of in Ec. rewrite find_bin_category in Ec. discriminate.
Qed.

Lemma markers_of_cleaned_frame_witness :
  exists cf,
    clean_weather_data (raw three_stations) = Ok cf /\
    length (observation_markers (frame cf)) = length (rows (frame cf)).
Proof.
  eexists. split; [apply clean_weather_data_nonempty; discriminate|].
  apply (@markers_of_cleaned_frame (raw three_stations) _ 0%nat
           (station (Num 40) (Num (-74)) (Num 60))).
  - apply clean_weather_data_nonempty. discriminate.
  - reflexivity.
Defined.

(* ================================================================== *)
(** * The mapping pipeline *)
(* ================================================================== *)

Lemma create_weather_zones_outcome (df : DataFrame) (t : float) :
  rows df <> [] ->
  (all_equal (dropna (col temperature df)) /\
   create_weather_zones df t = (df, Raise ValueError)) \/
  (~ all_equal (dropna (col temperature df)) /\
   exists tz zones,
     create_weather_zones df t = (set_temp_zone df tz, Ok zones)).
Proof.
  intros Hr. rewrite create_weather_zones_nonempty by assumption.
  unfold pd_cut.
  destruct (Nat.lt_ge_cases (pd_count (col temperature df)) 2) as [Hc|Hc].
  - rewrite (pd_std_insufficient _ Hc), zone_bins_nan_std.
    left. split; [|reflexivity]. apply all_equal_short. exact Hc.
  - rewrite pd_mean_value by lia.
    destruct (pd_std (col temperature df)) as [|s] eqn:Es.
    { rewrite pd_std_value in Es by assumption. discriminate. }
    destruct (@pd_std_zero_iff (col temperature df) s Hc Es) as [Hs0 Hiff].
    destruct (increasing (zone_bins _ (Num s))) eqn:Einc.
    + apply zone_bins_increasing_iff in Einc. right. split.
      * intros Hall. apply Hiff in Hall. lra.
      * eauto.
    + left. split; [|reflexivity]. apply Hiff.
      destruct (Rle_lt_dec s 0) as [Hle|Hlt]; [lra|].
      apply (zone_bins_increasing_iff
               (Rsum (dropna (col temperature df))
                / INR (length (dropna (col temperature df)))))
        in Hlt. congruence.
Qed.

Lemma calculate_weather_gradients_rows (df df' : DataFrame) :
  calculate_weather_gradients df = Ok df' ->
  rows df' = rows df /\
  df_grid_lat df' = df_grid_lat df /\
  df_grid_lon df' = df_grid_lon df /\
  df_temp_zone df' = df_temp_zone df.
Proof.
  destruct (calculate_weather_gradients_total df) as (d & Hd & Hs & Hl).
  rewrite Hd. intros [= <-].
  destruct (Nat.lt_ge_cases (length (rows df)) 2) as [H|H].
  - rewrite (Hs H). auto.
  - destruct (Hl H) as (gs & _ & _ & ->). auto.
Qed.

(** The three ways the pipeline can go, by the rows of the batch that have
    both coordinates. *)
Lemma prepare_for_mapping_cases (obs : CleanFrame)
  (fc : option (list Forecast.t)) :
  (filter has_coordinates (rows (frame obs)) = [] /\
   exists r, prepare_for_mapping obs fc = Ok r) \/
  (filter has_coordinates (rows (frame obs)) <> [] /\
   all_equal
     (dropna (map temperature (filter has_coordinates (rows (frame obs))))) /\
   prepare_for_mapping obs fc = Raise ValueError) \/
  (filter has_coordinates (rows (frame obs)) <> [] /\
   ~ all_equal
       (dropna (map temperature (filter has_coordinates (rows (frame obs))))) /\
   exists final df1 zones fcc,
     prepare_for_mapping obs fc
     = Ok (MappingResult.mk
             (Some final)
             (Some (snd (aggregate_by_grid (frame (dropna_coordinates obs))
                                           (Num (1 / 100)))))
             (Some zones) (Some final) fcc) /\
     rows (frame final) = filter has_coordinates (rows (frame obs)) /\
     rows df1 = filter has_coordinates (rows (frame obs)) /\
     snd (create_weather_zones df1 (Num 5)) = Ok zones /\
     df_grid_lat (frame final) = df_grid_lat df1 /\
     df_grid_lon (frame final) = df_grid_lon df1 /\
     df1 = fst (aggregate_by_grid (frame (dropna_coordinates obs))
                                  (Num (1 / 100))) /\
     df_temp_zone (frame final)
     = df_temp_zone (fst (create_weather_zones df1 (Num 5))) /\
     temp_category final
     = Some (map category_of
                 (map temperature
                      (filter has_coordinates (rows (frame obs)))))).
Proof.
  unfold prepare_for_mapping.
  assert (Hcase : rows (frame obs) = [] \/ rows (frame obs) <> [])
    by (destruct (rows (frame obs)); [left | right]; congruence).
  destruct Hcase as [E|Hr].
  { left. unfold df_empty. rewrite E. split; [reflexivity|].
    eexists. reflexivity. }
  assert (He : df_empty (frame obs) = false).
  { unfold df_empty. destruct (rows (frame obs)); congruence. }
  rewrite He, (clean_weather_data_nonempty obs Hr). cbn [bind].
  cbn [frame temp_category].
  pose proof (rows_dropna_coordinates obs) as Hrows.
  remember (dropna_coordinates obs) as d eqn:Ed.
  set (loc := filter has_coordinates (rows (frame obs))) in *.
  assert (Hloc : loc = [] \/ loc <> [])
    by (destruct loc; [left | right]; congruence).
  destruct Hloc as [El|Hl].
  - left. split; [exact El|].
    assert (Ha : aggregate_by_grid (frame d) (Num (1 / 100)) = (frame d, []))
      by (unfold aggregate_by_grid, df_empty; now rewrite Hrows, El).
    assert (Hz : create_weather_zones (frame d) (Num 5) = (frame d, Ok []))
      by (unfold create_weather_zones, df_empty; now rewrite Hrows, El).
    rewrite Ha. cbn [bind]. rewrite Hz. cbn [bind].
    rewrite calculate_weather_gradients_small by (rewrite Hrows, El; simpl; lia).
    cbn [bind]. eexists. reflexivity.
  - right.
    assert (Hd : rows (frame d) <> []) by (rewrite Hrows; exact Hl).
    rewrite (aggregate_by_grid_nonempty (frame d) (Num (1 / 100)) Hd).
    cbn [snd fst].
    set (df1 := set_grid (frame d) _ _).
    assert (Hr1 : rows df1 = loc) by exact Hrows.
    assert (Hd1 : rows df1 <> []) by (rewrite Hr1; exact Hl).
    assert (Hc1 : col temperature df1 = map temperature loc)
      by (unfold col; now rewrite Hr1).
    destruct (create_weather_zones_outcome df1 (Num 5) Hd1)
      as [[Hall Hz]|(Hnot & tz & zones & Hz)]; rewrite Hc1 in *.
    + left. split; [exact Hl|]. split; [exact Hall|].
      rewrite Hz. reflexivity.
    + right. split; [exact Hl|]. split; [exact Hnot|].
      rewrite Hz. cbn [bind].
      destruct (calculate_weather_gradients_total (set_temp_zone df1 tz))
        as (df3 & H3 & _).
      rewrite H3. cbn [bind].
      destruct (calculate_weather_gradients_rows _ H3)
        as (R3 & Glat & Glon & Tz).
      eexists _, df1, zones, _. split; [reflexivity|].
      cbn [frame fst snd temp_category]. rewrite R3, Glat, Glon, Tz.
      repeat split; auto; try (now rewrite Hz).
      unfold col. now rewrite Hrows.
Qed.



Lemma grid_station_counts_sum (df : DataFrame) (g : R) :
  0 < g ->
  (forall o, In o (rows df) -> has_coordinates o = true) ->
  list_sum (map GridRow.station_count (snd (aggregate_by_grid df (Num g))))
  = pd_count (col temperature df).
Proof.
  intros Hg Hall.
  assert (Hcase : rows df = [] \/ rows df <> [])
    by (destruct (rows df); [left | right]; congruence).
  destruct Hcase as [E|Hr].
  - unfold aggregate_by_grid, df_empty, col. rewrite E. reflexivity.
  - rewrite aggregate_by_grid_nonempty by assumption. cbn [snd].
    rewrite map_map.
    rewrite (map_ext _ (fun grp => list_sum
               (map (fun o => if is_nan (temperature o) then 0%nat else 1%nat)
                    (snd grp))))
      by (intros [[a b] grp]; apply pd_count_weight).
    rewrite groupby_weight. unfold col. rewrite pd_count_weight, map_map.
    f_equal. apply map_ext_in. intros o Ho. cbn [fst snd].
    destruct (proj1 (has_coordinates_spec o) (Hall o Ho)) as [Hlat Hlon].
    destruct (observation_key_present o Hg Hlat Hlon) as (k & ->).
    reflexivity.
Qed.

Lemma zone_station_counts_sum (df : DataFrame) (t : float)
  (zones : list ZoneRow.t) :
  snd (create_weather_zones df t) = Ok zones ->
  (forall o, In o (rows df) -> is_nan (latitude o) = false) ->
  list_sum (map ZoneRow.station_count zones) = pd_count (col temperature df).
Proof.
  intros Hok Hlat.
  assert (Hcase : rows df = [] \/ rows df <> [])
    by (destruct (rows df); [left | right]; congruence).
  destruct Hcase as [E|Hr].
  - rewrite (create_weather_zones_empty_table df t E) in Hok.
    injection Hok as <-. unfold col. rewrite E. reflexivity.
  - destruct (create_weather_zones_Ok_table df t Hr Hok)
      as (m & s & _ & _ & Hlt & ->).
    rewrite !map_map.
    rewrite (map_ext _ (fun g => list_sum
               (map (fun o => if is_nan (latitude o) then 0%nat else 1%nat)
                    (snd g))))
      by (intros [z grp]; apply pd_count_weight).
    rewrite groupby_weight. unfold col, pd_count.
    rewrite (map_map temperature (zone_of m s)).
    clear Hr Hok. induction (rows df) as [|o obs IH]; [reflexivity|].
    simpl. rewrite IH by (intros; apply Hlat; now right).
    rewrite (Hlat o) by now left.
    destruct (temperature o) as [|x]; [reflexivity|].
    destruct (zone_of_Num x Hlt) as (z & ->). reflexivity.
Qed.

(** X19.  When the pipeline returns for a batch with at least one located
    row, all four observation keys are set; [observations] and [gradients]
    are one frame whose rows are the rows of the batch that have both
    coordinates, carrying a [grid_lat], [grid_lon], [temp_zone] and
    [temp_category] entry for every row; and the station counts of the grid
    table and those of the zone table both add up to the number of these
    rows that have a temperature. *)
Theorem prepare_for_mapping_tables_agree :
  forall (obs : CleanFrame) (fc : option (list Forecast.t))
         (r : MappingResult.t),
    prepare_for_mapping obs fc = Ok r ->
    filter has_coordinates (rows (frame obs)) <> [] ->
    exists final grid zones glat glon tz tc,
      MappingResult.observations r = Some final /\
      MappingResult.gradients r = Some final /\
      MappingResult.grid_data r = Some grid /\
      MappingResult.weather_zones r = Some zones /\
      rows (frame final) = filter has_coordinates (rows (frame obs)) /\
      df_grid_lat (frame final) = Some glat /\
      df_grid_lon (frame final) = Some glon /\
      df_temp_zone (frame final) = Some tz /\
      temp_category final = Some tc /\
      length glat = length (rows (frame final)) /\
      length glon = length (rows (frame final)) /\
      length tz = length (rows (frame final)) /\
      length tc = length (rows (frame final)) /\
      list_sum (map GridRow.station_count grid)
      = pd_count (col temperature (frame final)) /\
      list_sum (map ZoneRow.station_count zones)
      = pd_count (col temperature (frame final)).
Proof.
  intros obs fc r Hok Hl.
  destruct (prepare_for_mapping_cases obs fc)
    as [[El _]|[(_ & _ & Hf)|(_ & _ & final & df1 & zones & fcc & Hr & Rf & R1
                              & Hz & Glat & Glon & Hdf1 & Tz & Tc)]].
  - contradiction.
  - rewrite Hf in Hok. discriminate.
  - rewrite Hr in Hok. injection Hok as <-.
    pose proof (rows_dropna_coordinates obs) as Hrows.
    assert (Hd : rows (frame (dropna_coordinates obs)) <> [])
      by (rewrite Hrows; exact Hl).
    assert (Hd1 : rows df1 <> []) by (rewrite R1; exact Hl).
    assert (Hloc : forall o,
               In o (filter has_coordinates (rows (frame obs))) ->
               has_coordinates o = true)
      by (intros o Ho; now apply filter_In in Ho).
    destruct (create_weather_zones_Ok_inv df1 (Num 5) Hd1 Hz)
      as (m & s & _ & _ & _ & Hfst).
    rewrite Hfst in Tz. cbn [set_temp_zone df_temp_zone] in Tz.
    rewrite (aggregate_by_grid_nonempty _ (Num (1 / 100)) Hd) in Hdf1.
    cbn [fst] in Hdf1.
    assert (Hg1 : df_grid_lat df1
                  = Some (map (fun o => grid_coord (latitude o) (Num (1 / 100)))
                              (rows (frame (dropna_coordinates obs)))))
      by (rewrite Hdf1; reflexivity).
    assert (Hg2 : df_grid_lon df1
                  = Some (map (fun o => grid_coord (longitude o) (Num (1 / 100)))
                              (rows (frame (dropna_coordinates obs)))))
      by (rewrite Hdf1; reflexivity).
    rewrite Hg1 in Glat. rewrite Hg2 in Glon.
    eexists final, _, zones, _, _, _, _.
    split; [reflexivity|]. split; [reflexivity|]. split; [reflexivity|].
    split; [reflexivity|]. split; [exact Rf|]. split; [exact Glat|].
    split; [exact Glon|]. split; [exact Tz|]. split; [exact Tc|].
    unfold col. rewrite Rf, !length_map, Hrows, R1.
    split; [reflexivity|]. split; [reflexivity|]. split; [reflexivity|].
    split; [reflexivity|]. split.
    + rewrite <- Hrows in Hloc |- *.
      apply (@grid_station_counts_sum (frame (dropna_coordinates obs))
               (1 / 100)); [lra | exact Hloc].
    + rewrite (@zone_station_counts_sum df1 (Num 5) zones Hz).
      * unfold col. now rewrite R1.
      * rewrite R1. intros o Ho.
        now apply (proj1 (has_coordinates_spec o) (Hloc o Ho)).
Qed.

Lemma prepare_for_mapping_tables_agree_witness :
  exists r final,
    prepare_for_mapping (raw three_stations) None = Ok r /\
    MappingResult.observations r = Some final /\
    MappingResult.gradients r = Some final /\
    rows (frame final) = rows three_stations.
Proof.
  destruct (prepare_for_mapping_cases (raw three_stations) None)
    as [[El _]|[(_ & Hall & _)|(Hl & _ & final & df1 & zones & fcc & Hr & _)]].
  - discriminate.
  - exfalso. specialize (Hall 60 70).
    assert (60 = 70) by (apply Hall; simpl; auto). lra.
  - destruct (prepare_for_mapping_tables_agree _ _ Hr Hl)
      as (final' & grid & zones' & glat & glon & tz & tc & Ho & Hg & _ & _
          & Hrows & _).
    eexists _, final'. split; [exact Hr|]. split; [exact Ho|].
    split; [exact Hg|]. exact Hrows.
Defined.

(* ================================================================== *)
(** * Deduplicating and batching requests *)
(* ================================================================== *)

Section RequestProperties.
Variable Request : Type.
Variable req_key : Request -> Z.

Lemma existsb_eqb_In (k : Z) (s : list Z) :
  existsb (Z.eqb k) s = true <-> In k s.
Proof.
  rewrite existsb_exists. split.
  - intros (x & Hx & E). apply Z.eqb_eq in E. now subst.
  - intros H. exists k. split; [exact H | apply Z.eqb_refl].
Qed.

Lemma seen_after_append (u : list Request) (req : Request) :
  req_key req :: rev (map req_key u) = rev (map req_key (u ++ [req])).
Proof. rewrite map_app, rev_app_distr. reflexivity. Qed.

(** The loop, started with [u] already kept and the keys of [u] seen. *)
Lemma optimize_loop (l : list Request) :
  forall u,
  exists ext mask,
    fold_left (optimize_step req_key) l (u, rev (map req_key u))
    = (u ++ ext, rev (map req_key (u ++ ext))) /\
    length mask = length l /\
    ext = select mask l /\
    (NoDup (map req_key u) -> NoDup (map req_key (u ++ ext))) /\
    (forall r, In r l -> In (req_key r) (map req_key (u ++ ext))) /\
    (forall r, In r ext ->
               exists l1 l2, l = l1 ++ r :: l2 /\
                             ~ In (req_key r) (map req_key (u ++ l1))) /\
    (NoDup (map req_key (u ++ l)) -> ext = l).
Proof.
  induction l as [|req l IH]; intros u.
  - exists [], []. rewrite app_nil_r. simpl.
    repeat split; auto; intros r [].
  - cbn [fold_left]. unfold optimize_step at 2.
    destruct (existsb (Z.eqb (req_key req)) (rev (map req_key u))) eqn:Es.
    + apply existsb_eqb_In in Es. apply in_rev in Es.
      destruct (IH u) as (ext & mask & Hf & Hlen & Hsel & Hnd & Hin & Hfirst
                          & Hid).
      exists ext, (false :: mask). split; [exact Hf|].
      split; [simpl; now rewrite Hlen|]. split; [exact Hsel|].
      split; [exact Hnd|]. split; [|split].
      * intros r [<-|Hr]; [|now apply Hin].
        rewrite map_app. apply in_or_app. now left.
      * intros r Hr. destruct (Hfirst r Hr) as (l1 & l2 & -> & Hnot).
        exists (req :: l1), l2. split; [reflexivity|].
        rewrite map_app in *. cbn [map]. intros H.
        apply in_app_or in H as [H|[H|H]].
        -- apply Hnot, in_or_app. now left.
        -- apply Hnot, in_or_app. left. now rewrite <- H.
        -- apply Hnot, in_or_app. now right.
      * intros H. exfalso. rewrite map_app in H. cbn [map] in H.
        apply NoDup_remove_2 in H. apply H, in_or_app. now left.
    + assert (Hnew : ~ In (req_key req) (map req_key u)).
      { intros H. apply in_rev, existsb_eqb_In in H. congruence. }
      rewrite seen_after_append.
      destruct (IH (u ++ [req])) as (ext & mask & Hf & Hlen & Hsel & Hnd & Hin
                                     & Hfirst & Hid).
      rewrite <- !app_assoc in *. cbn [app] in *.
      exists (req :: ext), (true :: mask). split; [exact Hf|].
      split; [simpl; now rewrite Hlen|].
      split; [simpl; now rewrite Hsel|]. split; [|split; [|split]].
      * intros Hu. apply Hnd. rewrite map_app. cbn [map].
        apply NoDup_app; [exact Hu | repeat constructor; intros [] |].
        intros a Ha [<-|[]]. contradiction.
      * intros r [<-|Hr]; [|now apply Hin].
        rewrite map_app. apply in_or_app. right. now left.
      * intros r [<-|Hr].
        -- exists [], l. split; [reflexivity|]. now rewrite app_nil_r.
        -- destruct (Hfirst r Hr) as (l1 & l2 & -> & Hnot).
           exists (req :: l1), l2. split; [reflexivity|].
           rewrite <- app_assoc in Hnot. exact Hnot.
      * intros H. f_equal. apply Hid. exact H.
Qed.

(** X20.  Deduplication keeps, in their order, exactly the requests that
    are the first of the list with their key: no two kept requests share a
    key, every key of the list is the key of a kept request, and a list
    without repeated keys is returned unchanged.  Two different requests
    with the same key count as duplicates. *)
Theorem optimize_api_requests_keeps_first_of_each_key :
  forall l : list Request,
    NoDup (map req_key (optimize_api_requests req_key l)) /\
    (forall k, In k (map req_key l)
               <-> In k (map req_key (optimize_api_requests req_key l))) /\
    (exists mask, length mask = length l /\
                  optimize_api_requests req_key l = select mask l) /\
    (forall r, In r (optimize_api_requests req_key l) ->
               exists l1 l2, l = l1 ++ r :: l2 /\
                             ~ In (req_key r) (map req_key l1)) /\
    (NoDup (map req_key l) -> optimize_api_requests req_key l = l).
Proof.
  intros l. unfold optimize_api_requests.
  destruct (optimize_loop l []) as (ext & mask & Hf & Hlen & Hsel & Hnd & Hin
                                    & Hfirst & Hid).
  cbn [map rev app] in *. rewrite Hf. cbn [fst].
  split; [apply Hnd; constructor|]. split; [|split; [|split]].
  - intros k. split.
    + intros H. apply in_map_iff in H as (r & <- & Hr). now apply Hin.
    + intros H. apply in_map_iff in H as (r & <- & Hr).
      destruct (Hfirst r Hr) as (l1 & l2 & -> & _).
      apply in_map, in_or_app. right. now left.
  - exists mask. split; [exact Hlen | exact Hsel].
  - exact Hfirst.
  - exact Hid.
Qed.
End RequestProperties.

Section BatchProperties.
Variable Request : Type.

Lemma firstn_add_skipn (a b : nat) (l : list Request) :
  firstn (a + b) l = firstn a l ++ firstn b (skipn a l).
Proof.
  revert l. induction a as [|a IH]; intros l; [reflexivity|].
  destruct l as [|x l]; simpl.
  - now rewrite firstn_nil.
  - now rewrite IH.
Qed.

Lemma concat_chunks (s m : nat) (l : list Request) :
  concat (map (fun k => firstn s (skipn (k * s) l)) (seq 0 m))
  = firstn (m * s) l.
Proof.
  induction m as [|m IH]; [reflexivity|].
  rewrite seq_S, map_app, concat_app, IH. cbn [map concat].
  change (0 + m)%nat with m. change (S m * s)%nat with (s + m * s)%nat.
  rewrite app_nil_r, (Nat.add_comm s (m * s)). symmetry.
  apply firstn_add_skipn.
Qed.

Lemma ceil_div_bounds (n s : nat) :
  (0 < s)%nat ->
  (n <= (n + s - 1) / s * s)%nat /\
  ((n + s - 1) / s * s < n + s)%nat.
Proof.
  intros Hs.
  pose proof (Nat.div_mod_eq (n + s - 1) s) as E.
  pose proof (Nat.mod_upper_bound (n + s - 1) s) as U.
  split; nia.
Qed.

Lemma batch_requests_positive (l : list Request) (b : Z) :
  (0 < b)%Z ->
  batch_requests l b
  = Ok (map (fun k => firstn (Z.to_nat b) (skipn (k * Z.to_nat b) l))
            (seq 0 ((length l + Z.to_nat b - 1) / Z.to_nat b))).
Proof.
  intros Hb. unfold batch_requests, range0.
  destruct (Z.eqb_spec b 0); [lia|].
  destruct (Z.ltb_spec b 0); [lia|].
  cbn [bind]. rewrite map_map. f_equal. apply map_ext. intros k.
  unfold slice. f_equal. lia.
Qed.

(** X21.  Batching with a positive batch size cuts the list into
    consecutive pieces: the batches concatenated give the list back, there
    are ceil(len / batch_size) of them, none is empty or longer than the
    batch size, and all but the last have exactly batch_size requests.  A
    batch size of zero raises ValueError; with a negative batch size the
    call returns no batch at all, whatever the list holds. *)
Theorem batch_requests_partition :
  forall (l : list Request) (b : Z),
    ((b = 0)%Z -> batch_requests l b = Raise ValueError) /\
    ((b < 0)%Z -> batch_requests l b = Ok []) /\
    ((0 < b)%Z ->
     exists batches,
       batch_requests l b = Ok batches /\
       concat batches = l /\
       length batches = ((length l + Z.to_nat b - 1) / Z.to_nat b)%nat /\
       (forall i x, nth_error batches i = Some x ->
                    x <> [] /\
                    (Z.of_nat (length x) <= b)%Z /\
                    ((S i < length batches)%nat ->
                     Z.of_nat (length x) = b))).
Proof.
  intros l b. split; [|split].
  - intros ->. reflexivity.
  - intros Hb. unfold batch_requests, range0.
    destruct (Z.eqb_spec b 0); [lia|].
    destruct (Z.ltb_spec b 0); [reflexivity | lia].
  - intros Hb. rewrite (batch_requests_positive l Hb).
    set (s := Z.to_nat b). set (m := ((length l + s - 1) / s)%nat).
    assert (Hs : (0 < s)%nat) by (unfold s; lia).
    destruct (ceil_div_bounds (length l) Hs) as [Hlo Hhi]. fold m in Hlo, Hhi.
    eexists. split; [reflexivity|]. split; [|split].
    + rewrite concat_chunks. now apply firstn_all2.
    + now rewrite length_map, length_seq.
    + intros i x Hx. rewrite nth_error_map in Hx.
      destruct (nth_error (seq 0 m) i) as [k|] eqn:Ek; [|discriminate].
      injection Hx as <-.
      assert (Hlen : (i < length (seq 0 m))%nat).
      { apply nth_error_Some. rewrite Ek. discriminate. }
      assert (Hi : (i < m)%nat) by now rewrite length_seq in Hlen.
      rewrite (nth_error_nth' _ 0%nat Hlen), seq_nth in Ek by exact Hi.
      injection Ek as <-. change (0 + i)%nat with i.
      assert (Hk : (i * s < length l)%nat) by nia.
      rewrite length_map, length_seq.
      assert (Hl : length (firstn s (skipn (i * s) l))
                   = Nat.min s (length l - i * s))
        by now rewrite length_firstn, length_skipn.
      split; [|split].
      * intros E. rewrite E in Hl. simpl in Hl. lia.
      * rewrite Hl. unfold s in *. lia.
      * intros Hlast. rewrite Hl.
        assert ((S i * s < length l)%nat) by nia.
        unfold s in *. lia.
Qed.
End BatchProperties.

Lemma batch_requests_partition_witness :
  exists batches,
    batch_requests [1%Z; 2%Z; 3%Z; 4%Z; 5%Z] 2 = Ok batches /\
    concat batches = [1%Z; 2%Z; 3%Z; 4%Z; 5%Z] /\
    length batches = 3%nat.
Proof.
  destruct (proj2 (proj2 (batch_requests_partition
                            [1%Z; 2%Z; 3%Z; 4%Z; 5%Z] 2)))
    as (batches & H & Hc & Hl & _); [lia|].
  exists batches. split; [exact H|]. split; [exact Hc | exact Hl].
Defined.

(* ================================================================== *)
(** * The rate limiter *)
(* ================================================================== *)

Lemma filter_none (A : Type) (p : A -> bool) (l : list A) :
  (forall x, In x l -> p x = false) -> filter p l = [].
Proof.
  induction l as [|a l IH]; intros H; [reflexivity|]. simpl.
  rewrite (H a) by now left. apply IH. intros x Hx. apply H. now right.
Qed.

(** Once the clock has passed 62 seconds, an entry whose key is the minute
    number of a reading not later than the current one is never younger
    than a minute: the cleaning step empties the dictionary. *)
Lemma implement_rate_limiting_purges (d : request_times_t) (t : R) (max : Z) :
  62 <= t ->
  (forall e, In e d -> IZR (fst e) <= t / 60) ->
  implement_rate_limiting d t max
  = if (0 >=? max)%Z then ([], false) else ([(Zfloor (t / 60), 1%Z)], true).
Proof.
  intros Ht Hd. unfold implement_rate_limiting.
  rewrite filter_none; [reflexivity|].
  intros e He. specialize (Hd e He).
  destruct (Rlt_dec (t - 60) (IZR (fst e))); [lra | reflexivity].
Qed.

Lemma rate_limited_calls_from (clock : list R) :
  forall (d : request_times_t) (max : Z),
    (1 <= max)%Z ->
    Sorted Rle clock ->
    Forall (fun t => 62 <= t) clock ->
    (forall e t, In e d -> In t clock -> IZR (fst e) <= t / 60) ->
    rate_limited_calls d clock max = map (fun _ => true) clock.
Proof.
  induction clock as [|t clock IH]; intros d max Hmax Hs Hall Hd;
    [reflexivity|].
  cbn [rate_limited_calls map].
  rewrite implement_rate_limiting_purges.
  - destruct (Z.geb_spec 0 max); [lia|]. f_equal.
    apply IH; [exact Hmax | now inversion Hs | now inversion Hall |].
    intros e t' [<-|[]] Ht'. cbn [fst].
    assert (Hle : t <= t').
    { assert (Hf : Forall (Rle t) clock).
      { apply Sorted_extends; [|exact Hs].
        intros x y z; apply Rle_trans. }
      rewrite Forall_forall in Hf. now apply Hf. }
    pose proof (Zfloor_bound (t / 60)). lra.
  - now inversion Hall.
  - intros e He. apply Hd; [exact He | now left].
Qed.

(** X22.  On an optimizer whose dictionary starts empty, calls made at
    clock readings that never go back and are at least 62 seconds are all
    allowed, however many fall within one minute, as soon as the limit is
    at least 1: the minute numbers stored as keys are compared with a time
    in seconds, so every call finds the dictionary emptied.  With a limit
    of 0 or less every call is refused. *)
Theorem rate_limit_never_refuses :
  forall (clock : list R) (max : Z),
    Sorted Rle clock ->
    Forall (fun t => 62 <= t) clock ->
    rate_limited_calls [] clock max
    = map (fun _ => (1 <=? max)%Z) clock.
Proof.
  intros clock max Hs Hall.
  destruct (Z.leb_spec 1 max) as [Hmax|Hmax].
  - apply rate_limited_calls_from; auto. intros e t [].
  - clear Hs. induction clock as [|t clock IH]; [reflexivity|].
    cbn [rate_limited_calls map].
    rewrite implement_rate_limiting_purges;
      [|now inversion Hall | intros e []].
    destruct (Z.geb_spec 0 max); [|lia]. f_equal.
    apply IH. now inversion Hall.
Qed.

Lemma rate_limit_never_refuses_witness :
  rate_limited_calls [] [1000; 1000; 1000; 1001] 2
  = [true; true; true; true].
Proof.
  apply (@rate_limit_never_refuses [1000; 1000; 1000; 1001] 2).
  - repeat constructor; lra.
  - repeat constructor; lra.
Defined.

(* ================================================================== *)
(** * Marker clustering *)
(* ================================================================== *)

Lemma observation_key_has_coordinates (o : Observation) (g : R) :
  0 < g ->
  match observation_key (Num g) o with Some _ => true | None => false end
  = has_coordinates o.
Proof.
  intros Hg. unfold has_coordinates.
  destruct (latitude o) as [|x] eqn:Ex.
  { rewrite observation_key_NaN by now left. reflexivity. }
  destruct (longitude o) as [|y] eqn:Ey.
  { rewrite observation_key_NaN by now right. reflexivity. }
  now rewrite (observation_key_Num o Hg Ex Ey).
Qed.

Lemma stations_of_cluster_group (th : Z) (g : grid_key * list Observation) :
  list_sum (map stations_of (cluster_group th g)) = length (snd g).
Proof.
  destruct g as [[a b] grp]. unfold cluster_group. cbn [snd].
  destruct (th <? Z.of_nat (length grp))%Z.
  - simpl. lia.
  - rewrite map_map. apply list_sum_ones.
Qed.

Lemma stations_of_flat_map (A : Type) (f : A -> list marker_data)
  (l : list A) :
  list_sum (map stations_of (flat_map f l))
  = list_sum (map (fun a => list_sum (map stations_of (f a))) l).
Proof.
  induction l as [|a l IH]; [reflexivity|].
  cbn [flat_map map list_sum fold_right].
  rewrite map_app, list_sum_app, IH. reflexivity.
Qed.

Lemma clustering_path (df : DataFrame) (th : Z) :
  (th < Z.of_nat (length (rows df)))%Z ->
  snd (optimize_marker_clustering df th)
  = flat_map (cluster_group th)
             (groupby grid_key_eq_dec grid_key_leb
                (map (fun o => (observation_key (Num (1 / 100)) o, o))
                     (rows df))).
Proof.
  intros H. unfold optimize_marker_clustering.
  destruct (Z.leb_spec (Z.of_nat (length (rows df))) th); [lia|].
  cbn [snd]. rewrite keyed_rows_map. reflexivity.
Qed.

(** X23.  The returned list accounts for every station once.  At or below
    the threshold there is one marker per row.  Above it, counting a
    cluster for the [count] it reports and every other entry for one, the
    entries add up to the number of rows that have both coordinates: rows
    without a coordinate are left out.  A cluster always reports more
    stations than the threshold, all keyed to its cell, and a marker of the
    clustering path shows a row that has both coordinates. *)
Theorem marker_clustering_accounts_for_stations :
  forall (df : DataFrame) (th : Z),
    ((Z.of_nat (length (rows df)) <= th)%Z ->
     snd (optimize_marker_clustering df th)
     = map (fun o => plain_marker (latitude o) (longitude o) o) (rows df)) /\
    ((th < Z.of_nat (length (rows df)))%Z ->
     list_sum (map stations_of (snd (optimize_marker_clustering df th)))
     = length (filter has_coordinates (rows df)) /\
     (forall lat lon count avg,
        In (cluster_marker lat lon count avg)
           (snd (optimize_marker_clustering df th)) ->
        (th < Z.of_nat count)%Z /\
        exists a b,
          lat = Num a /\ lon = Num b /\
          count = length (filter (fun o =>
                                    if grid_key_opt_eq_dec
                                         (observation_key (Num (1 / 100)) o)
                                         (Some (a, b))
                                    then true else false) (rows df))) /\
     (forall lat lon o,
        In (single_marker lat lon o)
           (snd (optimize_marker_clustering df th)) ->
        In o (rows df) /\ has_coordinates o = true /\
        lat = latitude o /\ lon = longitude o) /\
     (forall lat lon o,
        ~ In (plain_marker lat lon o)
             (snd (optimize_marker_clustering df th)))).
Proof.
  intros df th. split.
  { intros H. unfold optimize_marker_clustering.
    destruct (Z.leb_spec (Z.of_nat (length (rows df))) th); [reflexivity|lia]. }
  intros H. rewrite (clustering_path df H).
  set (l := map (fun o => (observation_key (Num (1 / 100)) o, o)) (rows df)).
  assert (Hg : 0 < 1 / 100) by lra.
  split; [|split; [|split]].
  - rewrite stations_of_flat_map.
    rewrite (map_ext _ (fun g => list_sum (map (fun _ => 1%nat) (snd g))))
      by (intros g; rewrite stations_of_cluster_group;
          symmetry; apply list_sum_ones).
    rewrite groupby_weight. subst l. rewrite map_map. cbn [fst snd].
    clear H. induction (rows df) as [|o obs IH]; [reflexivity|].
    cbn [map list_sum fold_right filter].
    rewrite <- (observation_key_has_coordinates o Hg).
    change (fold_right Init.Nat.add 0%nat
              (map (fun x => match observation_key (Num (1 / 100)) x with
                             | Some _ => 1%nat
                             | None => 0%nat
                             end) obs))
      with (list_sum
              (map (fun x => match observation_key (Num (1 / 100)) x with
                             | Some _ => 1%nat
                             | None => 0%nat
                             end) obs)).
    rewrite IH. now destruct (observation_key (Num (1 / 100)) o).
  - intros lat lon count avg Hin.
    apply in_flat_map in Hin as ([[a b] grp] & Hgrp & Hin).
    unfold cluster_group in Hin.
    destruct (Z.ltb_spec th (Z.of_nat (length grp))) as [Hlt|Hge].
    + destruct Hin as [[= <- <- <- <-]|[]]. split; [exact Hlt|].
      exists a, b. split; [reflexivity|]. split; [reflexivity|].
      apply groupby_members in Hgrp. cbn [fst snd] in Hgrp.
      rewrite Hgrp. subst l. now rewrite members_filter.
    + apply in_map_iff in Hin as (o & Ho & _). discriminate.
  - intros lat lon o Hin.
    apply in_flat_map in Hin as ([[a b] grp] & Hgrp & Hin).
    unfold cluster_group in Hin.
    destruct (th <? Z.of_nat (length grp))%Z.
    + destruct Hin as [Hin|[]]. discriminate.
    + apply in_map_iff in Hin as (o' & [= <- <- <-] & Ho).
      apply groupby_members in Hgrp. cbn [fst snd] in Hgrp.
      rewrite Hgrp in Ho. apply members_In in Ho. subst l.
      apply in_map_iff in Ho as (o0 & [= Hk <-] & Ho).
      split; [exact Ho|]. split; [|split; reflexivity].
      rewrite <- (observation_key_has_coordinates o0 Hg), Hk. reflexivity.
  - intros lat lon o Hin.
    apply in_flat_map in Hin as ([[a b] grp] & Hgrp & Hin).
    unfold cluster_group in Hin.
    destruct (th <? Z.of_nat (length grp))%Z.
    + destruct Hin as [Hin|[]]. discriminate.
    + apply in_map_iff in Hin as (o' & Ho' & _). discriminate.
Qed.

Lemma marker_clustering_accounts_for_stations_witness :
  list_sum (map stations_of
                (snd (optimize_marker_clustering missing_then_present 1)))
  = 2%nat.
Proof.
  apply (proj2 (marker_clustering_accounts_for_stations
                  missing_then_present 1)).
  simpl. lia.
Defined.
